(** * SFM: the graph-building core of the structure-aware factorization machine

    A shallow embedding of [src/core.py] (class [SFMCore] and the function
    [matmul_wrapper]).

    The Python code builds a TensorFlow graph; the embedding fuses graph
    construction with graph evaluation: every tensor the code creates is
    represented by its value under a fixed but arbitrary assignment of
    contents to the variables ([valuation]) and of data to the placeholders
    ([feed_dict]).  Python exceptions are explicit ([result]), the mutable
    attributes of [self], TensorFlow's variable store and the standard output
    are threaded through a state-and-exception monad.

    Numbers: a [float32] is an exact rational or one of the three IEEE
    specials.  Finite arithmetic is exact (no rounding, no overflow), the
    specials propagate as IEEE 754 prescribes.

    Shapes: the contents of variables and placeholders are taken to conform to
    their declared shapes, as TensorFlow enforces on feeding and assignment;
    shape-mismatch exceptions of the tensor operations are not modelled. *)

From Stdlib Require Import ZArith QArith Qcanon Qcabs String Ascii List Lia.
From stdpp Require Import base option list gmap strings pretty numbers sorting.

Local Open Scope Z_scope.
Local Open Scope string_scope.

(** ** Floating-point scalars *)

Inductive float32 : Type :=
| Fin (q : Qc)
| PInf
| NInf
| NaN.

Definition f0 : float32 := Fin 0%Qc.
Definition f1 : float32 := Fin 1%Qc.
Definition f2 : float32 := Fin (Q2Qc 2).
Definition of_Z (z : Z) : float32 := Fin (Q2Qc (inject_Z z)).

Definition is_finite (x : float32) : bool :=
  match x with Fin _ => true | _ => false end.

Definition fadd (x y : float32) : float32 :=
  match x, y with
  | NaN, _ | _, NaN => NaN
  | PInf, NInf | NInf, PInf => NaN
  | PInf, _ | _, PInf => PInf
  | NInf, _ | _, NInf => NInf
  | Fin a, Fin b => Fin (a + b)%Qc
  end.

(** An infinity scaled by a finite factor. *)
Definition scale_inf (pos : bool) (a : Qc) : float32 :=
  if decide (a = 0%Qc) then NaN
  else if decide (0 < a)%Qc then (if pos then PInf else NInf)
       else (if pos then NInf else PInf).

Definition fmul (x y : float32) : float32 :=
  match x, y with
  | NaN, _ | _, NaN => NaN
  | Fin a, Fin b => Fin (a * b)%Qc
  | Fin a, PInf | PInf, Fin a => scale_inf true a
  | Fin a, NInf | NInf, Fin a => scale_inf false a
  | PInf, PInf | NInf, NInf => PInf
  | PInf, NInf | NInf, PInf => NInf
  end.

Definition fdiv (x y : float32) : float32 :=
  match x, y with
  | NaN, _ | _, NaN => NaN
  | Fin a, Fin b =>
      if decide (b = 0%Qc) then scale_inf true a else Fin (a / b)%Qc
  | Fin _, _ => f0
  | PInf, Fin b => if decide (b < 0)%Qc then NInf else PInf
  | NInf, Fin b => if decide (b < 0)%Qc then PInf else NInf
  | _, _ => NaN
  end.

Definition fabs (x : float32) : float32 :=
  match x with
  | Fin a => Fin (Qcabs a)
  | PInf | NInf => PInf
  | NaN => NaN
  end.

(** The sum of a sequence, accumulated left to right. *)
Definition fsum (l : list float32) : float32 := fold_left fadd l f0.

(** ** Dense tensors *)

Definition vector := list float32.
Definition matrix := list (list float32).

Definition entries (m : matrix) : list float32 := concat m.

Definition ncols (m : matrix) : nat := length (hd [] m).
Definition column (j : nat) (m : matrix) : vector := map (fun row => nth j row f0) m.
Definition dot (u v : vector) : float32 := fsum (zip_with fmul u v).

(** Elementwise product and sum of two tensors of one shape. *)
Definition emul (a c : matrix) : matrix := zip_with (zip_with fmul) a c.
Definition eadd (a c : matrix) : matrix := zip_with (zip_with fadd) a c.

(** ** Python objects, exceptions and the interpreter state *)

Inductive exn : Type :=
| NameError (msg : string)
| UnboundLocalError (name : string)
| ValueError (msg : string)
| TypeError (msg : string)
| IndexError
| KeyError (key : Z)
| AssertionError
| InvalidArgumentError (msg : string).

Inductive result (A : Type) : Type :=
| Ok (a : A)
| Raise (e : exn).
Arguments Ok {A} a.
Arguments Raise {A} e.

Definition rbind {A B} (r : result A) (k : A -> result B) : result B :=
  match r with
  | Ok a => k a
  | Raise e => Raise e
  end.

(** Loops whose body can raise. *)
Fixpoint mapM {A B} (f : A -> result B) (l : list A) : result (list B) :=
  match l with
  | [] => Ok []
  | x :: l' => rbind (f x) (fun y => rbind (mapM f l') (fun ys => Ok (y :: ys)))
  end.

Fixpoint foldR {A B} (f : B -> A -> result B) (l : list A) (acc : B) : result B :=
  match l with
  | [] => Ok acc
  | x :: l' => rbind (f acc x) (foldR f l')
  end.

(** What a Python name can be bound to where the code passes tensors around. *)
Inductive pyobj : Type :=
| PyNone
| Dense (m : matrix)
| SparseTensor (indices : list (Z * Z)) (values : list float32) (shape : Z * Z)
| Indices (ids : list Z).

(** [l[i]] and [l[i] = x] on a Python list, negative indices included. *)
Definition py_index {A} (l : list A) (i : Z) : option nat :=
  let n := Z.of_nat (length l) in
  if decide (0 <= i < n) then Some (Z.to_nat i)
  else if decide (- n <= i < 0) then Some (Z.to_nat (n + i))
  else None.

Definition py_getitem {A} (l : list A) (i : Z) : result A :=
  match py_index l i with
  | Some k => match l !! k with Some x => Ok x | None => Raise IndexError end
  | None => Raise IndexError
  end.

Definition py_setitem {A} (l : list A) (i : Z) (x : A) : result (list A) :=
  match py_index l i with
  | Some k => Ok (<[k := x]> l)
  | None => Raise IndexError
  end.

(** [str(n)] for an int. *)
Definition str (n : Z) : string := pretty n.

(** [range(n)] and [[x] * n]. *)
Definition range (n : Z) : list Z := map Z.of_nat (seq 0 (Z.to_nat n)).
Definition py_repeat {A} (x : A) (n : Z) : list A := replicate (Z.to_nat n) x.

(** [set(modes)], as a loop goes through it: the distinct elements, in
    ascending order.  CPython keeps a small non-negative int in the slot of
    its value, so that the modes of a view, small positive ints, come out in
    ascending order whatever the order of the tuple; the language itself
    leaves the order open, and for ints beyond the size of the table of the
    set it depends on the interpreter.  The order bears on the order of the
    printed lines and of the additions to the accumulator, not on which
    variables are created. *)
Definition py_set (modes : list Z) : list Z := merge_sort Z.le (remove_dups modes).

(** [enumerate(l)]. *)
Definition enumerate {A} (l : list A) : list (Z * A) :=
  zip (map Z.of_nat (seq 0 (length l))) l.

(** [max(l)]. *)
Definition py_max (l : list Z) : result Z :=
  match l with
  | [] => Raise (ValueError "max() arg is an empty sequence")
  | x :: l' => Ok (fold_left Z.max l' x)
  end.

(** [t[v][m]] and [t[v][m] = x] on a list of lists. *)
Definition getitem2 {A} (t : list (list A)) (v m : Z) : result A :=
  rbind (py_getitem t v) (fun row => py_getitem row m).

Definition setitem2 {A} (t : list (list A)) (v m : Z) (x : A) : result (list (list A)) :=
  rbind (py_getitem t v) (fun row =>
  rbind (py_setitem row m x) (fun row' => py_setitem t v row')).

(** [d[k]] on a dict. *)
Definition dict_getitem (d : gmap Z matrix) (k : Z) : result matrix :=
  match d !! k with
  | Some x => Ok x
  | None => Raise (KeyError k)
  end.

(** ** The object and the state a build mutates *)

(** A variable of the graph, as [tf.get_variable] or [tf.Variable] records it. *)
Record variable : Type := Var {
  var_name : string;
  var_shape : list Z;
  var_trainable : bool
}.

(** The attributes [__init__], [set_relational_input] and [set_num_features]
    set.  [loss_function] maps the outputs and the labels to the per-example
    losses; [optimizer] and [output_range] take no part in what the graph
    computes and are left out.  [self.mode_matrices] is [mode_matrices_attr]
    here: [__init__] sets it to [None], [_init_placeholders] assigns it only
    for a relational input, and [mode_matrices] names the field of
    [placeholders] below. *)
Record SFMCore : Type := {
  view_list : list (list Z);
  co_rank : Z;
  view_rank : Z;
  input_type : string;
  loss_function : matrix -> vector -> matrix;
  reg_type : string;
  reg : float32;
  init_scaling : float32;
  n_modes : Z;
  n_views : Z;
  n_feature_list : option (list Z);
  mode_matrices_attr : option (list pyobj);
  isRelational : bool;
  isFullOrder : bool
}.

(** The attributes [_init_learnable_params] and [_init_regular] assign,
    together with the variable store of the graph under construction and the
    lines printed so far.  [self.S] is [layer_norm_S] here, after the name of
    its variables: [S] is the successor of [nat]. *)
Record heap : Type := Heap {
  W : list (list (option variable));
  Bias : list (list (option variable));
  layer_norm_S : list (option variable);
  Phi : option variable;
  b : option variable;
  regularization : float32;
  tf_variables : gmap string variable;
  stdout : list string
}.

Definition empty_heap : heap :=
  Heap [] [] [] None None f0 ∅ [].

Definition set_W (x : list (list (option variable))) (h : heap) : heap :=
  Heap x (Bias h) (layer_norm_S h) (Phi h) (b h) (regularization h) (tf_variables h) (stdout h).
Definition set_Bias (x : list (list (option variable))) (h : heap) : heap :=
  Heap (W h) x (layer_norm_S h) (Phi h) (b h) (regularization h) (tf_variables h) (stdout h).
Definition set_layer_norm_S (x : list (option variable)) (h : heap) : heap :=
  Heap (W h) (Bias h) x (Phi h) (b h) (regularization h) (tf_variables h) (stdout h).
Definition set_Phi (x : option variable) (h : heap) : heap :=
  Heap (W h) (Bias h) (layer_norm_S h) x (b h) (regularization h) (tf_variables h) (stdout h).
Definition set_b (x : option variable) (h : heap) : heap :=
  Heap (W h) (Bias h) (layer_norm_S h) (Phi h) x (regularization h) (tf_variables h) (stdout h).
Definition set_regularization (x : float32) (h : heap) : heap :=
  Heap (W h) (Bias h) (layer_norm_S h) (Phi h) (b h) x (tf_variables h) (stdout h).
Definition set_tf_variables (x : gmap string variable) (h : heap) : heap :=
  Heap (W h) (Bias h) (layer_norm_S h) (Phi h) (b h) (regularization h) x (stdout h).
Definition set_stdout (x : list string) (h : heap) : heap :=
  Heap (W h) (Bias h) (layer_norm_S h) (Phi h) (b h) (regularization h) (tf_variables h) x.

(** ** A state-and-exception monad for the method bodies *)

Definition M (A : Type) : Type := heap -> result A * heap.

Definition ret {A} (a : A) : M A := fun h => (Ok a, h).
Definition raise {A} (e : exn) : M A := fun h => (Raise e, h).
Definition bind {A B} (c : M A) (k : A -> M B) : M B :=
  fun h => match c h with
           | (Ok a, h') => k a h'
           | (Raise e, h') => (Raise e, h')
           end.
Definition lift {A} (r : result A) : M A := fun h => (r, h).
Definition modify (f : heap -> heap) : M unit := fun h => (Ok tt, f h).
Definition gets {A} (f : heap -> A) : M A := fun h => (Ok (f h), h).

Notation "'let*' x ':=' c 'in' k" := (bind c (fun x => k))
  (at level 10, x pattern, c at level 100, k at level 200).
Notation "c ';;' k" := (bind c (fun _ => k))
  (at level 100, k at level 200, right associativity).

(** [try: body except: handler] with a bare [except]: every exception is
    caught, and what the body did before raising stays done. *)
Definition try_except (body handler : M unit) : M unit :=
  fun h => match body h with
           | (Ok _, h') => (Ok tt, h')
           | (Raise _, h') => handler h'
           end.

(** [for x in l: body]. *)
Fixpoint for_ {A} (l : list A) (body : A -> M unit) : M unit :=
  match l with
  | [] => ret tt
  | x :: l' => body x ;; for_ l' body
  end.

(** A loop that carries a local variable from round to round. *)
Fixpoint foldM {A B} (f : B -> A -> M B) (l : list A) (acc : B) : M B :=
  match l with
  | [] => ret acc
  | x :: l' => let* acc' := f acc x in foldM f l' acc'
  end.

Definition print (line : string) : M unit :=
  modify (fun h => set_stdout (stdout h ++ [line]) h).

(** ** Name resolution *)

(** The names bound at module level in [core.py]. *)
Definition module_globals : list string :=
  ["absolute_import"; "division"; "print_function"; "unicode_literals";
   "tf"; "math"; "SFMCore"; "matmul_wrapper"].

(** Loading a bare name inside a function: its locals, then the module's
    globals (no builtin is called [init_scaling]). *)
Definition load_name (locals : list string) (name : string) : M unit :=
  if decide (name ∈ (locals ++ module_globals)%list) then ret tt
  else raise (NameError ("name '" ++ name ++ "' is not defined")).

(** ** TensorFlow operations *)

Module tf.

Definition matmul (A B : pyobj) : result matrix :=
  match A, B with
  | Dense a, Dense b =>
      Ok (map (fun row => map (fun j => dot row (column j b)) (seq 0 (ncols b))) a)
  | PyNone, _ | _, PyNone => Raise (ValueError "None values not supported.")
  | _, _ => Raise (TypeError "Expected a dense float tensor")
  end.

(** Row [i] of a sparse matrix times [b]: the entries of row [i], each scaling
    the row of [b] its column index selects, summed. *)
Definition sparse_row_times (indices : list (Z * Z)) (values : list float32)
    (b : matrix) (i : Z) : vector :=
  map (fun j =>
         fsum (map (fun '((r, c), x) => fmul x (nth j (nth (Z.to_nat c) b []) f0))
                   (filter (fun '((r, c), x) => r = i) (zip indices values))))
      (seq 0 (ncols b)).

Definition sparse_tensor_dense_matmul (A B : pyobj) : result matrix :=
  match A, B with
  | SparseTensor indices values shape, Dense b =>
      Ok (map (sparse_row_times indices values b) (range (fst shape)))
  | PyNone, _ | _, PyNone => Raise (ValueError "None values not supported.")
  | _, _ => Raise (TypeError "Expected a SparseTensor and a dense float tensor")
  end.

Definition abs (W : pyobj) : result matrix :=
  match W with
  | Dense m => Ok (map (map fabs) m)
  | PyNone => Raise (ValueError "None values not supported.")
  | _ => Raise (TypeError "Expected a dense float tensor")
  end.

Definition reduce_sum (m : matrix) : float32 := fsum (entries m).

(** [tf.reduce_mean] over all entries. *)
Definition reduce_mean (m : matrix) : float32 :=
  fdiv (fsum (entries m)) (of_Z (Z.of_nat (length (entries m)))).

Definition verify_tensor_all_finite (t : float32) (msg : string) : result float32 :=
  if is_finite t then Ok t else Raise (InvalidArgumentError msg).

(** [tf.get_variable] with reuse off: a name the variable store already holds
    is refused. *)
Definition get_variable (full_name : string) (shape : list Z) (trainable : bool)
    : M variable :=
  fun h =>
    match tf_variables h !! full_name with
    | Some _ =>
        (Raise (ValueError ("Variable " ++ full_name ++ " already exists, disallowed.")), h)
    | None =>
        let x := Var full_name shape trainable in
        (Ok x, set_tf_variables (<[full_name := x]> (tf_variables h)) h)
    end.

(** [x + bias] with the single row of [bias] broadcast over the batch. *)
Definition add (x bias : pyobj) : result matrix :=
  match x, bias with
  | Dense a, Dense [brow] => Ok (map (fun row => zip_with fadd row brow) a)
  | Dense a, Dense c => Ok (zip_with (zip_with fadd) a c)
  | PyNone, _ | _, PyNone => Raise (ValueError "None values not supported.")
  | _, _ => Raise (TypeError "Expected a dense float tensor")
  end.

(** [tf.concat(1, [a, c])]. *)
Definition concat_1 (a c : matrix) : matrix := zip_with app a c.

(** [tf.reduce_prod(tf.pack(l, axis=2), reduction_indices=[2])]: the
    elementwise product of the tensors of [l]; nothing to pack is an error. *)
Definition reduce_prod_pack (l : list matrix) : result matrix :=
  match l with
  | [] => Raise (ValueError "pack of an empty list")
  | x :: l' => Ok (fold_left emul l' x)
  end.

(** [tf.reduce_sum(l, reduction_indices=[0])] on a list of tensors of one
    shape: their elementwise sum.  ([__init__] admits no empty view list.) *)
Definition reduce_sum_0 (l : list matrix) : matrix :=
  match l with
  | [] => []
  | x :: l' => fold_left eadd l' x
  end.

Module nn.

(** [tf.nn.embedding_lookup(params, ids)]: the rows of [params] the ids name. *)
Fixpoint gather (params : matrix) (ids : list Z) : result matrix :=
  match ids with
  | [] => Ok []
  | i :: ids' =>
      if decide (0 <= i) then
        match params !! Z.to_nat i with
        | Some row => rbind (gather params ids') (fun rows => Ok (row :: rows))
        | None => Raise (InvalidArgumentError "indices out of range")
        end
      else Raise (InvalidArgumentError "indices out of range")
  end.

Definition embedding_lookup (params : matrix) (ids : pyobj) : result matrix :=
  match ids with
  | Indices l => gather params l
  | PyNone => Raise (ValueError "None values not supported.")
  | _ => Raise (TypeError "Expected an integer vector")
  end.

(** [tf.nn.l2_loss(t)] is [sum(t ** 2) / 2]. *)
Definition l2_loss (W : pyobj) : result float32 :=
  match W with
  | Dense m => Ok (fdiv (fsum (map (fun x => fmul x x) (entries m))) f2)
  | PyNone => Raise (ValueError "None values not supported.")
  | _ => Raise (TypeError "Expected a dense float tensor")
  end.

End nn.

End tf.

(** ** [matmul_wrapper] *)

Definition matmul_wrapper (A B : pyobj) (optype : string) : result matrix :=
  if decide (optype = "dense") then tf.matmul A B
  else if decide (optype = "sparse") then tf.sparse_tensor_dense_matmul A B
  else Raise (NameError "Unknown input type in matmul_wrapper").

(** ** [__init__] and the setters *)

Definition __init__ (view_list : list (list Z)) (co_rank view_rank : Z)
    (isFullOrder : bool) (input_type : string)
    (loss_function : matrix -> vector -> matrix)
    (reg_type : string) (reg init_scaling : float32) : result SFMCore :=
  rbind (py_max (concat view_list)) (fun n =>
  Ok {| view_list := view_list; co_rank := co_rank; view_rank := view_rank;
        input_type := input_type; loss_function := loss_function;
        reg_type := reg_type; reg := reg; init_scaling := init_scaling;
        n_modes := n; n_views := Z.of_nat (length view_list);
        n_feature_list := None; mode_matrices_attr := None;
        isRelational := false; isFullOrder := isFullOrder |}).

Definition set_relational_input (self : SFMCore) (isRelational_ : bool) : SFMCore :=
  {| view_list := view_list self; co_rank := co_rank self;
     view_rank := view_rank self; input_type := input_type self;
     loss_function := loss_function self; reg_type := reg_type self;
     reg := reg self; init_scaling := init_scaling self;
     n_modes := n_modes self; n_views := n_views self;
     n_feature_list := n_feature_list self;
     mode_matrices_attr := mode_matrices_attr self;
     isRelational := isRelational_;
     isFullOrder := isFullOrder self |}.

Definition set_num_features (self : SFMCore) (n_feature_list_ : list Z) : SFMCore :=
  {| view_list := view_list self; co_rank := co_rank self;
     view_rank := view_rank self; input_type := input_type self;
     loss_function := loss_function self; reg_type := reg_type self;
     reg := reg self; init_scaling := init_scaling self;
     n_modes := n_modes self; n_views := n_views self;
     n_feature_list := Some n_feature_list_;
     mode_matrices_attr := mode_matrices_attr self;
     isRelational := isRelational self;
     isFullOrder := isFullOrder self |}.

(** ** [_init_learnable_params] *)

(** [self.n_feature_list[m]]. *)
Definition feature_dim (self : SFMCore) (m : Z) : result Z :=
  match n_feature_list self with
  | None => Raise (TypeError "'NoneType' object is not subscriptable")
  | Some l => py_getitem l m
  end.

(** The name of a variable created inside [tf.variable_scope(scope)]. *)
Definition scoped (scope name : string) : string := scope ++ "/" ++ name.

Definition co_mode_scope (m : Z) : string := "co_mode_" ++ str (m + 1).
Definition view_mode_scope (v m : Z) : string := "view_" ++ str v ++ "_mode_" ++ str m.

Definition bias_shared_msg (m v : Z) : string :=
  "bias mode " ++ str m ++ " shared in view " ++ str v.
Definition mode_shared_msg (m v : Z) : string :=
  "mode " ++ str m ++ " shared in view " ++ str v.

(** The first [try] of the inner loop: the bias of view [v] and mode [m]. *)
Definition create_view_bias (self : SFMCore) (v m : Z) : M unit :=
  let r := co_rank self + view_rank self in
  try_except
    (let* t := tf.get_variable (scoped (view_mode_scope v m) "bias") [1; r]
                               (isFullOrder self) in
     let* Bias' := (fun h => (setitem2 (Bias h) v (m - 1) (Some t), h)) in
     modify (set_Bias Bias'))
    (print (bias_shared_msg m v)).

(** The second [try]: the view-specific embedding table.  The arguments of
    [tf.get_variable] are evaluated before the call, the initializer's
    [factor=init_scaling] last; [init_scaling] is a bare name there. *)
Definition create_view_embedding (self : SFMCore) (v m : Z) : M unit :=
  try_except
    (if decide (view_rank self > 0) then
       let* nf := lift (feature_dim self (m - 1)) in
       load_name ["self"; "r"; "m"; "i"; "modes"; "v"] "init_scaling" ;;
       let* t := tf.get_variable (scoped (view_mode_scope v m) "embedding_init")
                                 [nf; view_rank self] true in
       let* W' := (fun h => (setitem2 (W h) v (m - 1) (Some t), h)) in
       modify (set_W W')
     else ret tt)
    (print (mode_shared_msg m v)).

(** The shared table and the scale vector of mode [m] (counted from 0). *)
Definition create_co_mode (self : SFMCore) (m : Z) : M unit :=
  let r := co_rank self + view_rank self in
  let* nf := lift (feature_dim self m) in
  let* t := tf.get_variable (scoped (co_mode_scope m) "embedding_init")
                            [nf; co_rank self] true in
  let* W' := (fun h => (setitem2 (W h) 0 m (Some t), h)) in
  modify (set_W W') ;;
  let* s := tf.get_variable (scoped (co_mode_scope m) "layer_norm_S") [r] true in
  let* S' := (fun h => (py_setitem (layer_norm_S h) m (Some s), h)) in
  modify (set_layer_norm_S S').

Definition _init_learnable_params (self : SFMCore) : M unit :=
  modify (set_W (map (fun _ => py_repeat None (n_modes self)) (range (n_views self + 1)))) ;;
  modify (set_Bias (map (fun _ => py_repeat None (n_modes self)) (range (n_views self + 1)))) ;;
  modify (set_layer_norm_S (py_repeat None (n_modes self))) ;;
  let r := co_rank self + view_rank self in
  let* phi := tf.get_variable "embedding_phi" [r; n_views self] true in
  modify (set_Phi (Some phi)) ;;
  modify (set_b (Some (Var "b" [] true))) ;;
  for_ (range (n_modes self)) (create_co_mode self) ;;
  for_ (enumerate (view_list self)) (fun '(i, modes) =>
    let v := i + 1 in
    for_ (py_set modes) (fun m =>
      create_view_bias self v m ;;
      create_view_embedding self v m)).

(** ** [_regularizer_func] *)

Definition _regularizer_func (self : SFMCore) (W : pyobj) : result float32 :=
  if decide (reg_type self = "L1") then
    rbind (tf.abs W) (fun a => Ok (tf.reduce_sum a))
  else tf.nn.l2_loss W.

(** ** Contents of variables and placeholders *)

(** The current contents of every variable, by name. *)
Definition valuation : Type := string -> matrix.

(** The data fed to the placeholders of mode [i] (counted from 0) and to the
    label placeholder. *)
Record feed_dict : Type := {
  feed_X : Z -> matrix;
  feed_X_indices : Z -> list Z;
  feed_X_matrix : Z -> matrix;
  feed_raw_indices : Z -> list (Z * Z);
  feed_raw_values : Z -> list float32;
  feed_raw_shape : Z -> Z * Z;
  feed_Y : vector
}.

(** The tensor a table slot denotes: [None] stays [None]. *)
Definition tensor_of (rho : valuation) (slot : option variable) : pyobj :=
  match slot with
  | Some x => Dense (rho (var_name x))
  | None => PyNone
  end.

(** ** [_init_placeholders] *)

Record placeholders : Type := {
  train_x : list pyobj;
  mode_matrices : option (list pyobj);
  train_y : vector
}.

(** One round of the loop: [train_x[i]] and, for relational input,
    [mode_matrices[i]].  The dense placeholders take their width from
    [n_feature_list[i]].  [self.mode_matrices] is assigned a new list only
    for a relational input; otherwise the attribute stays what it was. *)
Definition placeholder_pair (self : SFMCore) (fd : feed_dict) (i : Z)
    : result (pyobj * pyobj) :=
  if decide (input_type self = "dense") then
    if isRelational self then
      rbind (feature_dim self i) (fun _ =>
      Ok (Indices (feed_X_indices fd i), Dense (feed_X_matrix fd i)))
    else
      rbind (feature_dim self i) (fun _ => Ok (Dense (feed_X fd i), PyNone))
  else
    let sp := SparseTensor (feed_raw_indices fd i) (feed_raw_values fd i)
                           (feed_raw_shape fd i) in
    if isRelational self then Ok (Indices (feed_X_indices fd i), sp)
    else Ok (sp, PyNone).

Definition _init_placeholders (self : SFMCore) (fd : feed_dict) : result placeholders :=
  rbind (mapM (placeholder_pair self fd) (range (n_modes self))) (fun ps =>
  Ok {| train_x := map fst ps;
        mode_matrices := if isRelational self then Some (map snd ps)
                         else mode_matrices_attr self;
        train_y := feed_Y fd |}).

(** The object once [_init_placeholders] has completed: [self.mode_matrices]
    is what the call has left. *)
Definition with_placeholders (self : SFMCore) (ph : placeholders) : SFMCore :=
  {| view_list := view_list self; co_rank := co_rank self;
     view_rank := view_rank self; input_type := input_type self;
     loss_function := loss_function self; reg_type := reg_type self;
     reg := reg self; init_scaling := init_scaling self;
     n_modes := n_modes self; n_views := n_views self;
     n_feature_list := n_feature_list self;
     mode_matrices_attr := mode_matrices ph;
     isRelational := isRelational self;
     isFullOrder := isFullOrder self |}.

(** ** [_view_mode_embedding] *)

Definition _view_mode_embedding (self : SFMCore) (rho : valuation) (ph : placeholders)
    (h : heap) (v m : Z) : result matrix :=
  if isRelational self then
    rbind (match mode_matrices ph with
           | Some l => py_getitem l m
           | None => Raise (TypeError "'NoneType' object is not subscriptable")
           end) (fun mm =>
    rbind (getitem2 (W h) v m) (fun w =>
    rbind (matmul_wrapper mm (tensor_of rho w) (input_type self)) (fun modeEmbedding =>
    rbind (py_getitem (train_x ph) m) (fun ids =>
    tf.nn.embedding_lookup modeEmbedding ids))))
  else
    rbind (py_getitem (train_x ph) m) (fun x =>
    rbind (getitem2 (W h) v m) (fun w =>
    matmul_wrapper x (tensor_of rho w) (input_type self))).

(** ** [_init_regular] *)

(** [try: norm = ... except: print(...)]: a failed computation leaves the
    local [norm] as it was. *)
Definition try_norm (body : M float32) (handler : M unit) (norm : option float32)
    : M (option float32) :=
  fun h => match body h with
           | (Ok x, h') => (Ok (Some x), h')
           | (Raise _, h') => (handler ;; ret norm) h'
           end.

(** [self.regularization += norm]. *)
Definition add_norm (norm : option float32) : M unit :=
  match norm with
  | Some x => modify (fun h => set_regularization (fadd (regularization h) x) h)
  | None => raise (UnboundLocalError "norm")
  end.

(** [self._regularizer_func(table[v][m], node_name)]. *)
Definition norm_of_slot (self : SFMCore) (rho : valuation)
    (table : heap -> list (list (option variable))) (v m : Z) : M float32 :=
  fun h => (rbind (getitem2 (table h) v m) (fun t =>
            _regularizer_func self (tensor_of rho t)), h).

(** The body of the inner loop over [set(modes)]. *)
Definition regular_view_mode (self : SFMCore) (rho : valuation) (v : Z)
    (norm : option float32) (m : Z) : M (option float32) :=
  let* norm := try_norm (norm_of_slot self rho Bias v (m - 1))
                        (print (bias_shared_msg m v)) norm in
  add_norm norm ;;
  if decide (view_rank self > 0) then
    let* norm := try_norm (norm_of_slot self rho W v (m - 1))
                          (print (mode_shared_msg m v)) norm in
    add_norm norm ;;
    ret norm
  else ret norm.

(** [self.Phi[:, v]] as a tensor. *)
Definition phi_column (rho : valuation) (h : heap) (v : Z) : result vector :=
  match Phi h with
  | Some p => Ok (column (Z.to_nat v) (rho (var_name p)))
  | None => Raise (TypeError "'NoneType' object is not subscriptable")
  end.

Definition _init_regular (self : SFMCore) (rho : valuation) : M unit :=
  modify (set_regularization f0) ;;
  let* norm := foldM (fun _ m =>
                 let* norm := norm_of_slot self rho W 0 m in
                 add_norm (Some norm) ;;
                 ret (Some norm))
               (range (n_modes self)) None in
  let* norm := foldM (fun norm '(i, modes) =>
                 foldM (regular_view_mode self rho (i + 1)) (py_set modes) norm)
               (enumerate (view_list self)) norm in
  let* norm := foldM (fun _ v =>
                 let* col := (fun h => (phi_column rho h v, h)) in
                 let* norm := lift (_regularizer_func self (Dense [col])) in
                 ret (Some norm))
               (range (Z.of_nat (length (view_list self)))) norm in
  let* norm := (fun h => (_regularizer_func self (tensor_of rho (Phi h)), h)) in
  add_norm (Some norm).

(** ** [_init_main_block], [_init_loss], [_init_target], [build_graph] *)

(** [0 + t]. *)
Definition zero_plus (t : matrix) : matrix := map (map (fadd f0)) t.

(** [tf.reshape(self.Phi[:, i], (r, 1))]. *)
Definition phi_column_matrix (rho : valuation) (h : heap) (i : Z) : result matrix :=
  rbind (phi_column rho h i) (fun col => Ok (map (fun x => [x]) col)).

(** One round of [for m in modes]: the slot [m-1] of [XW_list] is assigned the
    embedding of mode [m], then the bias of the view is added to it. *)
Definition view_mode_step (self : SFMCore) (rho : valuation) (ph : placeholders)
    (h : heap) (XW_cache : gmap Z matrix) (v : Z)
    (XW_list : list (option matrix)) (m : Z) : result (list (option matrix)) :=
  rbind (if decide (view_rank self > 0) then
           rbind (_view_mode_embedding self rho ph h v (m - 1)) (fun XW =>
           rbind (dict_getitem XW_cache (m - 1)) (fun XW0 =>
           py_setitem XW_list (m - 1) (Some (tf.concat_1 XW0 XW))))
         else
           rbind (dict_getitem XW_cache (m - 1)) (fun XW0 =>
           py_setitem XW_list (m - 1) (Some XW0))) (fun XW_list =>
  rbind (py_getitem XW_list (m - 1)) (fun xw =>
  rbind (getitem2 (Bias h) v (m - 1)) (fun bias =>
  rbind (tf.add (from_option Dense PyNone xw) (tensor_of rho bias)) (fun s =>
  py_setitem XW_list (m - 1) (Some s))))).

(** The body of the loop over the views: the product embedding of view
    [i + 1] and its contribution. *)
Definition view_block (self : SFMCore) (rho : valuation) (ph : placeholders)
    (h : heap) (XW_cache : gmap Z matrix) (i : Z) (modes : list Z)
    : result (matrix * matrix) :=
  let v := i + 1 in
  rbind (foldR (view_mode_step self rho ph h XW_cache v) modes
               (py_repeat None (n_modes self))) (fun XW_list =>
  rbind (tf.reduce_prod_pack (omap id XW_list)) (fun prod =>
  rbind (phi_column_matrix rho h i) (fun phi =>
  rbind (matmul_wrapper (Dense prod) (Dense phi) "dense") (fun contrib =>
  Ok (prod, contrib))))).

Record forward : Type := {
  XW_cache : gmap Z matrix;
  prod_embedding : list matrix;
  view_contribution : list matrix;
  outputs : matrix;
  loss : matrix;
  reduced_loss : float32
}.

(** The forward part of [_init_main_block], up to [self.outputs]. *)
Definition main_outputs (self : SFMCore) (rho : valuation) (ph : placeholders)
    (h : heap) : result (gmap Z matrix * list (matrix * matrix) * matrix) :=
  (* train_shape reads self.train_x[0] *)
  rbind (py_getitem (train_x ph) 0) (fun _ =>
  rbind (foldR (fun cache m =>
                  rbind (_view_mode_embedding self rho ph h 0 m) (fun XW =>
                  Ok (<[m := XW]> cache)))
               (range (n_modes self)) ∅) (fun cache =>
  rbind (mapM (fun '(i, modes) => view_block self rho ph h cache i modes)
              (enumerate (view_list self))) (fun views =>
  Ok (cache, views, zero_plus (tf.reduce_sum_0 (map snd views)))))).

Definition _init_main_block (self : SFMCore) (rho : valuation) (ph : placeholders)
    : M forward :=
  let* fwd := (fun h => (main_outputs self rho ph h, h)) in
  let cache := fst (fst fwd) in
  let views := snd (fst fwd) in
  let out := snd fwd in
  (* _init_loss *)
  let loss := loss_function self out (train_y ph) in
  let reduced_loss := tf.reduce_mean loss in
  _init_regular self rho ;;
  ret {| XW_cache := cache; prod_embedding := map fst views;
         view_contribution := map snd views; outputs := out;
         loss := loss; reduced_loss := reduced_loss |}.

Record objective : Type := {
  target : float32;
  checked_target : result float32
}.

Definition _init_target (self : SFMCore) (fw : forward) (h : heap) : objective :=
  let target := fadd (reduced_loss fw) (fmul (reg self) (regularization h)) in
  {| target := target;
     checked_target :=
       tf.verify_tensor_all_finite target "NaN or Inf in target value" |}.

(** [optimizer.minimize(t)]: the training step evaluates [t] and hands its
    value to the optimizer. *)
Inductive train_op : Type :=
| Minimize (t : result float32).

Record built : Type := {
  built_inputs : placeholders;
  built_forward : forward;
  built_objective : objective;
  trainer : train_op
}.

Definition build_graph (self : SFMCore) (rho : valuation) (fd : feed_dict) : M built :=
  match n_feature_list self with
  | None => raise AssertionError
  | Some _ =>
      modify (set_tf_variables ∅) ;;
      _init_learnable_params self ;;
      let* ph := lift (_init_placeholders self fd) in
      let* fw := _init_main_block self rho ph in
      let* obj := gets (_init_target self fw) in
      ret {| built_inputs := ph; built_forward := fw; built_objective := obj;
             trainer := Minimize (checked_target obj) |}
  end.

(** * The vocabulary of the statements *)

(** ** Decidable equality, for statements settled by evaluation *)

#[global] Instance float32_eq_dec : EqDecision float32.
Proof. solve_decision. Defined.

#[global] Instance exn_eq_dec : EqDecision exn.
Proof. solve_decision. Defined.

#[global] Instance result_eq_dec {A} `{EqDecision A} : EqDecision (result A).
Proof. solve_decision. Defined.

#[global] Instance variable_eq_dec : EqDecision variable.
Proof. solve_decision. Defined.

#[global] Instance train_op_eq_dec : EqDecision train_op.
Proof. solve_decision. Defined.

(** ** Well-formed configurations and the variables they call for *)

(** A configuration as the docstring describes it: modes numbered from 1 up
    to [n_modes], a feature dimension for each, [n_views] the number of
    views. *)
Definition well_formed (self : SFMCore) : Prop :=
  (exists nfl, n_feature_list self = Some nfl /\ n_modes self <= Z.of_nat (length nfl)) /\
  n_views self = Z.of_nat (length (view_list self)) /\
  Forall (Forall (fun m => 1 <= m <= n_modes self)) (view_list self).

(** The variables [_init_learnable_params] asks for. *)
Definition co_var (self : SFMCore) (m : Z) : variable :=
  Var (scoped (co_mode_scope m) "embedding_init")
      [default 0 (default [] (n_feature_list self) !! Z.to_nat m); co_rank self] true.

Definition scale_var (self : SFMCore) (m : Z) : variable :=
  Var (scoped (co_mode_scope m) "layer_norm_S") [co_rank self + view_rank self] true.

Definition bias_var (self : SFMCore) (v m : Z) : variable :=
  Var (scoped (view_mode_scope v m) "bias") [1; co_rank self + view_rank self]
      (isFullOrder self).

Definition phi_var (self : SFMCore) : variable :=
  Var "embedding_phi" [co_rank self + view_rank self; n_views self] true.

(** The (view, mode) pairs in the order the loops over
    [enumerate(self.view_list)] and [set(modes)] meet them. *)
Definition view_pairs (self : SFMCore) : list (Z * Z) :=
  concat (map (fun im => map (fun m => (fst im + 1, m)) (py_set (snd im)))
              (enumerate (view_list self))).

(** A table of [n_views + 1] rows and [n_modes] columns, by its entries. *)
Definition table {A} (self : SFMCore) (f : Z -> Z -> A) : list (list A) :=
  map (fun v => map (f v) (range (n_modes self))) (range (n_views self + 1)).

(** The tables once the modes and the pairs of [done] have been gone
    through, and the warnings printed by then. *)
Definition W_after (self : SFMCore) (done : list Z) : list (list (option variable)) :=
  table self (fun v k => if decide (v = 0 /\ k ∈ done) then Some (co_var self k) else None).

Definition S_after (self : SFMCore) (done : list Z) : list (option variable) :=
  map (fun k => if decide (k ∈ done) then Some (scale_var self k) else None)
      (range (n_modes self)).

Definition Bias_after (self : SFMCore) (done : list (Z * Z)) : list (list (option variable)) :=
  table self (fun v k => if decide ((v, k + 1) ∈ done) then Some (bias_var self v (k + 1)) else None).

Definition warnings (self : SFMCore) (done : list (Z * Z)) : list string :=
  if decide (view_rank self > 0) then map (fun vm => mode_shared_msg (snd vm) (fst vm)) done
  else [].

(** The character [c] occurs in [s]. *)
Fixpoint occurs (c : ascii) (s : string) : Prop :=
  match s with
  | EmptyString => False
  | String a s' => a = c \/ occurs c s'
  end.

(** The variable store holds no other names than [names]. *)
Definition keys_in (names : list string) (h : heap) : Prop :=
  forall key, is_Some (tf_variables h !! key) -> key ∈ names.

Definition co_names (done : list Z) : list string :=
  concat (map (fun m => [scoped (co_mode_scope m) "embedding_init";
                         scoped (co_mode_scope m) "layer_norm_S"]) done).

Definition bias_names (done : list (Z * Z)) : list string :=
  map (fun vm => scoped (view_mode_scope (fst vm) (snd vm)) "bias") done.

Definition names_after (co_done : list Z) (pairs_done : list (Z * Z)) : list string :=
  ("embedding_phi" :: co_names co_done ++ bias_names pairs_done)%list.

(** The state of the build in the course of [_init_learnable_params]. *)
Record params_state (self : SFMCore) (co_done : list Z) (pairs_done : list (Z * Z))
    (h0 h : heap) : Prop := {
  ps_W : W h = W_after self co_done;
  ps_Bias : Bias h = Bias_after self pairs_done;
  ps_S : layer_norm_S h = S_after self co_done;
  ps_Phi : Phi h = Some (phi_var self);
  ps_b : b h = Some (Var "b" [] true);
  ps_reg : regularization h = regularization h0;
  ps_out : stdout h = (stdout h0 ++ warnings self pairs_done)%list;
  ps_keys : keys_in (names_after co_done pairs_done) h
}.

(** ** The terms of the regularization *)

(** The configured norm of a dense tensor. *)
Definition norm (self : SFMCore) (m : matrix) : float32 :=
  if decide (reg_type self = "L1") then fsum (map fabs (entries m))
  else fdiv (fsum (map (fun x => fmul x x) (entries m))) f2.

(** The contents of the tensor in a slot, and that there is one. *)
Definition slot_value (rho : valuation) (t : list (list (option variable))) (v m : Z) : matrix :=
  match getitem2 t v m with
  | Ok (Some x) => rho (var_name x)
  | _ => []
  end.

Definition slot_filled (t : list (list (option variable))) (v m : Z) : Prop :=
  exists x, getitem2 t v m = Ok (Some x).

(** The norms a (view, mode) pair adds, and all of them in the order they are
    added. *)
Definition pair_terms (self : SFMCore) (rho : valuation) (h : heap) (vm : Z * Z) : list float32 :=
  (norm self (slot_value rho (Bias h) (fst vm) (snd vm - 1)) ::
   if decide (view_rank self > 0)
   then [norm self (slot_value rho (W h) (fst vm) (snd vm - 1))] else [])%list.

Definition regular_terms (self : SFMCore) (rho : valuation) (h : heap) : list float32 :=
  (map (fun m => norm self (slot_value rho (W h) 0 m)) (range (n_modes self)) ++
   concat (map (pair_terms self rho h) (view_pairs self)) ++
   [norm self (from_option (fun p => rho (var_name p)) [] (Phi h))])%list.

(** Every table the accumulator reads exists. *)
Definition slots_populated (self : SFMCore) (h : heap) : Prop :=
  (forall m, m ∈ range (n_modes self) -> slot_filled (W h) 0 m) /\
  (forall v m, (v, m) ∈ view_pairs self ->
     slot_filled (Bias h) v (m - 1) /\
     (view_rank self > 0 -> slot_filled (W h) v (m - 1))) /\
  is_Some (Phi h).

(** ** The factors of a view's product *)

(** The factor mode [m] contributes to the product of view [v]: its embedding
    (shared, or shared and view-specific side by side) plus the bias. *)
Definition view_mode_factor (self : SFMCore) (rho : valuation) (ph : placeholders)
    (h : heap) (cache : gmap Z matrix) (v m : Z) : result matrix :=
  rbind (if decide (view_rank self > 0) then
           rbind (_view_mode_embedding self rho ph h v (m - 1)) (fun XW =>
           rbind (dict_getitem cache (m - 1)) (fun XW0 => Ok (tf.concat_1 XW0 XW)))
         else dict_getitem cache (m - 1)) (fun e =>
  rbind (getitem2 (Bias h) v (m - 1)) (fun bias =>
  tf.add (Dense e) (tensor_of rho bias))).

(** The distinct modes of a view, in the order of their slots. *)
Definition view_slots (self : SFMCore) (modes : list Z) : list Z :=
  filter (fun m => m ∈ modes) (map (fun k => k + 1) (range (n_modes self))).

(** The value of the factor of mode [m], and the list of slots once the
    modes of [done] have been gone through. *)
Definition factor_value (self : SFMCore) (rho : valuation) (ph : placeholders)
    (h : heap) (cache : gmap Z matrix) (v m : Z) : matrix :=
  match view_mode_factor self rho ph h cache v m with
  | Ok s => s
  | Raise _ => []
  end.

Definition XW_list_after (self : SFMCore) (rho : valuation) (ph : placeholders)
    (h : heap) (cache : gmap Z matrix) (v : Z) (done : list Z) : list (option matrix) :=
  map (fun k => if decide (k + 1 ∈ done)
                then Some (factor_value self rho ph h cache v (k + 1)) else None)
      (range (n_modes self)).

(** ** Concrete models *)

(** A single mode in a single view, no view-specific factors, dense input. *)
Definition single_mode_model : SFMCore :=
  {| view_list := [[1]]; co_rank := 1; view_rank := 0; input_type := "dense";
     loss_function := fun out _ => out; reg_type := "L2"; reg := f1;
     init_scaling := f2; n_modes := 1; n_views := 1; n_feature_list := None;
     mode_matrices_attr := None;
     isRelational := false; isFullOrder := true |}.

(** The same after [set_num_features([1])]. *)
Definition single_mode_built : SFMCore := set_num_features single_mode_model [1].

Definition single_mode_feed : feed_dict :=
  {| feed_X := fun _ => [[of_Z 3]; [of_Z 5]];
     feed_X_indices := fun _ => []; feed_X_matrix := fun _ => [];
     feed_raw_indices := fun _ => []; feed_raw_values := fun _ => [];
     feed_raw_shape := fun _ => (0, 0); feed_Y := [f0; f0] |}.

(** The view bias has been trained to [1]; the global bias holds its initial
    [0]; every other variable holds [2]. *)
Definition single_mode_valuation : valuation :=
  fun name =>
    if decide (name = "view_1_mode_1/bias") then [[of_Z 1]]
    else if decide (name = "b") then [[f0]]
    else [[of_Z 2]].

(** The single-mode model with a loss that is not a number. *)
Definition nan_loss_model : SFMCore :=
  {| view_list := [[1]]; co_rank := 1; view_rank := 0; input_type := "dense";
     loss_function := fun _ _ => [[NaN]]; reg_type := "L2"; reg := f1;
     init_scaling := f2; n_modes := 1; n_views := 1; n_feature_list := Some [1];
     mode_matrices_attr := None;
     isRelational := false; isFullOrder := true |}.

(** Two views that share mode 1, with view-specific factors. *)
Definition two_view_model : SFMCore :=
  {| view_list := [[1; 2]; [1; 3]]; co_rank := 2; view_rank := 1; input_type := "dense";
     loss_function := fun out _ => out; reg_type := "L2"; reg := f1;
     init_scaling := f2; n_modes := 3; n_views := 2; n_feature_list := Some [3; 4; 5];
     mode_matrices_attr := None;
     isRelational := false; isFullOrder := true |}.



(** One view whose tuple lists mode 1 twice. *)
Definition dup_model : SFMCore :=
  {| view_list := [[1; 1; 2]]; co_rank := 1; view_rank := 0; input_type := "dense";
     loss_function := fun out _ => out; reg_type := "L2"; reg := f1;
     init_scaling := f2; n_modes := 2; n_views := 1; n_feature_list := Some [1; 1];
     mode_matrices_attr := None;
     isRelational := false; isFullOrder := true |}.

(** ** What the specification states, where the code differs *)

(** The value of the scalar [self.b]. *)
Definition global_bias (rho : valuation) (h : heap) : float32 :=
  match b h with
  | Some x => match rho (var_name x) with [[y]] => y | _ => f0 end
  | None => f0
  end.

(** [matmul(ModeEmbedding(mode), Phi[:,0])] summed with the global bias. *)
Definition claimed_single_mode_output (self : SFMCore) (rho : valuation)
    (ph : placeholders) (h : heap) : result matrix :=
  rbind (_view_mode_embedding self rho ph h 0 0) (fun E0 =>
  rbind (phi_column_matrix rho h 0) (fun phi =>
  rbind (tf.matmul (Dense E0) (Dense phi)) (fun p =>
  Ok (map (map (fun x => fadd x (global_bias rho h))) p)))).

(** The outputs of a build, as built and as stated. *)
Definition built_outputs (r : result built * heap) : result matrix :=
  rbind (fst r) (fun g => Ok (outputs (built_forward g))).

Definition built_claimed_outputs (self : SFMCore) (rho : valuation)
    (r : result built * heap) : result matrix :=
  rbind (fst r) (fun g => claimed_single_mode_output self rho (built_inputs g) (snd r)).

(** For [(1,2),(1,3)]: a table of mode 1 that view 1 created and view 2
    reuses. *)
Definition claimed_sharing (h : heap) : Prop :=
  exists t, getitem2 (W h) 1 0 = Ok (Some t) /\ getitem2 (W h) 2 0 = Ok (Some t).

(** The terms of the regularization with the norm of every column of [Phi]
    among them. *)
Definition claimed_regular_terms (self : SFMCore) (rho : valuation) (h : heap)
    : list float32 :=
  let phi := from_option (fun p => rho (var_name p)) [] (Phi h) in
  (map (fun m => norm self (slot_value rho (W h) 0 m)) (range (n_modes self)) ++
   concat (map (pair_terms self rho h) (view_pairs self)) ++
   map (fun v => norm self [column (Z.to_nat v) phi]) (range (n_views self)) ++
   [norm self phi])%list.



(** ** Scalars that are not negative *)

(** Not negative: a finite scalar that is at least [0], or one of the specials
    a sum of such scalars can end in. *)
Definition nonneg (x : float32) : Prop :=
  match x with
  | Fin q => (0 <= q)%Qc
  | NInf => False
  | PInf | NaN => True
  end.

(** ** The input tensors, by kind of input *)

(** The placeholders of mode [i] for an input that is not dense. *)
Definition sparse_input (fd : feed_dict) (i : Z) : pyobj :=
  SparseTensor (feed_raw_indices fd i) (feed_raw_values fd i) (feed_raw_shape fd i).

(** The tensor [train_x[i]] of an input that is not relational. *)
Definition plain_input (self : SFMCore) (fd : feed_dict) (i : Z) : pyobj :=
  if decide (input_type self = "dense") then Dense (feed_X fd i) else sparse_input fd i.

(** The tensor [mode_matrices[i]] of a relational input. *)
Definition mode_matrix (self : SFMCore) (fd : feed_dict) (i : Z) : pyobj :=
  if decide (input_type self = "dense") then Dense (feed_X_matrix fd i)
  else sparse_input fd i.

(** ** The blocks of a build *)

(** What [build_graph] runs once the parameters are there. *)
Definition build_blocks (self : SFMCore) (rho : valuation) (fd : feed_dict) : M built :=
  let* ph := lift (_init_placeholders self fd) in
  let* fw := _init_main_block self rho ph in
  let* obj := gets (_init_target self fw) in
  ret {| built_inputs := ph; built_forward := fw; built_objective := obj;
         trainer := Minimize (checked_target obj) |}.

(** ** The terms of the regularization, by the names of the variables *)


(** ** Relations between states *)

(** A computation that takes no variable out of the variable store. *)
Definition keeps_store {A} (c : M A) : Prop :=
  forall h, tf_variables h ⊆ tf_variables (snd (c h)).




(** ** More models and feeds *)


(** The single-mode feed with no example in the batch. *)
Definition empty_batch_feed : feed_dict :=
  {| feed_X := fun _ => []; feed_X_indices := fun _ => [];
     feed_X_matrix := fun _ => []; feed_raw_indices := fun _ => [];
     feed_raw_values := fun _ => []; feed_raw_shape := fun _ => (0, 0);
     feed_Y := [] |}.

(** A relational feed: a mode matrix of two rows, and a batch that names the
    rows 1, 0, 1. *)
Definition relational_feed : feed_dict :=
  {| feed_X := fun _ => []; feed_X_indices := fun _ => [1; 0; 1];
     feed_X_matrix := fun _ => [[of_Z 3]; [of_Z 5]];
     feed_raw_indices := fun _ => []; feed_raw_values := fun _ => [];
     feed_raw_shape := fun _ => (0, 0); feed_Y := [f0; f0; f0] |}.

(** The placeholders of the model of two modes, each fed one example. *)
Definition dup_feed : feed_dict :=
  {| feed_X := fun i => if decide (i = 0) then [[of_Z 3]] else [[of_Z 5]];
     feed_X_indices := fun _ => []; feed_X_matrix := fun _ => [];
     feed_raw_indices := fun _ => []; feed_raw_values := fun _ => [];
     feed_raw_shape := fun _ => (0, 0); feed_Y := [f0] |}.

Definition dup_inputs : placeholders :=
  {| train_x := [Dense [[of_Z 3]]; Dense [[of_Z 5]]]; mode_matrices := None;
     train_y := [f0] |}.

(** * Lemmas *)

Ltac by_computation := apply (bool_decide_unpack _); vm_compute; exact I.
Ltac differ_by_computation :=
  apply (proj1 (bool_decide_eq_false _)); vm_compute; reflexivity.

(** ** Arithmetic of the scalars *)

Lemma fadd_0_l (x : float32) : fadd f0 x = x.
Proof.
  destruct x as [q| | |]; simpl; try reflexivity.
  f_equal. ring.
Qed.

Lemma entries_map (f : float32 -> float32) (m : matrix) :
  entries (map (map f) m) = map f (entries m).
Proof.
  unfold entries. induction m as [|row m IH]; simpl; [reflexivity|].
  rewrite IH, map_app. reflexivity.
Qed.

Lemma zero_plus_id (t : matrix) : zero_plus t = t.
Proof.
  unfold zero_plus. induction t as [|row t IH]; cbn [map]; [reflexivity|].
  rewrite IH. f_equal.
  induction row as [|x row IHrow]; cbn [map]; [reflexivity|].
  rewrite fadd_0_l, IHrow. reflexivity.
Qed.

Lemma fsum_snoc (l : list float32) (x : float32) : fsum (l ++ [x]) = fadd (fsum l) x.
Proof. unfold fsum. rewrite fold_left_app. reflexivity. Qed.

(** ** Inversion of the monadic binds *)

Lemma bind_Ok {A B} (c : M A) (k : A -> M B) (h h' : heap) (y : B) :
  bind c k h = (Ok y, h') ->
  exists a h1, c h = (Ok a, h1) /\ k a h1 = (Ok y, h').
Proof.
  unfold bind. destruct (c h) as [[a|e] h1]; intros H; [eauto|discriminate].
Qed.

Lemma rbind_Ok {A B} (r : result A) (k : A -> result B) (y : B) :
  rbind r k = Ok y -> exists a, r = Ok a /\ k a = Ok y.
Proof. destruct r as [a|e]; simpl; intros H; [eauto|discriminate]. Qed.

Lemma mapM_lookup {A B} (f : A -> result B) (l : list A) (ys : list B) :
  mapM f l = Ok ys ->
  length ys = length l /\
  forall (i : nat) (y : B), ys !! i = Some y -> exists x, l !! i = Some x /\ f x = Ok y.
Proof.
  revert ys. induction l as [|x l IH]; intros ys; simpl.
  - intros [= <-]. split; [reflexivity|]. intros i y Hy. discriminate.
  - intros H. apply rbind_Ok in H as (y0 & Hx & H).
    apply rbind_Ok in H as (ys0 & Hl & [= <-]).
    destruct (IH ys0 Hl) as [Hlen Hlook]. split; [simpl; lia|].
    intros [|i] y Hy; simpl in *.
    + injection Hy as <-. eauto.
    + apply Hlook. exact Hy.
Qed.

Lemma mapM_values {A B} (f : A -> result B) (g : A -> B) (l : list A) :
  (forall x, x ∈ l -> f x = Ok (g x)) -> mapM f l = Ok (map g l).
Proof.
  induction l as [|x l IH]; intros H; [reflexivity|].
  cbn [mapM map]. rewrite H by (apply elem_of_cons; auto). cbn [rbind].
  rewrite IH; [reflexivity|]. intros y Hy. apply H. apply elem_of_cons. auto.
Qed.

(** ** Loops *)

Lemma for_app {A} (l1 l2 : list A) (body : A -> M unit) (h : heap) :
  for_ (l1 ++ l2)%list body h = (for_ l1 body ;; for_ l2 body) h.
Proof.
  revert h. induction l1 as [|x l1 IH]; intros h; simpl.
  - reflexivity.
  - unfold bind in *. destruct (body x h) as [[[]|e] h1]; [|reflexivity].
    rewrite IH. reflexivity.
Qed.

Lemma for_map {A B} (f : A -> B) (l : list A) (body : B -> M unit) (h : heap) :
  for_ (map f l) body h = for_ l (fun x => body (f x)) h.
Proof.
  revert h. induction l as [|x l IH]; intros h; simpl; [reflexivity|].
  unfold bind. destruct (body (f x) h) as [[[]|e] h1]; [apply IH|reflexivity].
Qed.

Lemma for_concat {A B} (l : list A) (g : A -> list B) (body : B -> M unit) (h : heap) :
  for_ l (fun x => for_ (g x) body) h = for_ (concat (map g l)) body h.
Proof.
  revert h. induction l as [|x l IH]; intros h; simpl; [reflexivity|].
  rewrite for_app. unfold bind. destruct (for_ (g x) body h) as [[[]|e] h1]; [apply IH|reflexivity].
Qed.

Lemma for_prefix_inv {A} (I : list A -> heap -> Prop) (l : list A) (body : A -> M unit) :
  (forall pre x post h, l = (pre ++ x :: post)%list -> I pre h ->
     exists h', body x h = (Ok tt, h') /\ I (pre ++ [x])%list h') ->
  forall h, I [] h -> exists h', for_ l body h = (Ok tt, h') /\ I l h'.
Proof.
  intros Hstep.
  assert (G : forall post pre h, l = (pre ++ post)%list -> I pre h ->
            exists h', for_ post body h = (Ok tt, h') /\ I l h').
  { induction post as [|x post IH]; intros pre h Hl HI.
    - rewrite app_nil_r in Hl. subst pre. exists h. split; [reflexivity|exact HI].
    - destruct (Hstep pre x post h Hl HI) as (h1 & Hb & HI1).
      destruct (IH (pre ++ [x])%list h1) as (h' & Hf & HI'); [|exact HI1|].
      { rewrite <- app_assoc. exact Hl. }
      exists h'. split; [|exact HI']. simpl. unfold bind. rewrite Hb. exact Hf. }
  intros h HI. exact (G l [] h eq_refl HI).
Qed.

Lemma foldM_prefix_inv {A B} (I : list A -> B -> heap -> Prop) (l : list A)
    (f : B -> A -> M B) :
  (forall pre x post acc h, l = (pre ++ x :: post)%list -> I pre acc h ->
     exists acc' h', f acc x h = (Ok acc', h') /\ I (pre ++ [x])%list acc' h') ->
  forall acc h, I [] acc h ->
  exists acc' h', foldM f l acc h = (Ok acc', h') /\ I l acc' h'.
Proof.
  intros Hstep.
  assert (G : forall post pre acc h, l = (pre ++ post)%list -> I pre acc h ->
            exists acc' h', foldM f post acc h = (Ok acc', h') /\ I l acc' h').
  { induction post as [|x post IH]; intros pre acc h Hl HI.
    - rewrite app_nil_r in Hl. subst pre. exists acc, h. split; [reflexivity|exact HI].
    - destruct (Hstep pre x post acc h Hl HI) as (acc1 & h1 & Hb & HI1).
      destruct (IH (pre ++ [x])%list acc1 h1) as (acc' & h' & Hf & HI'); [|exact HI1|].
      { rewrite <- app_assoc. exact Hl. }
      exists acc', h'. split; [|exact HI']. simpl. unfold bind. rewrite Hb. exact Hf. }
  intros acc h HI. exact (G l [] acc h eq_refl HI).
Qed.

Lemma foldM_app {A B} (f : B -> A -> M B) (l1 l2 : list A) (acc : B) (h : heap) :
  foldM f (l1 ++ l2)%list acc h = (let* acc' := foldM f l1 acc in foldM f l2 acc') h.
Proof.
  revert acc h. induction l1 as [|x l1 IH]; intros acc h; simpl; [reflexivity|].
  unfold bind in *. destruct (f acc x h) as [[acc1|e] h1]; [apply IH|reflexivity].
Qed.

Lemma foldM_map {A B C} (g : A -> C) (f : B -> C -> M B) (l : list A) (acc : B) (h : heap) :
  foldM f (map g l) acc h = foldM (fun a x => f a (g x)) l acc h.
Proof.
  revert acc h. induction l as [|x l IH]; intros acc h; simpl; [reflexivity|].
  unfold bind. destruct (f acc (g x) h) as [[acc1|e] h1]; [apply IH|reflexivity].
Qed.

Lemma prefix_fresh {A} (l pre post : list A) (x : A) :
  NoDup l -> l = (pre ++ x :: post)%list -> x ∈ l /\ x ∉ pre.
Proof.
  intros Hnd ->. split.
  - apply elem_of_app. right. apply elem_of_cons. auto.
  - apply list.NoDup_app in Hnd as (_ & Hdisj & _). intros Hin.
    apply (Hdisj x Hin). apply elem_of_cons. auto.
Qed.

(** ** Python lists and tables *)

(** Python indexing *)
Lemma py_index_nat {A} (l : list A) (k : nat) :
  (k < length l)%nat -> py_index l (Z.of_nat k) = Some k.
Proof.
  intros Hk. unfold py_index. rewrite decide_True by lia. rewrite Nat2Z.id. reflexivity.
Qed.

Lemma py_getitem_nat {A} (l : list A) (k : nat) (x : A) :
  l !! k = Some x -> py_getitem l (Z.of_nat k) = Ok x.
Proof.
  intros Hx. unfold py_getitem. rewrite py_index_nat by (eapply lookup_lt_Some; eauto).
  rewrite Hx. reflexivity.
Qed.

Lemma py_setitem_nat {A} (l : list A) (k : nat) (x : A) :
  (k < length l)%nat -> py_setitem l (Z.of_nat k) x = Ok (<[k := x]> l).
Proof. intros Hk. unfold py_setitem. rewrite py_index_nat by exact Hk. reflexivity. Qed.

Lemma range_lookup (n : Z) (k : nat) :
  range n !! k = if decide (k < Z.to_nat n)%nat then Some (Z.of_nat k) else None.
Proof.
  unfold range. rewrite list_lookup_fmap. case_decide as Hk.
  - rewrite lookup_seq_lt by exact Hk. reflexivity.
  - rewrite lookup_seq_ge by lia. reflexivity.
Qed.

Lemma range_length (n : Z) : length (range n) = Z.to_nat n.
Proof. unfold range. rewrite length_map, length_seq. reflexivity. Qed.

Lemma range_elem (n m : Z) : m ∈ range n <-> 0 <= m < n.
Proof.
  unfold range. rewrite list_elem_of_fmap. split.
  - intros (j & -> & Hj). apply elem_of_seq in Hj. lia.
  - intros Hm. exists (Z.to_nat m). split; [lia|]. apply elem_of_seq. lia.
Qed.

Lemma range_NoDup (n : Z) : NoDup (range n).
Proof.
  unfold range. apply NoDup_fmap_2; [intros x y; lia|]. apply NoDup_seq.
Qed.

Lemma map_range_ext {A} (f g : Z -> A) (n : Z) :
  (forall j : nat, (j < Z.to_nat n)%nat -> g (Z.of_nat j) = f (Z.of_nat j)) ->
  map g (range n) = map f (range n).
Proof.
  intros H. unfold range. rewrite !map_map. apply map_ext_in. intros j Hj.
  apply in_seq in Hj. apply H. lia.
Qed.

Lemma tabulate_insert {A} (f g : Z -> A) (n : Z) (k : nat) :
  (forall j : nat, (j < Z.to_nat n)%nat -> j <> k -> g (Z.of_nat j) = f (Z.of_nat j)) ->
  <[k := g (Z.of_nat k)]> (map f (range n)) = map g (range n).
Proof.
  intros Hfg. apply list_eq. intros j.
  destruct (decide (j = k)) as [->|Hjk].
  - destruct (decide (k < Z.to_nat n)%nat) as [Hk|Hk].
    + rewrite list_lookup_insert_eq by (rewrite length_map, range_length; exact Hk).
      rewrite list_lookup_fmap, range_lookup, decide_True by exact Hk. reflexivity.
    + rewrite list_insert_ge by (rewrite length_map, range_length; lia).
      rewrite !list_lookup_fmap, range_lookup, decide_False by exact Hk. reflexivity.
  - rewrite list_lookup_insert_ne by congruence.
    rewrite !list_lookup_fmap, range_lookup. case_decide; simpl; [|reflexivity].
    rewrite Hfg by assumption. reflexivity.
Qed.

Lemma setitem2_tabulate {A} (f g : Z -> Z -> A) (nv nm : Z) (v k : nat) :
  (v < Z.to_nat nv)%nat -> (k < Z.to_nat nm)%nat ->
  (forall v' k' : nat, (v' < Z.to_nat nv)%nat -> (k' < Z.to_nat nm)%nat -> (v', k') <> (v, k) ->
     g (Z.of_nat v') (Z.of_nat k') = f (Z.of_nat v') (Z.of_nat k')) ->
  setitem2 (map (fun v => map (f v) (range nm)) (range nv)) (Z.of_nat v) (Z.of_nat k)
           (g (Z.of_nat v) (Z.of_nat k)) =
  Ok (map (fun v => map (g v) (range nm)) (range nv)).
Proof.
  intros Hv Hk Hfg. unfold setitem2.
  rewrite (py_getitem_nat _ v (map (f (Z.of_nat v)) (range nm))).
  2:{ rewrite list_lookup_fmap, range_lookup, decide_True by exact Hv. reflexivity. }
  simpl. rewrite py_setitem_nat by (rewrite length_map, range_length; exact Hk).
  simpl. rewrite py_setitem_nat by (rewrite length_map, range_length; exact Hv).
  f_equal.
  rewrite (tabulate_insert (f (Z.of_nat v)) (g (Z.of_nat v))).
  2:{ intros j Hj Hne. apply Hfg; [exact Hv|exact Hj|congruence]. }
  apply (tabulate_insert (fun v => map (f v) (range nm)) (fun v => map (g v) (range nm))).
  intros j Hj Hne. apply map_range_ext. intros a Ha. apply Hfg; [exact Hj|exact Ha|congruence].
Qed.

Lemma py_setitem_tabulate {A} (f g : Z -> A) (n k : Z) (x : A) :
  0 <= k < n -> g k = x ->
  (forall k', 0 <= k' < n -> k' <> k -> g k' = f k') ->
  py_setitem (map f (range n)) k x = Ok (map g (range n)).
Proof.
  intros Hk <- Hfg. rewrite <- (Z2Nat.id k) by lia.
  rewrite py_setitem_nat by (rewrite length_map, range_length; lia).
  f_equal. apply tabulate_insert. intros j Hj Hne. apply Hfg; lia.
Qed.

Lemma py_repeat_range {A} (x : A) (n : Z) : py_repeat x n = map (fun _ => x) (range n).
Proof.
  unfold py_repeat, range. rewrite map_map. generalize 0%nat.
  induction (Z.to_nat n) as [|k IH]; intros s; simpl; [reflexivity|].
  f_equal. apply IH.
Qed.

Lemma setitem2_table {A} (self : SFMCore) (f g : Z -> Z -> A) (v k : Z) (x : A) :
  0 <= v < n_views self + 1 -> 0 <= k < n_modes self ->
  g v k = x ->
  (forall v' k', 0 <= v' < n_views self + 1 -> 0 <= k' < n_modes self ->
     (v', k') <> (v, k) -> g v' k' = f v' k') ->
  setitem2 (table self f) v k x = Ok (table self g).
Proof.
  intros Hv Hk <- Hfg. unfold table.
  rewrite <- (Z2Nat.id v), <- (Z2Nat.id k) by lia.
  apply setitem2_tabulate; [lia|lia|].
  intros v' k' Hv' Hk' Hne. apply Hfg; [lia|lia|].
  intros [= H1 H2]. apply Hne. f_equal; lia.
Qed.

Lemma getitem2_table {A} (self : SFMCore) (f : Z -> Z -> A) (v k : Z) :
  0 <= v < n_views self + 1 -> 0 <= k < n_modes self ->
  getitem2 (table self f) v k = Ok (f v k).
Proof.
  intros Hv Hk. unfold getitem2, table.
  rewrite <- (Z2Nat.id v) at 1 by lia.
  rewrite (py_getitem_nat _ _ (map (f v) (range (n_modes self)))).
  2:{ rewrite list_lookup_fmap, range_lookup, decide_True by lia.
      simpl. rewrite Z2Nat.id by lia. reflexivity. }
  cbn [rbind]. rewrite <- (Z2Nat.id k) at 1 by lia.
  apply py_getitem_nat.
  rewrite list_lookup_fmap, range_lookup, decide_True by lia.
  simpl. rewrite Z2Nat.id by lia. reflexivity.
Qed.

Lemma enumerate_elem {A} (l : list A) (i : Z) (x : A) :
  (i, x) ∈ enumerate l <-> exists k : nat, i = Z.of_nat k /\ l !! k = Some x.
Proof.
  unfold enumerate. rewrite list_elem_of_lookup. split.
  - intros (k & Hk). rewrite lookup_zip_with in Hk.
    rewrite list_lookup_fmap in Hk.
    destruct (seq 0 (length l) !! k) as [j|] eqn:Hj; simpl in Hk; [|discriminate].
    destruct (l !! k) as [y|] eqn:Hy; simpl in Hk; [|discriminate].
    injection Hk as <- <-. apply lookup_seq in Hj as [-> _]. eauto.
  - intros (k & -> & Hk). exists k. rewrite lookup_zip_with.
    rewrite list_lookup_fmap, lookup_seq_lt by (eapply lookup_lt_Some; eauto).
    simpl. rewrite Hk. reflexivity.
Qed.

Lemma enumerate_lookup {A} (l : list A) (i : nat) (j : Z) (x : A) :
  enumerate l !! i = Some (j, x) -> j = Z.of_nat i /\ l !! i = Some x.
Proof.
  unfold enumerate. rewrite lookup_zip_with, list_lookup_fmap. intros H.
  destruct (seq 0 (length l) !! i) as [k|] eqn:Hk; simpl in H; [|discriminate].
  destruct (l !! i) as [y|] eqn:Hy; simpl in H; [|discriminate].
  injection H as <- <-. apply lookup_seq in Hk as [-> _]. auto.
Qed.

Lemma enumerate_length {A} (l : list A) : length (enumerate l) = length l.
Proof.
  unfold enumerate. rewrite length_zip_with, length_map, length_seq. lia.
Qed.

Lemma elem_of_concat {A} (x : A) (ls : list (list A)) :
  x ∈ concat ls <-> exists l, x ∈ l /\ l ∈ ls.
Proof.
  rewrite list_elem_of_In, in_concat. split.
  - intros (l & Hl & Hx). exists l. rewrite !list_elem_of_In. auto.
  - intros (l & Hx & Hl). exists l. rewrite <- !list_elem_of_In. auto.
Qed.

(** ** The names of the variables *)

(** Two variables of the model never carry one name: the scopes spell the view
    and the mode in decimal, between separators no numeral contains. *)

Lemma occurs_app (c : ascii) (s t : string) :
  occurs c (s ++ t) <-> occurs c s \/ occurs c t.
Proof. induction s as [|a s IH]; simpl; [tauto|]. rewrite IH. tauto. Qed.

Lemma split_at_char (c : ascii) (a a' x x' : string) :
  ~ occurs c a -> ~ occurs c a' ->
  a ++ String c x = a' ++ String c x' -> a = a' /\ x = x'.
Proof.
  revert a'. induction a as [|d a IH]; intros [|d' a'] Ha Ha'; simpl in *.
  - intros [= ->]. auto.
  - intros [= <- _]. tauto.
  - intros [= -> _]. tauto.
  - intros [= -> H]. destruct (IH a') as [-> ->]; auto.
Qed.

Section Numerals.

Variable c : ascii.
Hypothesis no_digit : forall d : N, pretty_N_char d <> c.
Hypothesis no_sign : c <> "-"%char.

Lemma pretty_N_go_avoids (x : N) (s : string) :
  ~ occurs c s -> ~ occurs c (pretty_N_go x s).
Proof.
  revert s. induction (N.lt_wf_0 x) as [x _ IH]; intros s Hs.
  destruct (decide (x = 0%N)) as [->|Hx].
  - rewrite pretty_N_go_0. exact Hs.
  - rewrite pretty_N_go_step by lia. apply IH.
    + apply N.div_lt; lia.
    + simpl. intros [Hd|Hd]; [exact (no_digit _ Hd)|tauto].
Qed.

Lemma str_avoids (z : Z) : ~ occurs c (str z).
Proof.
  assert (H0 : c <> "0"%char) by (intros ->; exact (no_digit 0%N eq_refl)).
  assert (HN : forall n : N, ~ occurs c (pretty n)).
  { intros n. unfold pretty, pretty_N. case_decide.
    - simpl. intros [Hd|[]]. congruence.
    - apply pretty_N_go_avoids. simpl. tauto. }
  unfold str, pretty, pretty_Z. destruct z as [|p|p].
  - simpl. intros [Hd|[]]. congruence.
  - apply (HN (N.pos p)).
  - simpl. intros [Hd|Hd]; [congruence|]. exact (HN (N.pos p) Hd).
Qed.

End Numerals.

Lemma digit_not_underscore (d : N) : pretty_N_char d <> "_"%char.
Proof. unfold pretty_N_char. repeat case_match; discriminate. Qed.

Lemma digit_not_slash (d : N) : pretty_N_char d <> "/"%char.
Proof. unfold pretty_N_char. repeat case_match; discriminate. Qed.

Lemma str_no_underscore (z : Z) : ~ occurs "_" (str z).
Proof. apply str_avoids; [exact digit_not_underscore|discriminate]. Qed.

Lemma str_no_slash (z : Z) : ~ occurs "/" (str z).
Proof. apply str_avoids; [exact digit_not_slash|discriminate]. Qed.

Lemma view_mode_scope_inj (v m v' m' : Z) :
  view_mode_scope v m = view_mode_scope v' m' -> v = v' /\ m = m'.
Proof.
  unfold view_mode_scope. simpl. intros [= H].
  apply split_at_char in H as [Hv H]; try apply str_no_underscore.
  simpl in H. injection H as H.
  split; [exact (pretty_Z_inj _ _ Hv) | exact (pretty_Z_inj _ _ H)].
Qed.

Lemma co_mode_scope_inj (m m' : Z) : co_mode_scope m = co_mode_scope m' -> m = m'.
Proof.
  unfold co_mode_scope. simpl. intros [= H].
  apply pretty_Z_inj in H. lia.
Qed.

Lemma view_mode_scope_no_slash (v m : Z) : ~ occurs "/" (view_mode_scope v m).
Proof.
  unfold view_mode_scope. rewrite !occurs_app.
  pose proof (str_no_slash v). pose proof (str_no_slash m).
  simpl. intros [H1|[H1|[H1|H1]]]; try tauto;
    repeat (destruct H1 as [H1|H1]; [discriminate|]); exact H1.
Qed.

Lemma co_mode_scope_no_slash (m : Z) : ~ occurs "/" (co_mode_scope m).
Proof.
  unfold co_mode_scope. rewrite !occurs_app.
  pose proof (str_no_slash (m + 1)).
  simpl. intros [H1|H1]; try tauto;
    repeat (destruct H1 as [H1|H1]; [discriminate|]); exact H1.
Qed.

Create HintDb scopes.
#[local] Hint Resolve view_mode_scope_no_slash co_mode_scope_no_slash : scopes.

Lemma scoped_inj (s s' n n' : string) :
  ~ occurs "/" s -> ~ occurs "/" s' ->
  scoped s n = scoped s' n' -> s = s' /\ n = n'.
Proof. unfold scoped. simpl. apply split_at_char. Qed.

Lemma view_scope_not_co_scope (v m m' : Z) : view_mode_scope v m <> co_mode_scope m'.
Proof. unfold view_mode_scope, co_mode_scope. simpl. discriminate. Qed.

Lemma scoped_view_not_phi (v m : Z) (n : string) :
  scoped (view_mode_scope v m) n <> "embedding_phi".
Proof. unfold scoped, view_mode_scope. simpl. discriminate. Qed.

Lemma scoped_co_not_phi (m : Z) (n : string) :
  scoped (co_mode_scope m) n <> "embedding_phi".
Proof. unfold scoped, co_mode_scope. simpl. discriminate. Qed.

Lemma embedding_name_not_bias (v m v' m' : Z) :
  scoped (view_mode_scope v m) "embedding_init" <> scoped (view_mode_scope v' m') "bias".
Proof.
  intros H. apply scoped_inj in H as [_ H]; auto with scopes.
  discriminate.
Qed.

(** ** The pairs of a view specification *)

Lemma py_set_elem (modes : list Z) (m : Z) : m ∈ py_set modes <-> m ∈ modes.
Proof.
  unfold py_set. rewrite merge_sort_Permutation. apply elem_of_remove_dups.
Qed.

Lemma py_set_NoDup (modes : list Z) : NoDup (py_set modes).
Proof.
  unfold py_set. rewrite merge_sort_Permutation. apply NoDup_remove_dups.
Qed.

Lemma py_set_ascending (modes : list Z) : Sorted Z.le (py_set modes).
Proof. unfold py_set. apply Sorted_merge_sort. intros x y. lia. Qed.

Lemma nested_view_loop (self : SFMCore) (body : Z -> Z -> M unit) (h : heap) :
  for_ (enumerate (view_list self)) (fun '(i, modes) =>
    let v := i + 1 in for_ (py_set modes) (fun m => body v m)) h =
  for_ (view_pairs self) (fun vm => body (fst vm) (snd vm)) h.
Proof.
  unfold view_pairs. rewrite <- for_concat.
  generalize (enumerate (view_list self)). intros l. revert h.
  induction l as [|[i modes] l IH]; intros h; simpl; [reflexivity|].
  unfold bind. rewrite for_map. simpl.
  destruct (for_ (py_set modes) _ h) as [[[]|e] h1]; [apply IH|reflexivity].
Qed.

Lemma nested_view_fold {B} (self : SFMCore) (f : Z -> B -> Z -> M B) (acc : B) (h : heap) :
  foldM (fun acc '(i, modes) => foldM (f (i + 1)) (py_set modes) acc)
        (enumerate (view_list self)) acc h =
  foldM (fun acc vm => f (fst vm) acc (snd vm)) (view_pairs self) acc h.
Proof.
  unfold view_pairs. generalize (enumerate (view_list self)). intros l. revert acc h.
  induction l as [|[i modes] l IH]; intros acc h; simpl; [reflexivity|].
  rewrite foldM_app. unfold bind. rewrite foldM_map. simpl.
  destruct (foldM (f (i + 1)) (py_set modes) acc h) as [[acc1|e] h1]; [apply IH|reflexivity].
Qed.

Lemma view_pairs_elem (self : SFMCore) (v m : Z) :
  (v, m) ∈ view_pairs self <->
  exists (k : nat) (modes : list Z),
    view_list self !! k = Some modes /\ v = Z.of_nat k + 1 /\ m ∈ modes.
Proof.
  unfold view_pairs. rewrite elem_of_concat. split.
  - intros (ps & Hin & Hps). apply list_elem_of_fmap in Hps as ([i modes] & -> & Him).
    apply enumerate_elem in Him as (k & -> & Hk). simpl in Hin.
    apply list_elem_of_fmap in Hin as (m' & [= -> ->] & Hm').
    exists k, modes. repeat split; [exact Hk|]. apply py_set_elem. exact Hm'.
  - intros (k & modes & Hk & -> & Hm).
    exists (map (fun m => (Z.of_nat k + 1, m)) (py_set modes)). split.
    + apply list_elem_of_fmap. exists m. split; [reflexivity|].
      apply py_set_elem. exact Hm.
    + apply list_elem_of_fmap. exists (Z.of_nat k, modes). split; [reflexivity|].
      apply enumerate_elem. eauto.
Qed.

Lemma view_pairs_NoDup (self : SFMCore) : NoDup (view_pairs self).
Proof.
  unfold view_pairs, enumerate. generalize (view_list self). intros l.
  generalize 0%nat.
  assert (G : forall (s : nat),
    NoDup (concat (map (fun im : Z * list Z => map (fun m => (fst im + 1, m)) (py_set (snd im)))
                       (zip (map Z.of_nat (seq s (length l))) l))) /\
    forall v m, (v, m) ∈ concat (map (fun im : Z * list Z => map (fun m => (fst im + 1, m)) (py_set (snd im)))
                       (zip (map Z.of_nat (seq s (length l))) l)) -> Z.of_nat s + 1 <= v).
  { induction l as [|modes l IH]; intros s; simpl.
    - split; [constructor|]. intros v m Hin. inversion Hin.
    - destruct (IH (S s)) as [IHnd IHge]. split.
      + apply list.NoDup_app. split; [|split; [|exact IHnd]].
        * apply NoDup_fmap_2; [intros x y [= ->]; reflexivity|].
          apply py_set_NoDup.
        * intros [v m] Hin Hin'. apply list_elem_of_fmap in Hin as (m' & [= -> ->] & _).
          apply IHge in Hin'. lia.
      + intros v m Hin. apply elem_of_app in Hin as [Hin|Hin].
        * apply list_elem_of_fmap in Hin as (m' & [= -> ->] & _). lia.
        * apply IHge in Hin. lia. }
  intros s. apply G.
Qed.

Lemma view_pairs_in_range (self : SFMCore) (v m : Z) :
  well_formed self -> (v, m) ∈ view_pairs self ->
  1 <= v < n_views self + 1 /\ 1 <= m <= n_modes self.
Proof.
  intros (_ & Hnv & Hmodes) Hin.
  apply view_pairs_elem in Hin as (k & modes & Hk & -> & Hm).
  split.
  - apply lookup_lt_Some in Hk. lia.
  - rewrite list.Forall_forall in Hmodes.
    assert (Hmodes' : modes ∈ view_list self) by (apply list_elem_of_lookup; eauto).
    apply Hmodes in Hmodes'. rewrite list.Forall_forall in Hmodes'. apply Hmodes', Hm.
Qed.

(** ** [_init_learnable_params] *)

Lemma get_variable_fresh (name : string) (shape : list Z) (tr : bool)
    (names : list string) (h : heap) :
  keys_in names h -> name ∉ names ->
  tf.get_variable name shape tr h =
  (Ok (Var name shape tr),
   set_tf_variables (<[name := Var name shape tr]> (tf_variables h)) h).
Proof.
  intros Hk Hn. unfold tf.get_variable.
  destruct (tf_variables h !! name) as [x|] eqn:E; [|reflexivity].
  exfalso. apply Hn, Hk. rewrite E. eauto.
Qed.

Lemma keys_in_insert (name : string) (x : variable) (names names' : list string) (h h' : heap) :
  keys_in names h ->
  tf_variables h' = <[name := x]> (tf_variables h) ->
  (forall key, key = name \/ key ∈ names -> key ∈ names') ->
  keys_in names' h'.
Proof.
  intros Hk Hh' Hsub key Hkey. rewrite Hh' in Hkey. apply Hsub.
  destruct (decide (name = key)) as [->|Hne]; [auto|].
  rewrite lookup_insert_ne in Hkey by exact Hne. right. apply Hk, Hkey.
Qed.

Lemma co_names_elem (key : string) (done : list Z) :
  key ∈ co_names done ->
  exists m n, m ∈ done /\ key = scoped (co_mode_scope m) n /\
              (n = "embedding_init" \/ n = "layer_norm_S").
Proof.
  unfold co_names. rewrite elem_of_concat. intros (l & Hkey & Hl).
  apply list_elem_of_fmap in Hl as (m & -> & Hm).
  exists m. apply elem_of_cons in Hkey as [->|Hkey]; [eauto 6|].
  apply elem_of_cons in Hkey as [->|Hkey]; [eauto 6|]. inversion Hkey.
Qed.

Lemma co_names_snoc (done : list Z) (m : Z) :
  co_names (done ++ [m]) =
  (co_names done ++ [scoped (co_mode_scope m) "embedding_init";
                     scoped (co_mode_scope m) "layer_norm_S"])%list.
Proof. unfold co_names. rewrite map_app, concat_app. simpl. reflexivity. Qed.

Lemma co_name_fresh (m : Z) (n : string) (done : list Z) :
  m ∉ done -> scoped (co_mode_scope m) n ∉ names_after done [].
Proof.
  intros Hm Hin. unfold names_after in Hin. simpl in Hin. rewrite app_nil_r in Hin.
  apply elem_of_cons in Hin as [Hphi|Hin].
  - exact (scoped_co_not_phi _ _ Hphi).
  - apply co_names_elem in Hin as (m' & n' & Hm' & Heq & _).
    apply scoped_inj in Heq as [Heq _]; auto with scopes.
    apply co_mode_scope_inj in Heq. subst m'. exact (Hm Hm').
Qed.

Lemma bias_name_fresh (v m : Z) (co_done : list Z) (pre : list (Z * Z)) :
  (v, m) ∉ pre ->
  scoped (view_mode_scope v m) "bias" ∉ names_after co_done pre.
Proof.
  intros Hfresh Hin. unfold names_after in Hin.
  apply elem_of_cons in Hin as [Hphi|Hin]; [exact (scoped_view_not_phi _ _ _ Hphi)|].
  apply elem_of_app in Hin as [Hin|Hin].
  - apply co_names_elem in Hin as (m' & n' & _ & Heq & _).
    apply scoped_inj in Heq as [Heq _]; auto with scopes.
    exact (view_scope_not_co_scope _ _ _ Heq).
  - unfold bias_names in Hin. apply list_elem_of_fmap in Hin as ([v' m'] & Heq & Hin).
    simpl in Heq. apply scoped_inj in Heq as [Heq _]; auto with scopes.
    apply view_mode_scope_inj in Heq as [-> ->]. exact (Hfresh Hin).
Qed.

(** A round of the loop over the modes, for a mode that has a feature
    dimension: the shared table and the scale vector of the mode are
    created. *)
Lemma create_co_mode_round (self : SFMCore) (nfl : list Z) (h0 h : heap)
    (pre : list Z) (m x : Z) :
  n_feature_list self = Some nfl -> nfl !! Z.to_nat m = Some x ->
  0 <= n_views self -> 0 <= m < n_modes self ->
  params_state self pre [] h0 h -> m ∉ pre ->
  exists h', create_co_mode self m h = (Ok tt, h') /\
             params_state self (pre ++ [m]) [] h0 h'.
Proof.
  intros Hnfl Hx Hnv Hm [HW HB HS HP Hb Hr Ho Hk] Hfresh.
  assert (Hdim : feature_dim self m = Ok x).
  { unfold feature_dim. rewrite Hnfl. rewrite <- (Z2Nat.id m) by lia.
    apply py_getitem_nat. exact Hx. }
  unfold create_co_mode, bind, lift, modify. rewrite Hdim.
  rewrite (get_variable_fresh _ _ _ _ h Hk (co_name_fresh m _ pre Hfresh)).
  cbn [W set_tf_variables]. rewrite HW. unfold W_after.
  erewrite (setitem2_table self _
    (fun v k => if decide (v = 0 /\ k ∈ (pre ++ [m])%list) then Some (co_var self k) else None)
    0 m); [|lia|lia| |].
  2:{ rewrite decide_True by (split; [reflexivity|apply elem_of_app; right; apply list_elem_of_singleton; reflexivity]).
      unfold co_var. rewrite Hnfl. simpl. rewrite Hx. reflexivity. }
  2:{ intros v' k' _ _ Hne. destruct (decide (v' = 0 /\ k' ∈ pre)) as [[-> Hin]|Hn].
      - rewrite decide_True; [reflexivity|]. split; [reflexivity|]. apply elem_of_app. auto.
      - rewrite decide_False; [reflexivity|]. intros [-> Hin]. apply elem_of_app in Hin as [Hin|Hin]; [tauto|].
        apply list_elem_of_singleton in Hin. subst k'. congruence.
        }
  set (h1 := set_W _ _).
  assert (Hk1 : keys_in (names_after pre [] ++ [scoped (co_mode_scope m) "embedding_init"])%list h1).
  { eapply keys_in_insert; [exact Hk|reflexivity|].
    intros key [->|Hin]; apply elem_of_app; [right; apply list_elem_of_singleton; reflexivity|auto]. }
  rewrite (get_variable_fresh _ _ _ _ h1 Hk1).
  2:{ intros Hin. apply elem_of_app in Hin as [Hin|Hin].
      - exact (co_name_fresh m _ pre Hfresh Hin).
      - apply list_elem_of_singleton in Hin.
        apply scoped_inj in Hin as [_ Hin]; auto with scopes. discriminate. }
  subst h1. cbn [layer_norm_S set_tf_variables set_W]. rewrite HS. unfold S_after.
  erewrite (py_setitem_tabulate _
    (fun k => if decide (k ∈ (pre ++ [m])%list) then Some (scale_var self k) else None)
    (n_modes self) m); [|lia| |].
  2:{ rewrite decide_True by (apply elem_of_app; right; apply list_elem_of_singleton; reflexivity).
      reflexivity. }
  2:{ intros k' _ Hne. destruct (decide (k' ∈ pre)) as [Hin|Hn].
      - rewrite decide_True; [reflexivity|]. apply elem_of_app. auto.
      - rewrite decide_False; [reflexivity|]. intros Hin. apply elem_of_app in Hin as [Hin|Hin]; [tauto|].
        apply list_elem_of_singleton in Hin. congruence. }
  eexists. split; [reflexivity|].
  constructor; cbn; try assumption; try reflexivity.
  intros key Hkey. cbn in Hkey.
  unfold names_after. rewrite co_names_snoc. simpl. rewrite app_nil_r.
  destruct (decide (key = scoped (co_mode_scope m) "layer_norm_S")) as [->|Hne1].
  { apply elem_of_cons. right. apply elem_of_app. right. apply elem_of_cons. right.
    apply list_elem_of_singleton. reflexivity. }
  rewrite lookup_insert_ne in Hkey by congruence.
  destruct (decide (key = scoped (co_mode_scope m) "embedding_init")) as [->|Hne2].
  { apply elem_of_cons. right. apply elem_of_app. right. apply elem_of_cons. left. reflexivity. }
  rewrite lookup_insert_ne in Hkey by congruence.
  apply Hk in Hkey. unfold names_after in Hkey. simpl in Hkey. rewrite app_nil_r in Hkey.
  apply elem_of_cons in Hkey as [->|Hkey]; [apply elem_of_cons; auto|].
  apply elem_of_cons. right. apply elem_of_app. auto.
Qed.

Section WellFormed.

Context (self : SFMCore).
Hypothesis Hwf : well_formed self.

(** A round of the loop over the modes: the shared table and the scale
    vector of the mode are created. *)
Lemma create_co_mode_step (h0 h : heap) (pre : list Z) (m : Z) :
  params_state self pre [] h0 h ->
  m ∈ range (n_modes self) -> m ∉ pre ->
  exists h', create_co_mode self m h = (Ok tt, h') /\
             params_state self (pre ++ [m]) [] h0 h'.
Proof.
  pose proof Hwf as ((nfl & Hnfl & Hlen) & Hnv & _).
  intros Hps Hm Hfresh. apply range_elem in Hm.
  destruct (lookup_lt_is_Some_2 nfl (Z.to_nat m)) as [x Hx]; [lia|].
  apply (create_co_mode_round self nfl h0 h pre m x); auto; lia.
Qed.

(** The attempt to create a view-specific table: with [view_rank > 0] its
    only effect is the warning. *)
Lemma create_view_embedding_effect (v m : Z) (h : heap) :
  create_view_embedding self v m h =
  (Ok tt, if decide (view_rank self > 0)
          then set_stdout (stdout h ++ [mode_shared_msg m v]) h else h).
Proof.
  unfold create_view_embedding, try_except.
  destruct (decide (view_rank self > 0)); [|reflexivity].
  unfold bind, lift. destruct (feature_dim self (m - 1)) as [nf|e]; reflexivity.
Qed.

(** A round of the loop over the pairs: the bias of the pair is created. *)
Lemma create_view_pair_step (h0 h : heap) (co_done : list Z)
    (pre : list (Z * Z)) (v m : Z) :
  params_state self co_done pre h0 h ->
  (v, m) ∈ view_pairs self -> (v, m) ∉ pre ->
  exists h', (create_view_bias self v m ;; create_view_embedding self v m) h = (Ok tt, h') /\
             params_state self co_done (pre ++ [(v, m)]) h0 h'.
Proof.
  intros [HW HB HS HP Hb Hr Ho Hk] Hin Hfresh.
  destruct (view_pairs_in_range self v m Hwf Hin) as [Hv Hm].
  unfold bind at 1. unfold create_view_bias, try_except, bind, modify.
  rewrite (get_variable_fresh _ _ _ _ h Hk (bias_name_fresh v m co_done pre Hfresh)).
  cbn [Bias set_tf_variables]. rewrite HB. unfold Bias_after.
  erewrite (setitem2_table self _
    (fun v' k => if decide ((v', k + 1) ∈ (pre ++ [(v, m)])%list)
                 then Some (bias_var self v' (k + 1)) else None)
    v (m - 1)); [|lia|lia| |].
  2:{ replace (m - 1 + 1) with m by lia.
      rewrite decide_True by (apply elem_of_app; right; apply list_elem_of_singleton; reflexivity).
      reflexivity. }
  2:{ intros v' k' _ _ Hne. destruct (decide ((v', k' + 1) ∈ pre)) as [Hp|Hn].
      - rewrite decide_True; [reflexivity|]. apply elem_of_app. auto.
      - rewrite decide_False; [reflexivity|]. intros Hp. apply elem_of_app in Hp as [Hp|Hp]; [tauto|].
        apply list_elem_of_singleton in Hp. injection Hp as -> Hk'. apply Hne. f_equal. lia. }
  rewrite create_view_embedding_effect.
  eexists. split; [reflexivity|].
  assert (Hw : warnings self (pre ++ [(v, m)])%list =
               (warnings self pre ++ if decide (view_rank self > 0) then [mode_shared_msg m v] else [])%list).
  { unfold warnings. destruct (decide (view_rank self > 0)); [|reflexivity].
    rewrite map_app. reflexivity. }
  destruct (decide (view_rank self > 0)) as [Hvr|Hvr].
  - constructor; cbn; try assumption; try reflexivity.
    + rewrite Ho, Hw, <- app_assoc. reflexivity.
    + intros key Hkey. cbn in Hkey. unfold names_after, bias_names. rewrite map_app. simpl.
      destruct (decide (key = scoped (view_mode_scope v m) "bias")) as [->|Hne].
      { apply elem_of_cons. right. rewrite app_assoc. apply elem_of_app. right.
        apply list_elem_of_singleton. reflexivity. }
      rewrite lookup_insert_ne in Hkey by congruence. apply Hk in Hkey.
      unfold names_after in Hkey. apply elem_of_cons in Hkey as [->|Hkey]; [apply elem_of_cons; auto|].
      apply elem_of_cons. right. rewrite app_assoc. apply elem_of_app. left. exact Hkey.
  - constructor; cbn; try assumption; try reflexivity.
    + rewrite Ho, Hw, app_nil_r. reflexivity.
    + intros key Hkey. cbn in Hkey. unfold names_after, bias_names. rewrite map_app. simpl.
      destruct (decide (key = scoped (view_mode_scope v m) "bias")) as [->|Hne].
      { apply elem_of_cons. right. rewrite app_assoc. apply elem_of_app. right.
        apply list_elem_of_singleton. reflexivity. }
      rewrite lookup_insert_ne in Hkey by congruence. apply Hk in Hkey.
      unfold names_after in Hkey. apply elem_of_cons in Hkey as [->|Hkey]; [apply elem_of_cons; auto|].
      apply elem_of_cons. right. rewrite app_assoc. apply elem_of_app. left. exact Hkey.
Qed.

(** On a fresh graph [_init_learnable_params] completes, and leaves the
    tables, the variable store and the output as [params_state] says. *)
Lemma init_learnable_params_post (h : heap) :
  tf_variables h = ∅ ->
  exists h', _init_learnable_params self h = (Ok tt, h') /\
             params_state self (range (n_modes self)) (view_pairs self) h h'.
Proof.
  intros Hempty. unfold _init_learnable_params.
  unfold bind at 1. unfold modify at 1.
  unfold bind at 1. unfold modify at 1.
  unfold bind at 1. unfold modify at 1.
  unfold bind at 1. unfold tf.get_variable at 1.
  cbn [tf_variables set_layer_norm_S set_Bias set_W]. rewrite Hempty, lookup_empty.
  unfold bind at 1. unfold modify at 1.
  unfold bind at 1. unfold modify at 1.
  match goal with |- exists _, _ ?hh = _ /\ _ => set (h1 := hh) end.
  assert (H1 : params_state self [] [] h h1).
  { subst h1. constructor; cbn.
    - unfold W_after, table. rewrite py_repeat_range. apply map_ext. intros v.
      apply map_ext. intros k. rewrite decide_False; [reflexivity|].
      intros [_ Hin]. inversion Hin.
    - unfold Bias_after, table. rewrite py_repeat_range. apply map_ext. intros v.
      apply map_ext. intros k. rewrite decide_False; [reflexivity|].
      intros Hin. inversion Hin.
    - unfold S_after. rewrite py_repeat_range. apply map_ext. intros k.
      rewrite decide_False; [reflexivity|]. intros Hin. inversion Hin.
    - reflexivity.
    - reflexivity.
    - reflexivity.
    - unfold warnings. destruct (decide (view_rank self > 0)); simpl; rewrite app_nil_r; reflexivity.
    - intros key Hkey. cbn in Hkey.
      destruct (decide (key = "embedding_phi")) as [->|Hne]; [apply elem_of_cons; auto|].
      rewrite lookup_insert_ne, lookup_empty in Hkey by congruence.
      destruct Hkey as [? Hkey]. discriminate. }
  destruct (for_prefix_inv (fun pre hh => params_state self pre [] h hh)
              (range (n_modes self)) (create_co_mode self)) with (h := h1)
    as (h2 & Hloop1 & H2).
  { intros pre m post hh Hl HI.
    destruct (prefix_fresh _ _ _ _ (range_NoDup _) Hl) as [Hin Hfresh].
    exact (create_co_mode_step h hh pre m HI Hin Hfresh). }
  { exact H1. }
  unfold bind at 1. rewrite Hloop1.
  rewrite (nested_view_loop self (fun v m => create_view_bias self v m ;; create_view_embedding self v m)).
  destruct (for_prefix_inv (fun pre hh => params_state self (range (n_modes self)) pre h hh)
              (view_pairs self)
              (fun vm => create_view_bias self (fst vm) (snd vm) ;;
                         create_view_embedding self (fst vm) (snd vm))) with (h := h2)
    as (h3 & Hloop2 & H3).
  { intros pre [v m] post hh Hl HI.
    destruct (prefix_fresh _ _ _ _ (view_pairs_NoDup self) Hl) as [Hin Hfresh].
    exact (create_view_pair_step h hh _ pre v m HI Hin Hfresh). }
  { exact H2. }
  exists h3. split; [exact Hloop2|exact H3].
Qed.

Lemma params_state_bias (co_done : list Z) (h0 h : heap) (v m : Z) :
  params_state self co_done (view_pairs self) h0 h ->
  (v, m) ∈ view_pairs self ->
  getitem2 (Bias h) v (m - 1) = Ok (Some (bias_var self v m)).
Proof.
  intros Hps Hin. destruct (view_pairs_in_range self v m Hwf Hin) as [Hv Hm].
  rewrite (ps_Bias _ _ _ _ _ Hps). unfold Bias_after.
  rewrite getitem2_table by lia. replace (m - 1 + 1) with m by lia.
  rewrite decide_True by exact Hin. reflexivity.
Qed.

Lemma params_state_view_table (pairs_done : list (Z * Z)) (h0 h : heap) (v m : Z) :
  params_state self (range (n_modes self)) pairs_done h0 h ->
  (v, m) ∈ view_pairs self ->
  getitem2 (W h) v (m - 1) = Ok None.
Proof.
  intros Hps Hin. destruct (view_pairs_in_range self v m Hwf Hin) as [Hv Hm].
  rewrite (ps_W _ _ _ _ _ Hps). unfold W_after.
  rewrite getitem2_table by lia. rewrite decide_False; [reflexivity|]. lia.
Qed.

Lemma params_state_shared_table (pairs_done : list (Z * Z)) (h0 h : heap) (m : Z) :
  params_state self (range (n_modes self)) pairs_done h0 h ->
  m ∈ range (n_modes self) ->
  getitem2 (W h) 0 m = Ok (Some (co_var self m)).
Proof.
  pose proof Hwf as (_ & Hnv & _).
  intros Hps Hin. pose proof Hin as Hm. apply range_elem in Hm.
  rewrite (ps_W _ _ _ _ _ Hps). unfold W_after.
  rewrite getitem2_table by lia. rewrite decide_True by auto. reflexivity.
Qed.

(** Whatever the well-formed configuration, no view-specific table exists
    after [_init_learnable_params]: the slot of every (view, mode) pair is
    still [None] and the variable store holds no variable of that name. *)
Lemma view_tables_never_allocated (h : heap) :
  tf_variables h = ∅ ->
  exists h', _init_learnable_params self h = (Ok tt, h') /\
    forall v m, (v, m) ∈ view_pairs self ->
      getitem2 (W h') v (m - 1) = Ok None /\
      tf_variables h' !! scoped (view_mode_scope v m) "embedding_init" = None.
Proof.
  intros Hempty.
  destruct (init_learnable_params_post h Hempty) as (h' & Hrun & Hps).
  exists h'. split; [exact Hrun|]. intros v m Hin. split.
  - exact (params_state_view_table _ h h' v m Hps Hin).
  - destruct (tf_variables h' !! scoped (view_mode_scope v m) "embedding_init") as [x|] eqn:E;
      [|reflexivity].
    exfalso. assert (Hkey := ps_keys _ _ _ _ _ Hps _ (mk_is_Some _ _ E)).
    unfold names_after in Hkey. apply elem_of_cons in Hkey as [Hkey|Hkey].
    { exact (scoped_view_not_phi _ _ _ Hkey). }
    apply elem_of_app in Hkey as [Hkey|Hkey].
    + apply co_names_elem in Hkey as (m' & n' & _ & Heq & _).
      apply scoped_inj in Heq as [Heq _]; auto with scopes.
      exact (view_scope_not_co_scope _ _ _ Heq).
    + unfold bias_names in Hkey. apply list_elem_of_fmap in Hkey as ([v' m'] & Heq & _).
      exact (embedding_name_not_bias _ _ _ _ Heq).
Qed.

End WellFormed.

Lemma two_view_model_well_formed : well_formed two_view_model.
Proof.
  split; [exists [3; 4; 5]; split; [reflexivity|simpl; lia]|].
  split; [reflexivity|]. simpl. repeat constructor; lia.
Qed.

Lemma single_mode_built_well_formed : well_formed single_mode_built.
Proof.
  split; [exists [1]; split; [reflexivity|simpl; lia]|].
  split; [reflexivity|]. simpl. repeat constructor; lia.
Qed.

Lemma dup_model_well_formed : well_formed dup_model.
Proof.
  split; [exists [1; 1]; split; [reflexivity|simpl; lia]|].
  split; [reflexivity|]. simpl. repeat constructor; lia.
Qed.

(** ** [_init_regular] *)

Lemma regularizer_func_dense (self : SFMCore) (m : matrix) :
  _regularizer_func self (Dense m) = Ok (norm self m).
Proof.
  unfold _regularizer_func, norm. destruct (decide (reg_type self = "L1")); simpl.
  - unfold tf.reduce_sum. rewrite entries_map. reflexivity.
  - reflexivity.
Qed.

Lemma norm_of_slot_filled (self : SFMCore) (rho : valuation)
    (table : heap -> list (list (option variable))) (v m : Z) (h : heap) :
  slot_filled (table h) v m ->
  norm_of_slot self rho table v m h = (Ok (norm self (slot_value rho (table h) v m)), h).
Proof.
  intros [x Hx]. unfold norm_of_slot, slot_value. rewrite Hx. simpl.
  rewrite regularizer_func_dense. reflexivity.
Qed.

Lemma regular_view_mode_filled (self : SFMCore) (rho : valuation) (h : heap)
    (r : float32) (v m : Z) (acc : option float32) :
  slot_filled (Bias h) v (m - 1) ->
  (view_rank self > 0 -> slot_filled (W h) v (m - 1)) ->
  exists acc',
    regular_view_mode self rho v acc m (set_regularization r h) =
    (Ok acc', set_regularization (fold_left fadd (pair_terms self rho h (v, m)) r) h).
Proof.
  intros HB HW. unfold regular_view_mode, pair_terms. simpl fst. simpl snd.
  unfold bind at 1. unfold try_norm at 1.
  rewrite (norm_of_slot_filled self rho Bias v (m - 1) (set_regularization r h) HB).
  unfold bind at 1. unfold add_norm at 1, modify.
  destruct (decide (view_rank self > 0)) as [Hvr|Hvr].
  - unfold bind at 1. unfold try_norm at 1.
    match goal with |- context [norm_of_slot self rho W v (m - 1) ?hh] =>
      rewrite (norm_of_slot_filled self rho W v (m - 1) hh (HW Hvr)) end.
    unfold bind, add_norm, modify, ret. eexists. reflexivity.
  - unfold ret. eexists. reflexivity.
Qed.



Lemma init_regular_sum (self : SFMCore) (rho : valuation) (h : heap) :
  slots_populated self h ->
  _init_regular self rho h =
  (Ok tt, set_regularization (fsum (regular_terms self rho h)) h).
Proof.
  intros (HW0 & Hpairs & [phi Hphi]). unfold _init_regular.
  unfold bind at 1. unfold modify at 1.
  set (t1 := fun m => norm self (slot_value rho (W h) 0 m)).
  (* the shared tables *)
  destruct (foldM_prefix_inv
              (fun pre (_ : option float32) hh => hh = set_regularization (fsum (map t1 pre)) h)
              (range (n_modes self))
              (fun _ m => let* norm := norm_of_slot self rho W 0 m in
                          add_norm (Some norm) ;; ret (Some norm)))
    with (acc := @None float32) (h := set_regularization f0 h)
    as (acc1 & h1 & Hloop1 & ->).
  { intros pre m post acc hh Hl ->.
    assert (Hm : m ∈ range (n_modes self)).
    { rewrite Hl. apply elem_of_app. right. apply elem_of_cons. auto. }
    unfold bind at 1.
    match goal with |- context [norm_of_slot self rho W 0 m ?hh] =>
      rewrite (norm_of_slot_filled self rho W 0 m hh (HW0 m Hm)) end.
    unfold bind, add_norm, modify, ret. eexists _, _. split; [reflexivity|].
    rewrite map_app. cbn [map]. rewrite fsum_snoc. reflexivity. }
  { reflexivity. }
  unfold bind at 1. rewrite Hloop1.
  (* the pairs of the views *)
  unfold bind at 1. rewrite (nested_view_fold self (regular_view_mode self rho)).
  destruct (foldM_prefix_inv
              (fun pre (_ : option float32) hh =>
                 hh = set_regularization
                        (fsum (map t1 (range (n_modes self)) ++
                               concat (map (pair_terms self rho h) pre))) h)
              (view_pairs self)
              (fun acc vm => regular_view_mode self rho (fst vm) acc (snd vm)))
    with (acc := acc1) (h := set_regularization (fsum (map t1 (range (n_modes self)))) h)
    as (acc2 & h2 & Hloop2 & ->).
  { intros pre [v m] post acc hh Hl ->.
    assert (Hvm : (v, m) ∈ view_pairs self).
    { rewrite Hl. apply elem_of_app. right. apply elem_of_cons. auto. }
    destruct (Hpairs v m Hvm) as [HB HW].
    destruct (regular_view_mode_filled self rho h
                (fsum (map t1 (range (n_modes self)) ++ concat (map (pair_terms self rho h) pre)))
                v m acc HB HW) as (acc' & Hstep).
    exists acc'. eexists. split; [exact Hstep|].
    rewrite map_app, concat_app. simpl. rewrite app_nil_r, app_assoc.
    unfold fsum at 2. rewrite fold_left_app. reflexivity. }
  { simpl. rewrite app_nil_r. reflexivity. }
  rewrite Hloop2.
  (* the columns of Phi: computed, not added *)
  unfold bind at 1.
  destruct (foldM_prefix_inv
              (fun (_ : list Z) (_ : option float32) hh =>
                 hh = set_regularization
                        (fsum (map t1 (range (n_modes self)) ++
                               concat (map (pair_terms self rho h) (view_pairs self)))) h)
              (range (Z.of_nat (length (view_list self))))
              (fun _ v => let* col := (fun h => (phi_column rho h v, h)) in
                          let* norm := lift (_regularizer_func self (Dense [col])) in
                          ret (Some norm)))
    with (acc := acc2)
         (h := set_regularization
                 (fsum (map t1 (range (n_modes self)) ++
                        concat (map (pair_terms self rho h) (view_pairs self)))) h)
    as (acc3 & h3 & Hloop3 & ->).
  { intros pre v post acc hh Hl ->.
    unfold bind, lift, ret, phi_column. cbn [Phi set_regularization]. rewrite Hphi.
    rewrite regularizer_func_dense. eexists _, _. split; reflexivity. }
  { reflexivity. }
  rewrite Hloop3.
  unfold bind at 1. cbn [Phi set_regularization]. rewrite Hphi. simpl tensor_of.
  rewrite regularizer_func_dense. unfold add_norm, modify.
  unfold regular_terms. rewrite Hphi. simpl from_option.
  rewrite app_assoc, fsum_snoc. reflexivity.
Qed.

Lemma slots_populated_after_init (self : SFMCore) (h0 h : heap) :
  well_formed self -> view_rank self <= 0 ->
  params_state self (range (n_modes self)) (view_pairs self) h0 h ->
  slots_populated self h.
Proof.
  intros Hwf Hvr Hps. split; [|split].
  - intros m Hm. exists (co_var self m).
    exact (params_state_shared_table self Hwf _ h0 h m Hps Hm).
  - intros v m Hin. split; [|lia]. exists (bias_var self v m).
    exact (params_state_bias self Hwf _ h0 h v m Hps Hin).
  - rewrite (ps_Phi _ _ _ _ _ Hps). eauto.
Qed.

(** ** [_init_main_block] *)

Lemma init_main_block_Ok (self : SFMCore) (rho : valuation) (ph : placeholders)
    (h h' : heap) (fw : forward) :
  _init_main_block self rho ph h = (Ok fw, h') ->
  exists cache views,
    main_outputs self rho ph h = Ok (cache, views, outputs fw) /\
    XW_cache fw = cache /\ prod_embedding fw = map fst views /\
    view_contribution fw = map snd views /\
    loss fw = loss_function self (outputs fw) (train_y ph) /\
    reduced_loss fw = tf.reduce_mean (loss fw).
Proof.
  unfold _init_main_block. intros H.
  apply bind_Ok in H as ([[cache views] out] & h1 & Hm & H).
  injection Hm as Hm <-.
  apply bind_Ok in H as (_ & h2 & _ & H). unfold ret in H. injection H as <- <-.
  exists cache, views. simpl. auto 7.
Qed.

Lemma main_outputs_Ok (self : SFMCore) (rho : valuation) (ph : placeholders) (h : heap)
    (cache : gmap Z matrix) (views : list (matrix * matrix)) (out : matrix) :
  main_outputs self rho ph h = Ok (cache, views, out) ->
  mapM (fun '(i, modes) => view_block self rho ph h cache i modes)
       (enumerate (view_list self)) = Ok views /\
  out = tf.reduce_sum_0 (map snd views).
Proof.
  unfold main_outputs. intros H.
  apply rbind_Ok in H as (x0 & _ & H).
  apply rbind_Ok in H as (cache' & Hc & H).
  apply rbind_Ok in H as (views' & Hv & [= <- <- <-]).
  split; [exact Hv|]. apply zero_plus_id.
Qed.

Lemma view_block_Ok (self : SFMCore) (rho : valuation) (ph : placeholders) (h : heap)
    (cache : gmap Z matrix) (i : Z) (modes : list Z) (p c : matrix) :
  view_block self rho ph h cache i modes = Ok (p, c) ->
  exists XW_list phi,
    foldR (view_mode_step self rho ph h cache (i + 1)) modes
          (py_repeat None (n_modes self)) = Ok XW_list /\
    tf.reduce_prod_pack (omap id XW_list) = Ok p /\
    phi_column_matrix rho h i = Ok phi /\
    tf.matmul (Dense p) (Dense phi) = Ok c.
Proof.
  unfold view_block. intros H.
  apply rbind_Ok in H as (XW_list & HXW & H).
  apply rbind_Ok in H as (p' & Hp & H).
  apply rbind_Ok in H as (phi & Hphi & H).
  apply rbind_Ok in H as (c' & Hc & [= <- <-]).
  exists XW_list, phi. auto.
Qed.

Section ViewProduct.

Context (self : SFMCore) (rho : valuation) (ph : placeholders) (h : heap)
  (cache : gmap Z matrix).

(** A round of the loop over the modes of a view writes the factor of the
    mode to the slot of the mode. *)
Lemma view_mode_step_factor (v m : Z) (XW_list : list (option matrix)) :
  length XW_list = Z.to_nat (n_modes self) -> 1 <= m <= n_modes self ->
  view_mode_step self rho ph h cache v XW_list m =
  rbind (view_mode_factor self rho ph h cache v m) (fun s =>
  Ok (<[Z.to_nat (m - 1) := Some s]> XW_list)).
Proof.
  intros Hlen Hm. unfold view_mode_step, view_mode_factor.
  assert (Hset : forall (l : list (option matrix)) x, length l = Z.to_nat (n_modes self) ->
            py_setitem l (m - 1) x = Ok (<[Z.to_nat (m - 1) := x]> l)).
  { intros l x Hl. rewrite <- (Z2Nat.id (m - 1)) at 1 by lia.
    apply py_setitem_nat. lia. }
  assert (Hget : forall (l : list (option matrix)) x, length l = Z.to_nat (n_modes self) ->
            py_getitem (<[Z.to_nat (m - 1) := x]> l) (m - 1) = Ok x).
  { intros l x Hl. rewrite <- (Z2Nat.id (m - 1)) at 2 by lia.
    apply py_getitem_nat. apply list_lookup_insert_eq. lia. }
  assert (Hfin : forall e,
    rbind (py_setitem XW_list (m - 1) (Some e)) (fun XW_list0 =>
      rbind (py_getitem XW_list0 (m - 1)) (fun xw =>
      rbind (getitem2 (Bias h) v (m - 1)) (fun bias =>
      rbind (tf.add (from_option Dense PyNone xw) (tensor_of rho bias)) (fun s =>
      py_setitem XW_list0 (m - 1) (Some s))))) =
    rbind (rbind (getitem2 (Bias h) v (m - 1)) (fun bias =>
             tf.add (Dense e) (tensor_of rho bias)))
          (fun s => Ok (<[Z.to_nat (m - 1) := Some s]> XW_list))).
  { intros e. rewrite Hset by exact Hlen. cbn [rbind]. rewrite Hget by exact Hlen.
    cbn [rbind]. destruct (getitem2 (Bias h) v (m - 1)) as [bias|]; [|reflexivity].
    cbn [rbind from_option].
    destruct (tf.add (Dense e) (tensor_of rho bias)) as [s|]; [|reflexivity].
    cbn [rbind]. rewrite Hset by (rewrite length_insert; exact Hlen).
    rewrite list_insert_insert_eq. reflexivity. }
  destruct (decide (view_rank self > 0)).
  - destruct (_view_mode_embedding self rho ph h v (m - 1)) as [XW|]; [|reflexivity].
    cbn [rbind]. destruct (dict_getitem cache (m - 1)) as [XW0|]; [|reflexivity].
    cbn [rbind]. apply Hfin.
  - destruct (dict_getitem cache (m - 1)) as [XW0|]; [|reflexivity].
    cbn [rbind]. apply Hfin.
Qed.

(** After the loop the slots of the modes gone through hold their factors,
    the others nothing, however often a mode came by. *)
Lemma view_mode_loop (v : Z) (modes done : list Z) (XW_list : list (option matrix)) :
  Forall (fun m => 1 <= m <= n_modes self) modes ->
  foldR (view_mode_step self rho ph h cache v) modes
        (XW_list_after self rho ph h cache v done) = Ok XW_list ->
  (forall m, m ∈ modes ->
     view_mode_factor self rho ph h cache v m = Ok (factor_value self rho ph h cache v m)) /\
  XW_list = XW_list_after self rho ph h cache v (done ++ modes).
Proof.
  revert done. induction modes as [|m modes IH]; intros done Hrange H.
  - injection H as <-. rewrite app_nil_r. split; [|reflexivity].
    intros m Hm. inversion Hm.
  - apply list.Forall_cons in Hrange as [Hm Hrange]. cbn [foldR] in H.
    apply rbind_Ok in H as (XW1 & Hstep & H).
    rewrite view_mode_step_factor in Hstep;
      [|unfold XW_list_after; rewrite length_map, range_length; reflexivity|exact Hm].
    apply rbind_Ok in Hstep as (s & Hs & [= <-]).
    assert (Hfv : factor_value self rho ph h cache v m = s).
    { unfold factor_value. rewrite Hs. reflexivity. }
    assert (Hnext : <[Z.to_nat (m - 1) := Some s]> (XW_list_after self rho ph h cache v done) =
                    XW_list_after self rho ph h cache v (done ++ [m])).
    { unfold XW_list_after.
      rewrite <- (tabulate_insert
        (fun k => if decide (k + 1 ∈ done)
                  then Some (factor_value self rho ph h cache v (k + 1)) else None)
        (fun k => if decide (k + 1 ∈ (done ++ [m])%list)
                  then Some (factor_value self rho ph h cache v (k + 1)) else None)
        (n_modes self) (Z.to_nat (m - 1))).
      - f_equal. replace (Z.of_nat (Z.to_nat (m - 1)) + 1) with m by lia.
        rewrite decide_True by (apply elem_of_app; right; apply list_elem_of_singleton; reflexivity).
        rewrite Hfv. reflexivity.
      - intros j Hj Hne. destruct (decide (Z.of_nat j + 1 ∈ done)) as [Hin|Hn].
        + rewrite decide_True; [reflexivity|]. apply elem_of_app. auto.
        + rewrite decide_False; [reflexivity|]. intros Hin.
          apply elem_of_app in Hin as [Hin|Hin]; [tauto|].
          apply list_elem_of_singleton in Hin. lia. }
    rewrite Hnext in H. destruct (IH _ Hrange H) as [Hall ->].
    split; [|rewrite <- app_assoc; reflexivity].
    intros m' Hm'. apply elem_of_cons in Hm' as [->|Hm']; [rewrite Hfv; exact Hs|auto].
Qed.

Lemma XW_list_factors (v : Z) (modes : list Z) :
  omap id (XW_list_after self rho ph h cache v modes) =
  map (factor_value self rho ph h cache v) (view_slots self modes).
Proof.
  unfold XW_list_after, view_slots. generalize (range (n_modes self)). intros l.
  induction l as [|k l IH]; [reflexivity|].
  cbn [map]. rewrite filter_cons.
  destruct (decide (k + 1 ∈ modes)); simpl; rewrite <- IH; reflexivity.
Qed.

Lemma view_slots_elem (modes : list Z) (m : Z) :
  m ∈ view_slots self modes <-> m ∈ modes /\ 1 <= m <= n_modes self.
Proof.
  unfold view_slots. rewrite list_elem_of_filter, list_elem_of_fmap. split.
  - intros (Hm & k & -> & Hk). apply range_elem in Hk. split; [exact Hm|lia].
  - intros (Hm & Hr). split; [exact Hm|]. exists (m - 1). split; [lia|].
    apply range_elem. lia.
Qed.

Lemma view_slots_NoDup (modes : list Z) : NoDup (view_slots self modes).
Proof.
  unfold view_slots. apply list.NoDup_filter. apply NoDup_fmap_2; [intros x y; lia|].
  apply range_NoDup.
Qed.

(** The product embedding of a view is the product of the factors of its
    distinct modes. *)
Lemma view_block_factors (i : Z) (modes : list Z) (p c : matrix) :
  Forall (fun m => 1 <= m <= n_modes self) modes ->
  view_block self rho ph h cache i modes = Ok (p, c) ->
  exists fs,
    mapM (view_mode_factor self rho ph h cache (i + 1)) (view_slots self modes) = Ok fs /\
    tf.reduce_prod_pack fs = Ok p.
Proof.
  intros Hrange Hb. apply view_block_Ok in Hb as (XW_list & phi & HXW & Hp & _ & _).
  assert (Hinit : py_repeat None (n_modes self) =
                  XW_list_after self rho ph h cache (i + 1) []).
  { unfold XW_list_after. rewrite py_repeat_range. apply map_ext. intros k.
    rewrite decide_False; [reflexivity|]. intros Hin. inversion Hin. }
  rewrite Hinit in HXW. apply view_mode_loop in HXW as [Hall ->]; [|exact Hrange].
  rewrite app_nil_l, XW_list_factors in Hp.
  exists (map (factor_value self rho ph h cache (i + 1)) (view_slots self modes)).
  split; [|exact Hp]. apply mapM_values. intros m Hm.
  apply view_slots_elem in Hm as [Hm _]. apply Hall, Hm.
Qed.

End ViewProduct.

(** ** [__init__] and [build_graph] *)

Lemma fold_max_ge (l : list Z) (a : Z) :
  a <= fold_left Z.max l a /\ forall x, x ∈ l -> x <= fold_left Z.max l a.
Proof.
  revert a. induction l as [|y l IH]; intros a; simpl.
  - split; [lia|]. intros x Hx. inversion Hx.
  - destruct (IH (Z.max a y)) as [Ha Hl]. split; [lia|].
    intros x Hx. apply elem_of_cons in Hx as [->|Hx]; [lia|auto].
Qed.

Lemma py_max_ge (l : list Z) (n : Z) : py_max l = Ok n -> forall x, x ∈ l -> x <= n.
Proof.
  destruct l as [|a l]; simpl; [discriminate|]. intros [= <-] x Hx.
  destruct (fold_max_ge l a) as [Ha Hl].
  apply elem_of_cons in Hx as [->|Hx]; auto.
Qed.

(** An object made by [__init__] from 1-indexed modes and given a feature
    dimension for each of its modes is well formed. *)
Lemma init_well_formed
    (vl : list (list Z)) (cr vr : Z) (fo : bool) (ty : string)
    (lf : matrix -> vector -> matrix) (rt : string) (rg sc : float32)
    (self : SFMCore) (nfl : list Z) :
  __init__ vl cr vr fo ty lf rt rg sc = Ok self ->
  Forall (Forall (fun m => 1 <= m)) vl ->
  n_modes self <= Z.of_nat (length nfl) ->
  well_formed (set_num_features self nfl).
Proof.
  unfold __init__. destruct (py_max (concat vl)) as [n|e] eqn:Hmax; simpl; [|discriminate].
  intros [= <-] Hpos Hlen. simpl in Hlen. split; [exists nfl; auto|].
  split; [reflexivity|]. simpl.
  rewrite list.Forall_forall. intros modes Hmodes.
  rewrite list.Forall_forall. intros m Hm. split.
  - rewrite list.Forall_forall in Hpos. specialize (Hpos modes Hmodes).
    rewrite list.Forall_forall in Hpos. auto.
  - apply (py_max_ge _ _ Hmax). apply elem_of_concat. eauto.
Qed.

Lemma init_leaves_feature_dims_unset
    (vl : list (list Z)) (cr vr : Z) (fo : bool) (ty : string)
    (lf : matrix -> vector -> matrix) (rt : string) (rg sc : float32)
    (self : SFMCore) :
  __init__ vl cr vr fo ty lf rt rg sc = Ok self -> n_feature_list self = None.
Proof.
  unfold __init__. destruct (py_max (concat vl)) as [n|e]; simpl; [|discriminate].
  intros [= <-]. reflexivity.
Qed.

(** Building straight after [__init__] fails. *)
Lemma build_before_set_num_features
    (vl : list (list Z)) (cr vr : Z) (fo : bool) (ty : string)
    (lf : matrix -> vector -> matrix) (rt : string) (rg sc : float32)
    (self : SFMCore) (rho : valuation) (fd : feed_dict) (h : heap) :
  __init__ vl cr vr fo ty lf rt rg sc = Ok self ->
  build_graph self rho fd h = (Raise AssertionError, h).
Proof.
  intros Hinit. apply init_leaves_feature_dims_unset in Hinit.
  unfold build_graph. rewrite Hinit. reflexivity.
Qed.

(** ** The models at work *)

(** The models above are what the constructor and the setter produce. *)
Lemma two_view_model_init :
  rbind (__init__ [[1; 2]; [1; 3]] 2 1 true "dense" (loss_function two_view_model)
                  "L2" f1 f2)
        (fun self => Ok (n_modes self, n_views self, n_feature_list (set_num_features self [3; 4; 5]))) =
  Ok (n_modes two_view_model, n_views two_view_model, n_feature_list two_view_model).
Proof. reflexivity. Qed.

(** A loss that is not a number reaches the target, and the guard raises
    instead of handing it to the optimizer. *)
Lemma guard_raises_on_nan :
  let r := build_graph nan_loss_model single_mode_valuation single_mode_feed empty_heap in
  rbind (fst r) (fun g => Ok (target (built_objective g))) = Ok NaN /\
  rbind (fst r) (fun g => Ok (trainer g)) =
  Ok (Minimize (Raise (InvalidArgumentError "NaN or Inf in target value"))).
Proof. cbv zeta. split; by_computation. Qed.

(** The sparse and the dense product agree on a diagonal matrix. *)
Lemma sparse_product_example :
  tf.sparse_tensor_dense_matmul
    (SparseTensor [(0, 0); (1, 1)] [of_Z 1; of_Z 2] (2, 2))
    (Dense [[of_Z 3; of_Z 4]; [of_Z 5; of_Z 6]]) =
  tf.matmul (Dense [[of_Z 1; f0]; [f0; of_Z 2]])
            (Dense [[of_Z 3; of_Z 4]; [of_Z 5; of_Z 6]]).
Proof. by_computation. Qed.

(** ** Finite and non-negative scalars *)

Lemma fold_max_elem (l : list Z) (a : Z) : fold_left Z.max l a ∈ a :: l.
Proof.
  revert a. induction l as [|y l IH]; intros a; simpl.
  - apply elem_of_cons. auto.
  - specialize (IH (Z.max a y)). apply elem_of_cons in IH as [IH|IH].
    + rewrite IH. destruct (Z.max_spec a y) as [[_ ->]|[_ ->]].
      * apply elem_of_cons. right. apply elem_of_cons. auto.
      * apply elem_of_cons. auto.
    + apply elem_of_cons. right. apply elem_of_cons. auto.
Qed.

Lemma is_finite_fadd (x y : float32) :
  is_finite (fadd x y) = is_finite x && is_finite y.
Proof. destruct x, y; reflexivity. Qed.

Lemma nonneg_fadd (x y : float32) : nonneg x -> nonneg y -> nonneg (fadd x y).
Proof.
  destruct x as [a| | |], y as [c| | |]; simpl; try tauto.
  apply Qcplus_nonneg_nonneg.
Qed.

Lemma fold_fadd_finite (l : list float32) (acc : float32) :
  is_finite (fold_left fadd l acc) = is_finite acc && forallb is_finite l.
Proof.
  revert acc. induction l as [|x l IH]; intros acc; simpl.
  - rewrite andb_true_r. reflexivity.
  - rewrite IH, is_finite_fadd, andb_assoc. reflexivity.
Qed.

Lemma fold_fadd_nonneg (l : list float32) (acc : float32) :
  nonneg acc -> Forall nonneg l -> nonneg (fold_left fadd l acc).
Proof.
  revert acc. induction l as [|x l IH]; intros acc Hacc Hl; simpl; [exact Hacc|].
  apply list.Forall_cons in Hl as [Hx Hl]. apply IH; [|exact Hl].
  apply nonneg_fadd; assumption.
Qed.

Lemma Qc_square_nonneg (q : Qc) : (0 <= q * q)%Qc.
Proof.
  destruct (Qclt_le_dec q 0) as [Hneg|Hpos].
  - replace (q * q)%Qc with ((- q) * (- q))%Qc by ring.
    assert (H : (0 <= - q)%Qc).
    { apply Qclt_le_weak in Hneg. apply Qcopp_le_compat in Hneg.
      replace (- 0)%Qc with 0%Qc in Hneg by reflexivity. exact Hneg. }
    apply Qcmult_nonneg_nonneg; exact H.
  - apply Qcmult_nonneg_nonneg; exact Hpos.
Qed.

Lemma nonneg_fabs (x : float32) : nonneg (fabs x) /\ is_finite (fabs x) = is_finite x.
Proof.
  destruct x as [q| | |]; simpl; auto. split; [apply Qcabs_nonneg|reflexivity].
Qed.

Lemma nonneg_square (x : float32) : nonneg (fmul x x) /\ is_finite (fmul x x) = is_finite x.
Proof.
  destruct x as [q| | |]; simpl; auto. split; [apply Qc_square_nonneg|reflexivity].
Qed.

Lemma nonneg_half (x : float32) :
  nonneg x -> nonneg (fdiv x f2) /\ is_finite (fdiv x f2) = is_finite x.
Proof.
  destruct x as [q| | |]; cbn [nonneg]; try tauto.
  intros Hq. unfold fdiv, f2.
    rewrite decide_False by discriminate. simpl. split; [|reflexivity].
    unfold Qcdiv. apply Qcmult_nonneg_nonneg; [exact Hq|]. discriminate.
Qed.

Lemma forallb_map_finite (f : float32 -> float32) (l : list float32) :
  (forall x, is_finite (f x) = is_finite x) ->
  forallb is_finite (map f l) = forallb is_finite l.
Proof.
  intros Hf. induction l as [|x l IH]; simpl; [reflexivity|]. rewrite Hf, IH. reflexivity.
Qed.

(** ** Rows gathered from a product *)

Lemma lookup_map {A B} (f : A -> B) (l : list A) (i : nat) :
  map f l !! i = option_map f (l !! i).
Proof.
  revert i. induction l as [|x l IH]; intros [|i]; simpl; auto.
Qed.

Lemma gather_map (f : list float32 -> list float32) (M : matrix) (ids : list Z) :
  tf.nn.gather (map f M) ids = rbind (tf.nn.gather M ids) (fun X => Ok (map f X)).
Proof.
  induction ids as [|i ids IH]; [reflexivity|]. cbn [tf.nn.gather].
  destruct (decide (0 <= i)); [|reflexivity].
  unfold matrix. rewrite lookup_map.
  match goal with |- context [option_map f ?x] => destruct x as [row|] end; [|reflexivity].
  cbn [option_map]. rewrite IH.
  destruct (tf.nn.gather M ids) as [rows|e]; reflexivity.
Qed.

(** ** Loops that have completed *)

Lemma mapM_Ok_elem {A B} (f : A -> result B) (l : list A) (ys : list B) (x : A) :
  mapM f l = Ok ys -> x ∈ l -> exists y, f x = Ok y.
Proof.
  revert ys. induction l as [|a l IH]; intros ys H Hx; [inversion Hx|].
  cbn [mapM] in H. apply rbind_Ok in H as (y & Ha & H).
  apply rbind_Ok in H as (ys' & Hl & _).
  apply elem_of_cons in Hx as [->|Hx]; eauto.
Qed.

Lemma foldR_Ok_elem {A B} (f : B -> A -> result B) (l : list A) (acc r : B) (x : A) :
  foldR f l acc = Ok r -> x ∈ l -> exists a a', f a x = Ok a'.
Proof.
  revert acc. induction l as [|y l IH]; intros acc H Hx; [inversion Hx|].
  cbn [foldR] in H. apply rbind_Ok in H as (acc' & Hy & H).
  apply elem_of_cons in Hx as [->|Hx]; eauto.
Qed.

(** The keys of the cache of shared embeddings are the modes gone through. *)
Lemma cache_keys (f : Z -> result matrix) (l : list Z) (c0 c : gmap Z matrix) (k : Z) :
  foldR (fun cache m => rbind (f m) (fun XW => Ok (<[m := XW]> cache))) l c0 = Ok c ->
  is_Some (c !! k) -> k ∈ l \/ is_Some (c0 !! k).
Proof.
  revert c0. induction l as [|m l IH]; intros c0 H Hk.
  - injection H as <-. auto.
  - cbn [foldR] in H. apply rbind_Ok in H as (c1 & Hstep & H).
    apply rbind_Ok in Hstep as (XW & _ & [= <-]).
    destruct (IH _ H Hk) as [Hin|Hin].
    + left. apply elem_of_cons. auto.
    + destruct (decide (k = m)) as [->|Hne]; [left; apply elem_of_cons; auto|].
      rewrite lookup_insert_ne in Hin by congruence. auto.
Qed.

Lemma cache_values (f : Z -> result matrix) (g : Z -> matrix) (l : list Z) (c0 : gmap Z matrix) :
  (forall m, m ∈ l -> f m = Ok (g m)) ->
  exists c,
    foldR (fun cache m => rbind (f m) (fun XW => Ok (<[m := XW]> cache))) l c0 = Ok c /\
    forall m, m ∈ l -> c !! m = Some (g m).
Proof.
  revert c0. induction l as [|m l IH]; intros c0 Hf.
  - exists c0. split; [reflexivity|]. intros m Hm. inversion Hm.
  - cbn [foldR]. rewrite Hf by (apply elem_of_cons; auto). cbn [rbind].
    destruct (IH (<[m := g m]> c0)) as (c & Hc & Hlook).
    { intros k Hk. apply Hf. apply elem_of_cons. auto. }
    exists c. split; [exact Hc|]. intros k Hk.
    destruct (decide (k ∈ l)) as [Hin|Hnin]; [auto|].
    apply elem_of_cons in Hk as [->|Hk]; [|contradiction].
    clear IH Hlook Hf. revert c0 c Hc Hnin.
    induction l as [|a l IHl]; intros c0 c Hc Hnin.
    + injection Hc as <-. apply lookup_insert_eq.
    + cbn [foldR] in Hc. apply rbind_Ok in Hc as (c1 & Hstep & Hc).
      apply rbind_Ok in Hstep as (XW & _ & [= <-]).
      apply not_elem_of_cons in Hnin as [Hne Hnin].
      rewrite insert_insert_ne in Hc by congruence. exact (IHl _ _ Hc Hnin).
Qed.

Lemma view_mode_step_reads_cache (self : SFMCore) (rho : valuation) (ph : placeholders)
    (h : heap) (cache : gmap Z matrix) (v m : Z) (l l' : list (option matrix)) :
  view_mode_step self rho ph h cache v l m = Ok l' -> is_Some (cache !! (m - 1)).
Proof.
  unfold view_mode_step. intros H. apply rbind_Ok in H as (l1 & H & _).
  assert (Hd : forall x, dict_getitem cache (m - 1) = Ok x -> is_Some (cache !! (m - 1))).
  { unfold dict_getitem. intros x. destruct (cache !! (m - 1)); [eauto|discriminate]. }
  destruct (decide (view_rank self > 0)).
  - apply rbind_Ok in H as (XW & _ & H). apply rbind_Ok in H as (XW0 & H & _). eauto.
  - apply rbind_Ok in H as (XW0 & H & _). eauto.
Qed.

Lemma omap_repeat_None {A} (n : Z) : omap id (py_repeat (@None A) n) = [].
Proof.
  unfold py_repeat. induction (Z.to_nat n) as [|k IH]; [reflexivity|exact IH].
Qed.

(** ** The slots of a view, whatever the order of its modes *)

Section ViewOrder.

Context (self : SFMCore) (rho : valuation) (ph : placeholders) (h : heap)
  (cache : gmap Z matrix).

Lemma XW_list_after_snoc (v m : Z) (done : list Z) :
  1 <= m <= n_modes self ->
  <[Z.to_nat (m - 1) := Some (factor_value self rho ph h cache v m)]>
    (XW_list_after self rho ph h cache v done) =
  XW_list_after self rho ph h cache v (done ++ [m]).
Proof.
  intros Hm. unfold XW_list_after.
  rewrite <- (tabulate_insert
    (fun k => if decide (k + 1 ∈ done)
              then Some (factor_value self rho ph h cache v (k + 1)) else None)
    (fun k => if decide (k + 1 ∈ (done ++ [m])%list)
              then Some (factor_value self rho ph h cache v (k + 1)) else None)
    (n_modes self) (Z.to_nat (m - 1))).
  - f_equal. replace (Z.of_nat (Z.to_nat (m - 1)) + 1) with m by lia.
    rewrite decide_True by (apply elem_of_app; right; apply list_elem_of_singleton; reflexivity).
    reflexivity.
  - intros j Hj Hne. destruct (decide (Z.of_nat j + 1 ∈ done)) as [Hin|Hn].
    + rewrite decide_True; [reflexivity|]. apply elem_of_app. auto.
    + rewrite decide_False; [reflexivity|]. intros Hin.
      apply elem_of_app in Hin as [Hin|Hin]; [tauto|].
      apply list_elem_of_singleton in Hin. lia.
Qed.

(** The loop over the modes of a view completes when each of their factors
    can be computed. *)
Lemma view_mode_loop_completes (v : Z) (modes done : list Z) :
  Forall (fun m => 1 <= m <= n_modes self) modes ->
  (forall m, m ∈ modes ->
     view_mode_factor self rho ph h cache v m = Ok (factor_value self rho ph h cache v m)) ->
  foldR (view_mode_step self rho ph h cache v) modes
        (XW_list_after self rho ph h cache v done) =
  Ok (XW_list_after self rho ph h cache v (done ++ modes)).
Proof.
  revert done. induction modes as [|m modes IH]; intros done Hrange Hall.
  - rewrite app_nil_r. reflexivity.
  - apply list.Forall_cons in Hrange as [Hm Hrange]. cbn [foldR].
    rewrite view_mode_step_factor;
      [|unfold XW_list_after; rewrite length_map, range_length; reflexivity|exact Hm].
    rewrite Hall by (apply elem_of_cons; auto). cbn [rbind].
    rewrite XW_list_after_snoc by exact Hm.
    rewrite IH; [rewrite <- app_assoc; reflexivity|exact Hrange|].
    intros m' Hm'. apply Hall. apply elem_of_cons. auto.
Qed.

Lemma XW_list_after_ext (v : Z) (done done' : list Z) :
  (forall m, m ∈ done <-> m ∈ done') ->
  XW_list_after self rho ph h cache v done = XW_list_after self rho ph h cache v done'.
Proof.
  intros Heq. unfold XW_list_after. apply map_ext. intros k.
  destruct (decide (k + 1 ∈ done)) as [Hin|Hn].
  - rewrite decide_True; [reflexivity|]. apply Heq, Hin.
  - rewrite decide_False; [reflexivity|]. intros Hin. apply Hn, Heq, Hin.
Qed.

Lemma XW_list_after_nil (v : Z) :
  py_repeat None (n_modes self) = XW_list_after self rho ph h cache v [].
Proof.
  unfold XW_list_after. rewrite py_repeat_range. apply map_ext. intros k.
  rewrite decide_False; [reflexivity|]. intros Hin. inversion Hin.
Qed.

End ViewOrder.

(** ** The loop over the modes, short of a dimension *)

(** The state the statements before the loops leave on a fresh graph. *)
Lemma params_prelude (self : SFMCore) (h : heap) :
  tf_variables h = ∅ ->
  exists h1,
    params_state self [] [] h h1 /\
    _init_learnable_params self h =
    (for_ (range (n_modes self)) (create_co_mode self) ;;
     for_ (enumerate (view_list self)) (fun '(i, modes) =>
       let v := i + 1 in
       for_ (py_set modes) (fun m =>
         create_view_bias self v m ;;
         create_view_embedding self v m))) h1.
Proof.
  intros Hempty. unfold _init_learnable_params.
  unfold bind at 1. unfold modify at 1.
  unfold bind at 1. unfold modify at 1.
  unfold bind at 1. unfold modify at 1.
  unfold bind at 1. unfold tf.get_variable at 1.
  cbn [tf_variables set_layer_norm_S set_Bias set_W]. rewrite Hempty, lookup_empty.
  unfold bind at 1. unfold modify at 1.
  unfold bind at 1. unfold modify at 1.
  eexists. split; [|reflexivity].
  constructor; cbn.
  - unfold W_after, table. rewrite py_repeat_range. apply map_ext. intros v.
    apply map_ext. intros k. rewrite decide_False; [reflexivity|].
    intros [_ Hin]. inversion Hin.
  - unfold Bias_after, table. rewrite py_repeat_range. apply map_ext. intros v.
    apply map_ext. intros k. rewrite decide_False; [reflexivity|].
    intros Hin. inversion Hin.
  - unfold S_after. rewrite py_repeat_range. apply map_ext. intros k.
    rewrite decide_False; [reflexivity|]. intros Hin. inversion Hin.
  - reflexivity.
  - reflexivity.
  - reflexivity.
  - unfold warnings. destruct (decide (view_rank self > 0)); simpl; rewrite app_nil_r; reflexivity.
  - intros key Hkey. cbn in Hkey.
    destruct (decide (key = "embedding_phi")) as [->|Hne]; [apply elem_of_cons; auto|].
    rewrite lookup_insert_ne, lookup_empty in Hkey by congruence.
    destruct Hkey as [? Hkey]. discriminate.
Qed.

Lemma range_split (n k : Z) :
  0 <= k < n -> exists post, range n = (range k ++ k :: post)%list.
Proof.
  intros Hk. unfold range.
  replace (Z.to_nat n) with (Z.to_nat k + S (Z.to_nat (n - k - 1)))%nat by lia.
  rewrite seq_app, map_app. cbn [seq map]. rewrite Nat.add_0_l, Z2Nat.id by lia.
  eauto.
Qed.

Lemma for_raises_at {A} (l1 l2 : list A) (x : A) (body : A -> M unit)
    (h h1 h2 : heap) (e : exn) :
  for_ l1 body h = (Ok tt, h1) -> body x h1 = (Raise e, h2) ->
  for_ (l1 ++ x :: l2)%list body h = (Raise e, h2).
Proof.
  intros H1 H2. rewrite for_app. unfold bind. rewrite H1. cbn [for_]. unfold bind.
  rewrite H2. reflexivity.
Qed.

Lemma py_getitem_past_end {A} (l : list A) : py_getitem l (Z.of_nat (length l)) = Raise IndexError.
Proof.
  unfold py_getitem, py_index. rewrite decide_False by lia. rewrite decide_False by lia.
  reflexivity.
Qed.

(** ** The blocks of [build_graph] *)

Lemma build_graph_params (self : SFMCore) (rho : valuation) (fd : feed_dict) (h : heap) :
  well_formed self ->
  exists h2,
    params_state self (range (n_modes self)) (view_pairs self) (set_tf_variables ∅ h) h2 /\
    build_graph self rho fd h = build_blocks self rho fd h2.
Proof.
  intros Hwf. pose proof Hwf as ((nfl & Hnfl & _) & _).
  unfold build_graph. rewrite Hnfl.
  unfold bind at 1. unfold modify at 1. unfold bind at 1.
  match goal with |- context [_init_learnable_params self ?hh] => set (hs := hh) end.
  destruct (init_learnable_params_post self Hwf hs eq_refl) as (h2 & Hrun & Hps).
  rewrite Hrun. exists h2. split; [exact Hps|reflexivity].
Qed.

Lemma py_getitem_map_range {A} (f : Z -> A) (n m : Z) :
  0 <= m < n -> py_getitem (map f (range n)) m = Ok (f m).
Proof.
  intros Hm. rewrite <- (Z2Nat.id m) at 1 by lia. apply py_getitem_nat.
  rewrite list_lookup_fmap, range_lookup, decide_True by lia.
  simpl. rewrite Z2Nat.id by lia. reflexivity.
Qed.




Lemma matmul_wrapper_None (A : pyobj) (ty : string) (r : matrix) :
  matmul_wrapper A PyNone ty <> Ok r.
Proof.
  unfold matmul_wrapper. destruct (decide (ty = "dense")); [destruct A; discriminate|].
  destruct (decide (ty = "sparse")); [destruct A; discriminate|discriminate].
Qed.

Lemma view_mode_embedding_needs_table (self : SFMCore) (rho : valuation) (ph : placeholders)
    (h : heap) (v m : Z) (r : matrix) :
  getitem2 (W h) v m = Ok None -> _view_mode_embedding self rho ph h v m <> Ok r.
Proof.
  intros HW H. unfold _view_mode_embedding in H. destruct (isRelational self).
  - apply rbind_Ok in H as (mm & _ & H). rewrite HW in H. cbn [rbind tensor_of] in H.
    apply rbind_Ok in H as (E & H & _). exact (matmul_wrapper_None _ _ _ H).
  - apply rbind_Ok in H as (x & _ & H). rewrite HW in H. cbn [rbind tensor_of] in H.
    exact (matmul_wrapper_None _ _ _ H).
Qed.

Lemma build_blocks_Ok (self : SFMCore) (rho : valuation) (fd : feed_dict)
    (h h' : heap) (g : built) :
  build_blocks self rho fd h = (Ok g, h') ->
  exists ph fw h1, _init_placeholders self fd = Ok ph /\
    _init_main_block self rho ph h = (Ok fw, h1).
Proof.
  unfold build_blocks. intros H.
  apply bind_Ok in H as (ph & h1 & Hph & H). unfold lift in Hph. injection Hph as Hph <-.
  apply bind_Ok in H as (fw & h2 & Hfw & _). eauto.
Qed.

(** ** A build that completes *)

Lemma mapM_completes {A B} (f : A -> result B) (l : list A) :
  (forall x, x ∈ l -> exists y, f x = Ok y) -> exists ys, mapM f l = Ok ys.
Proof.
  induction l as [|x l IH]; intros H; [exists []; reflexivity|].
  destruct (H x) as [y Hy]; [apply elem_of_cons; auto|].
  destruct IH as [ys Hys]; [intros z Hz; apply H; apply elem_of_cons; auto|].
  exists (y :: ys). cbn [mapM]. rewrite Hy. cbn [rbind]. rewrite Hys. reflexivity.
Qed.

Lemma feature_dim_Ok (self : SFMCore) (m : Z) :
  well_formed self -> 0 <= m < n_modes self -> exists nf, feature_dim self m = Ok nf.
Proof.
  intros ((nfl & Hnfl & Hlen) & _) Hm.
  destruct (lookup_lt_is_Some_2 nfl (Z.to_nat m)) as [x Hx]; [lia|].
  exists x. unfold feature_dim. rewrite Hnfl. rewrite <- (Z2Nat.id m) by lia.
  apply py_getitem_nat. exact Hx.
Qed.

(** The placeholders of an input that is not relational. *)
Lemma init_placeholders_plain (self : SFMCore) (fd : feed_dict) :
  well_formed self -> isRelational self = false ->
  _init_placeholders self fd =
  Ok {| train_x := map (plain_input self fd) (range (n_modes self));
        mode_matrices := mode_matrices_attr self; train_y := feed_Y fd |}.
Proof.
  intros Hwf Hrel. unfold _init_placeholders.
  rewrite (mapM_values _ (fun i => (plain_input self fd i, PyNone))).
  2:{ intros i Hi. apply range_elem in Hi. unfold placeholder_pair, plain_input.
      rewrite Hrel. destruct (decide (input_type self = "dense")); [|reflexivity].
      destruct (feature_dim_Ok self i Hwf Hi) as [nf ->]. reflexivity. }
  cbn [rbind]. rewrite Hrel, map_map. reflexivity.
Qed.

Lemma tf_add_dense (a c : matrix) : exists s, tf.add (Dense a) (Dense c) = Ok s.
Proof. destruct c as [|brow [|row c]]; cbn; eauto. Qed.

Section Completes.

Context (self : SFMCore) (rho : valuation) (fd : feed_dict) (h0 h : heap).
Hypothesis Hwf : well_formed self.
Hypothesis Hps : params_state self (range (n_modes self)) (view_pairs self) h0 h.
Hypothesis Hrel : isRelational self = false.
Hypothesis Hty : input_type self = "dense" \/ input_type self = "sparse".

Let ph : placeholders :=
  {| train_x := map (plain_input self fd) (range (n_modes self));
     mode_matrices := mode_matrices_attr self; train_y := feed_Y fd |}.

Lemma plain_product (i : Z) (w : matrix) :
  exists r, matmul_wrapper (plain_input self fd i) (Dense w) (input_type self) = Ok r.
Proof.
  unfold matmul_wrapper, plain_input. destruct Hty as [Hd|Hs].
  - rewrite Hd. rewrite !decide_True by reflexivity. cbn. eauto.
  - rewrite Hs. rewrite !decide_False by discriminate. rewrite decide_True by reflexivity.
    cbn. eauto.
Qed.

Lemma shared_embedding_completes (m : Z) :
  m ∈ range (n_modes self) -> exists r, _view_mode_embedding self rho ph h 0 m = Ok r.
Proof.
  intros Hm. unfold _view_mode_embedding. rewrite Hrel. cbn [train_x ph].
  rewrite py_getitem_map_range by (apply range_elem; exact Hm). cbn [rbind].
  rewrite (params_state_shared_table self Hwf _ _ h m Hps Hm). cbn [rbind tensor_of].
  apply plain_product.
Qed.

Lemma view_block_completes (cache : gmap Z matrix) (k : nat) (modes : list Z) :
  view_rank self <= 0 ->
  (forall m, m ∈ range (n_modes self) -> is_Some (cache !! m)) ->
  view_list self !! k = Some modes -> modes <> [] ->
  exists pc, view_block self rho ph h cache (Z.of_nat k) modes = Ok pc.
Proof.
  intros Hvr Hcache Hk Hne.
  assert (Hrange : Forall (fun m => 1 <= m <= n_modes self) modes).
  { destruct Hwf as (_ & _ & Hmodes). rewrite list.Forall_forall in Hmodes.
    apply Hmodes. apply list_elem_of_lookup. eauto. }
  assert (Hfac : forall m, m ∈ modes ->
            view_mode_factor self rho ph h cache (Z.of_nat k + 1) m =
            Ok (factor_value self rho ph h cache (Z.of_nat k + 1) m)).
  { intros m Hm. unfold factor_value.
    assert (Hex : exists s, view_mode_factor self rho ph h cache (Z.of_nat k + 1) m = Ok s);
      [|destruct Hex as [s ->]; reflexivity].
    rewrite list.Forall_forall in Hrange. specialize (Hrange m Hm).
    unfold view_mode_factor. rewrite decide_False by lia.
    destruct (Hcache (m - 1)) as [e He]; [apply range_elem; lia|].
    unfold dict_getitem. rewrite He. cbn [rbind].
    rewrite (params_state_bias self Hwf _ _ h (Z.of_nat k + 1) m Hps)
      by (apply view_pairs_elem; exists k, modes; auto).
    cbn [rbind tensor_of]. apply tf_add_dense. }
  unfold view_block.
  rewrite (XW_list_after_nil self rho ph h cache (Z.of_nat k + 1)).
  rewrite (view_mode_loop_completes self rho ph h cache _ modes [] Hrange Hfac).
  cbn [rbind]. rewrite app_nil_l, XW_list_factors.
  destruct modes as [|m modes']; [contradiction|].
  assert (Hin : m ∈ view_slots self (m :: modes')).
  { apply view_slots_elem. split; [apply elem_of_cons; auto|].
    apply list.Forall_cons in Hrange as [Hm _]. exact Hm. }
  destruct (view_slots self (m :: modes')) as [|s slots]; [inversion Hin|].
  cbn [map tf.reduce_prod_pack rbind].
  unfold phi_column_matrix, phi_column. rewrite (ps_Phi _ _ _ _ _ Hps). cbn [rbind].
  unfold matmul_wrapper. rewrite decide_True by reflexivity. cbn [tf.matmul rbind]. eauto.
Qed.

Lemma main_outputs_completes :
  view_rank self <= 0 -> 1 <= n_modes self ->
  Forall (fun modes => modes <> []) (view_list self) ->
  exists r, main_outputs self rho ph h = Ok r.
Proof.
  intros Hvr Hn Hne. unfold main_outputs. cbn [train_x ph].
  rewrite py_getitem_map_range by lia. cbn [rbind].
  destruct (cache_values (_view_mode_embedding self rho ph h 0)
              (fun m => match _view_mode_embedding self rho ph h 0 m with
                        | Ok r => r | Raise _ => [] end)
              (range (n_modes self)) ∅) as (cache & Hc & Hlook).
  { intros m Hm. destruct (shared_embedding_completes m Hm) as [r ->]. reflexivity. }
  fold ph. rewrite Hc. cbn [rbind].
  destruct (mapM_completes (fun '(i, modes) => view_block self rho ph h cache i modes)
              (enumerate (view_list self))) as [views Hviews].
  { intros [i modes] Hin. apply enumerate_elem in Hin as (k & -> & Hk).
    apply (view_block_completes cache k modes Hvr); [|exact Hk|].
    - intros m Hm. rewrite (Hlook m Hm). eauto.
    - rewrite list.Forall_forall in Hne. apply Hne. apply list_elem_of_lookup. eauto. }
  rewrite Hviews. cbn [rbind]. eauto.
Qed.

End Completes.

(** ** [_init_regular] on the tables of [_init_learnable_params] *)


Section AfterInit.

Context (self : SFMCore) (rho : valuation) (h0 h : heap).
Hypothesis Hwf : well_formed self.
Hypothesis Hps : params_state self (range (n_modes self)) (view_pairs self) h0 h.





End AfterInit.

(** ** The variable store only grows *)

Lemma keeps_ret {A} (a : A) : keeps_store (ret a).
Proof. intros h. reflexivity. Qed.

Lemma keeps_pure {A} (f : heap -> result A) : keeps_store (fun h => (f h, h)).
Proof. intros h. reflexivity. Qed.

Lemma keeps_modify (f : heap -> heap) :
  (forall h, tf_variables (f h) = tf_variables h) -> keeps_store (modify f).
Proof. intros Hf h. unfold modify. cbn. rewrite Hf. reflexivity. Qed.

Lemma keeps_bind {A B} (c : M A) (k : A -> M B) :
  keeps_store c -> (forall a, keeps_store (k a)) -> keeps_store (bind c k).
Proof.
  intros Hc Hk h. unfold bind. specialize (Hc h).
  destruct (c h) as [[a|e] h1]; cbn in *; [|exact Hc].
  etransitivity; [exact Hc|apply Hk].
Qed.

Lemma keeps_try_except (body handler : M unit) :
  keeps_store body -> keeps_store handler -> keeps_store (try_except body handler).
Proof.
  intros Hb Hh h. unfold try_except. specialize (Hb h).
  destruct (body h) as [[a|e] h1]; cbn in *; [exact Hb|].
  etransitivity; [exact Hb|apply Hh].
Qed.

Lemma keeps_for {A} (l : list A) (body : A -> M unit) :
  (forall x, keeps_store (body x)) -> keeps_store (for_ l body).
Proof.
  intros Hb. induction l as [|x l IH]; cbn [for_]; [apply keeps_ret|].
  apply keeps_bind; [apply Hb|intros _; exact IH].
Qed.

Lemma keeps_get_variable (name : string) (shape : list Z) (tr : bool) :
  keeps_store (tf.get_variable name shape tr).
Proof.
  intros h. unfold tf.get_variable.
  destruct (tf_variables h !! name) as [x|] eqn:E; cbn; [reflexivity|].
  apply insert_subseteq. exact E.
Qed.

Lemma keeps_create_co_mode (self : SFMCore) (m : Z) : keeps_store (create_co_mode self m).
Proof.
  unfold create_co_mode.
  repeat first
    [ apply keeps_bind; [|intros ?]
    | apply keeps_get_variable
    | apply keeps_pure
    | apply keeps_modify; intros ?; reflexivity ].
Qed.

Lemma keeps_create_view_bias (self : SFMCore) (v m : Z) :
  keeps_store (create_view_bias self v m).
Proof.
  unfold create_view_bias. apply keeps_try_except.
  - repeat first
      [ apply keeps_bind; [|intros ?]
      | apply keeps_get_variable
      | apply keeps_pure
      | apply keeps_modify; intros ?; reflexivity ].
  - apply keeps_modify. intros ?. reflexivity.
Qed.

Lemma keeps_create_view_embedding (self : SFMCore) (v m : Z) :
  keeps_store (create_view_embedding self v m).
Proof.
  intros h. rewrite create_view_embedding_effect.
  destruct (decide (view_rank self > 0)); reflexivity.
Qed.

Lemma keeps_param_loops (self : SFMCore) :
  keeps_store
    (for_ (range (n_modes self)) (create_co_mode self) ;;
     for_ (enumerate (view_list self)) (fun '(i, modes) =>
       let v := i + 1 in
       for_ (py_set modes) (fun m =>
         create_view_bias self v m ;;
         create_view_embedding self v m))).
Proof.
  apply keeps_bind; [apply keeps_for, keeps_create_co_mode|]. intros _.
  apply keeps_for. intros [i modes]. apply keeps_for. intros m.
  apply keeps_bind; [apply keeps_create_view_bias|]. intros _.
  apply keeps_create_view_embedding.
Qed.

(** ** The placeholders *)

Lemma mapM_Ok_map {A B} (f : A -> result B) (g : A -> B) (l : list A) (ys : list B) :
  (forall x y, f x = Ok y -> y = g x) -> mapM f l = Ok ys -> ys = map g l.
Proof.
  intros Hg. revert ys. induction l as [|x l IH]; intros ys H.
  - injection H as <-. reflexivity.
  - cbn [mapM] in H. apply rbind_Ok in H as (y & Hx & H).
    apply rbind_Ok in H as (ys' & Hl & [= <-]).
    cbn [map]. rewrite (Hg x y Hx), (IH ys' Hl). reflexivity.
Qed.

Lemma placeholder_pair_Ok (self : SFMCore) (fd : feed_dict) (i : Z) (y : pyobj * pyobj) :
  placeholder_pair self fd i = Ok y ->
  y = (if isRelational self then Indices (feed_X_indices fd i) else plain_input self fd i,
       if isRelational self then mode_matrix self fd i else PyNone).
Proof.
  unfold placeholder_pair, plain_input, mode_matrix, sparse_input. cbv zeta.
  destruct (decide (input_type self = "dense")), (isRelational self); intros Hy;
    try (apply rbind_Ok in Hy as (nf & _ & Hy)); injection Hy as <-; reflexivity.
Qed.

(** ** More models *)



(** ** Builds from different states *)

Section Respects.

Context (R : heap -> heap -> Prop).










End Respects.
















(** ** The accumulator in a build *)




(** * The specification, statement by statement *)

(** ** C1: the output *)

(** C1, counterexample.  One mode, one view, [view_rank = 0]; the global bias
    holds its initial [0], the bias of the view has been trained to [1].  The
    built model outputs [(x W + Bias) Phi], which is [[14], [22]]; the claimed
    [x W Phi + b] is [[12], [20]]. *)
Lemma single_mode_output_differs_from_claim :
  let r := build_graph single_mode_built single_mode_valuation single_mode_feed empty_heap in
  built_outputs r = Ok [[of_Z 14]; [of_Z 22]] /\
  built_claimed_outputs single_mode_built single_mode_valuation r = Ok [[of_Z 12]; [of_Z 20]] /\
  built_outputs r <> built_claimed_outputs single_mode_built single_mode_valuation r.
Proof.
  split; [by_computation|]. split; [by_computation|]. differ_by_computation.
Qed.

(** C1, as amended.  The output of every model the main block builds is the
    sum over the views of the per-view contributions, each the product
    embedding of the view times its column of [Phi]; the global bias is no
    term of it (nor does the output depend on what [self.b] is bound to).  For
    one mode in one view with [view_rank = 0], the output is the shared
    embedding of the mode with the bias of the view added, times
    [Phi[:, 0]]. *)
Theorem output_is_sum_of_view_contributions
    (self : SFMCore) (rho : valuation) (ph : placeholders) (h h' : heap) (fw : forward) :
  _init_main_block self rho ph h = (Ok fw, h') ->
  outputs fw = tf.reduce_sum_0 (view_contribution fw) /\
  length (view_contribution fw) = length (view_list self) /\
  (forall (i : nat) (c : matrix),
     view_contribution fw !! i = Some c ->
     exists p phi,
       prod_embedding fw !! i = Some p /\
       phi_column_matrix rho h (Z.of_nat i) = Ok phi /\
       tf.matmul (Dense p) (Dense phi) = Ok c) /\
  (forall x : option variable,
     main_outputs self rho ph (set_b x h) = main_outputs self rho ph h) /\
  (view_list self = [[1]] -> n_modes self = 1 -> view_rank self = 0 ->
   exists E0 bias s phi,
     _view_mode_embedding self rho ph h 0 0 = Ok E0 /\
     getitem2 (Bias h) 1 0 = Ok bias /\
     tf.add (Dense E0) (tensor_of rho bias) = Ok s /\
     phi_column_matrix rho h 0 = Ok phi /\
     tf.matmul (Dense s) (Dense phi) = Ok (outputs fw)).
Proof.
  intros H. apply init_main_block_Ok in H as (cache & views & Hm & _ & Hp & Hc & _).
  pose proof (main_outputs_Ok _ _ _ _ _ _ _ Hm) as [Hviews Hout].
  destruct (mapM_lookup _ _ _ Hviews) as [Hlen Hlook].
  split; [rewrite Hc; exact Hout|]. split.
  { rewrite Hc, length_map, Hlen. apply enumerate_length. }
  split.
  - intros i c Hi. rewrite Hc, list_lookup_fmap in Hi.
    destruct (views !! i) as [[p c']|] eqn:Hv; simpl in Hi; [|discriminate].
    injection Hi as ->.
    destruct (Hlook i (p, c) Hv) as ([j modes] & Hj & Hb).
    apply enumerate_lookup in Hj as [-> _].
    apply view_block_Ok in Hb as (XW_list & phi & _ & _ & Hphi & Hmat).
    exists p, phi. rewrite Hp, list_lookup_fmap, Hv. auto.
  - split; [intros x; reflexivity|].
    intros Hvl Hnm Hvr. unfold main_outputs in Hm. rewrite Hvl, Hnm in Hm.
    change (range 1) with [0] in Hm. change (enumerate [[1]]) with [(0, [1])] in Hm.
    apply rbind_Ok in Hm as (x0 & _ & Hm).
    apply rbind_Ok in Hm as (cache' & Hcache & Hm).
    cbn [foldR] in Hcache.
    apply rbind_Ok in Hcache as (cache1 & Hcache & [= <-]).
    apply rbind_Ok in Hcache as (E0 & HE0 & [= <-]).
    apply rbind_Ok in Hm as (views' & Hv & [= <- <- Ho]).
    cbn [mapM] in Hv.
    apply rbind_Ok in Hv as ([p c] & Hb & [= <-]).
    apply view_block_Ok in Hb as (XW_list & phi & HXW & Hpr & Hphi & Hmat).
    rewrite Hnm in HXW. change (py_repeat None 1) with [@None matrix] in HXW.
    cbn [foldR] in HXW. apply rbind_Ok in HXW as (XW1 & Hstep & [= <-]).
    unfold view_mode_step in Hstep. rewrite Hvr in Hstep.
    rewrite decide_False in Hstep by lia.
    change (0 + 1 - 1) with 0 in Hstep. change (1 - 1) with 0 in Hstep.
    unfold dict_getitem in Hstep. rewrite lookup_insert_eq in Hstep.
    cbn [rbind] in Hstep.
    change (py_setitem [None] 0 (Some E0)) with (Ok [Some E0]) in Hstep.
    cbn [rbind] in Hstep.
    change (py_getitem [Some E0] 0) with (Ok (Some E0)) in Hstep.
    cbn [rbind] in Hstep.
    apply rbind_Ok in Hstep as (bias & Hbias & Hstep).
    apply rbind_Ok in Hstep as (s & Hs & Hstep).
    change (py_setitem [Some E0] 0 (Some s)) with (Ok [Some s]) in Hstep.
    injection Hstep as <-.
    cbn in Hpr. injection Hpr as <-.
    cbn [map snd tf.reduce_sum_0 fold_left] in Ho. rewrite zero_plus_id in Ho. subst c.
    exists E0, bias, s, phi. auto.
Qed.

(** The main block of the single-mode model completes. *)
Lemma output_is_sum_of_view_contributions_witness :
  exists ph h fw h',
    _init_placeholders single_mode_built single_mode_feed = Ok ph /\
    _init_main_block single_mode_built single_mode_valuation ph h = (Ok fw, h') /\
    outputs fw = tf.reduce_sum_0 (view_contribution fw) /\
    length (view_contribution fw) = 1%nat.
Proof.
  destruct (_init_placeholders single_mode_built single_mode_feed) as [ph|e] eqn:Eph;
    [|vm_compute in Eph; discriminate].
  set (h := snd (_init_learnable_params single_mode_built empty_heap)).
  destruct (_init_main_block single_mode_built single_mode_valuation ph h)
    as [[fw|e] h'] eqn:Efw.
  - exists ph, h, fw, h'. split; [reflexivity|]. split; [exact Efw|].
    destruct (output_is_sum_of_view_contributions _ _ _ _ _ _ Efw) as (Hsum & Hlen & _).
    split; [exact Hsum|exact Hlen].
  - exfalso. vm_compute in Eph. injection Eph as <-. vm_compute in Efw. discriminate.
Defined.

(** ** C2: the view-specific tables *)

(** C2, the code at the failing input.  View specification [(1,2),(1,3)],
    [view_rank = 1]: after [_init_learnable_params] every slot of a view-specific
    table is still [None], no such variable is in the store, and each of the
    four creation attempts has printed its warning. *)
Theorem view_table_missing_after_init :
  let r := _init_learnable_params two_view_model empty_heap in
  view_rank two_view_model > 0 /\
  fst r = Ok tt /\
  getitem2 (W (snd r)) 1 0 = Ok None /\
  getitem2 (W (snd r)) 1 1 = Ok None /\
  getitem2 (W (snd r)) 2 0 = Ok None /\
  getitem2 (W (snd r)) 2 2 = Ok None /\
  tf_variables (snd r) !! "view_1_mode_1/embedding_init" = None /\
  stdout (snd r) = ["mode 1 shared in view 1"; "mode 2 shared in view 1";
                    "mode 1 shared in view 2"; "mode 3 shared in view 2"].
Proof.
  cbv zeta. split; [reflexivity|].
  repeat split; by_computation.
Qed.

(** ** C3: two views that share a mode *)

(** C3, counterexample.  View specification [(1,2),(1,3)], [view_rank = 1]:
    there is no tensor that view 1 created for mode 1 and view 2 reuses. *)
Lemma shared_mode_table_not_reused :
  ~ claimed_sharing (snd (_init_learnable_params two_view_model empty_heap)).
Proof.
  intros (t & H1 & _).
  assert (H : getitem2 (W (snd (_init_learnable_params two_view_model empty_heap))) 1 0 = Ok None)
    by by_computation.
  rewrite H in H1. clear H. discriminate H1.
Qed.

(** C3, as amended.  The variables of a (view, mode) pair live in a scope of
    their own, so two views that share a mode never meet on a name.  An
    attempt to create a view-specific table never raises: either nothing is
    printed, or the warning is printed and the tables and the variable store
    are as before (nothing is reused); the biases and the regularization
    accumulator are untouched either way.  On a fresh graph every pair of the
    specification gets its own bias variable. *)
Theorem view_tables_are_per_view :
  (forall v m v' m' : Z,
     view_mode_scope v m = view_mode_scope v' m' -> v = v' /\ m = m') /\
  (forall (self : SFMCore) (v m : Z) (h : heap),
     exists h', create_view_embedding self v m h = (Ok tt, h') /\
       Bias h' = Bias h /\ regularization h' = regularization h /\
       (stdout h' = stdout h \/
        (stdout h' = (stdout h ++ [mode_shared_msg m v])%list /\
         W h' = W h /\ tf_variables h' = tf_variables h))) /\
  (forall (self : SFMCore) (h : heap),
     well_formed self -> tf_variables h = ∅ ->
     exists h', _init_learnable_params self h = (Ok tt, h') /\
       regularization h' = regularization h /\
       forall v m, (v, m) ∈ view_pairs self ->
         getitem2 (Bias h') v (m - 1) = Ok (Some (bias_var self v m))).
Proof.
  split; [exact view_mode_scope_inj|]. split.
  - intros self v m h. rewrite create_view_embedding_effect.
    eexists. split; [reflexivity|].
    destruct (decide (view_rank self > 0)); cbn; auto 6.
  - intros self h Hwf Hempty.
    destruct (init_learnable_params_post self Hwf h Hempty) as (h' & Hrun & Hps).
    exists h'. split; [exact Hrun|]. split; [exact (ps_reg _ _ _ _ _ Hps)|].
    intros v m Hin. exact (params_state_bias self Hwf _ h h' v m Hps Hin).
Qed.

(** Both views of [(1,2),(1,3)] get a bias of their own for mode 1. *)
Lemma view_tables_are_per_view_witness :
  well_formed two_view_model /\ tf_variables empty_heap = ∅ /\
  exists h', _init_learnable_params two_view_model empty_heap = (Ok tt, h') /\
    getitem2 (Bias h') 1 0 = Ok (Some (bias_var two_view_model 1 1)) /\
    getitem2 (Bias h') 2 0 = Ok (Some (bias_var two_view_model 2 1)).
Proof.
  split; [exact two_view_model_well_formed|]. split; [reflexivity|].
  destruct view_tables_are_per_view as (_ & _ & Hinit).
  destruct (Hinit two_view_model empty_heap two_view_model_well_formed eq_refl)
    as (h' & Hrun & _ & Hbias).
  exists h'. split; [exact Hrun|]. split.
  - apply (Hbias 1 1). vm_compute. repeat constructor.
  - apply (Hbias 2 1). vm_compute. repeat constructor.
Defined.

(** ** C4: a failed norm computation *)




(** ** C5: the accumulated regularization *)

(** C5, counterexample.  On the single-mode model the accumulated
    regularization is [2 + 1/2 + 2 = 9/2]; with the norm of the column of
    [Phi] added as well it would be [13/2]. *)
Lemma phi_columns_not_accumulated :
  let h := snd (_init_learnable_params single_mode_built empty_heap) in
  let r := _init_regular single_mode_built single_mode_valuation h in
  fst r = Ok tt /\
  regularization (snd r) = Fin (Q2Qc (9 # 2)) /\
  fsum (claimed_regular_terms single_mode_built single_mode_valuation h) = Fin (Q2Qc (13 # 2)) /\
  regularization (snd r) <>
  fsum (claimed_regular_terms single_mode_built single_mode_valuation h).
Proof.
  cbv zeta. split; [by_computation|]. split; [by_computation|].
  split; [by_computation|]. differ_by_computation.
Qed.

(** C5, as amended.  Where every table the accumulator reads exists, the
    accumulated regularization is the sum of the configured norm over the
    shared table of every mode, the bias of every (view, mode) pair, the
    view-specific table of every pair when [view_rank > 0], and the mixing
    matrix as a whole.  The norms of the columns of [Phi] are computed and
    not added.  Nothing is printed. *)
Theorem regularization_is_sum_of_norms (self : SFMCore) (rho : valuation) (h : heap) :
  slots_populated self h ->
  exists h', _init_regular self rho h = (Ok tt, h') /\
    regularization h' = fsum (regular_terms self rho h) /\
    stdout h' = stdout h.
Proof.
  intros Hpop. rewrite (init_regular_sum self rho h Hpop).
  eexists. split; [reflexivity|]. split; reflexivity.
Qed.

(** The tables of the single-mode model all exist after parameter
    initialization. *)
Lemma regularization_is_sum_of_norms_witness :
  exists h h',
    _init_learnable_params single_mode_built empty_heap = (Ok tt, h) /\
    slots_populated single_mode_built h /\
    _init_regular single_mode_built single_mode_valuation h = (Ok tt, h') /\
    regularization h' = fsum (regular_terms single_mode_built single_mode_valuation h).
Proof.
  destruct (init_learnable_params_post single_mode_built single_mode_built_well_formed
              empty_heap eq_refl) as (h & Hrun & Hps).
  assert (Hpop : slots_populated single_mode_built h).
  { apply (slots_populated_after_init _ empty_heap);
      [exact single_mode_built_well_formed|simpl; lia|exact Hps]. }
  destruct (regularization_is_sum_of_norms single_mode_built single_mode_valuation h Hpop)
    as (h' & Hreg & Hsum & _).
  exists h, h'. auto.
Defined.

(** ** C6: the regularizer *)

(** C6. For every dense tensor [m], [_regularizer_func] returns the sum of the
    absolute values of the entries of [m] when [reg_type] is ['L1'] and half
    the sum of their squares for any other [reg_type]; on the values [-2, 3]
    these are [5] and [13/2]. *)
Theorem regularizer_func_norm :
  (forall (self : SFMCore) (m : matrix),
     _regularizer_func self (Dense m) =
     Ok (if decide (reg_type self = "L1")
         then fsum (map fabs (entries m))
         else fdiv (fsum (map (fun x => fmul x x) (entries m))) f2)) /\
  (forall self : SFMCore,
     _regularizer_func self (Dense [[of_Z (-2); of_Z 3]]) =
     Ok (if decide (reg_type self = "L1")
         then of_Z 5
         else Fin (Q2Qc (13 # 2)))).
Proof.
  split.
  - intros self m. unfold _regularizer_func.
    destruct (decide (reg_type self = "L1")); simpl.
    + unfold tf.reduce_sum. rewrite entries_map. reflexivity.
    + reflexivity.
  - intros self. unfold _regularizer_func.
    destruct (decide (reg_type self = "L1")); vm_compute; reflexivity.
Qed.

(** ** C7: the objective and its guard *)

(** C7. In every graph [build_graph] completes, the target is the mean of the
    per-example losses plus the regularization strength times the accumulated
    regularization; the tensor handed to the optimizer is the guarded one, which
    evaluates to the target when the target is finite and raises with the
    message ['NaN or Inf in target value'] when it is not. *)
Theorem target_is_guarded_objective
    (self : SFMCore) (rho : valuation) (fd : feed_dict) (h h' : heap) (g : built) :
  build_graph self rho fd h = (Ok g, h') ->
  let fw := built_forward g in
  let obj := built_objective g in
  target obj =
    fadd (tf.reduce_mean (loss_function self (outputs fw) (train_y (built_inputs g))))
         (fmul (reg self) (regularization h')) /\
  trainer g = Minimize (checked_target obj) /\
  checked_target obj =
    (if is_finite (target obj) then Ok (target obj)
     else Raise (InvalidArgumentError "NaN or Inf in target value")).
Proof.
  unfold build_graph. destruct (n_feature_list self); [|discriminate].
  intros H.
  apply bind_Ok in H as (_ & h1 & _ & H).
  apply bind_Ok in H as (_ & h2 & _ & H).
  apply bind_Ok in H as (ph & h3 & Hph & H).
  apply bind_Ok in H as (fw & h4 & Hfw & H).
  apply bind_Ok in H as (obj & h5 & Hobj & H).
  unfold ret in H. injection H as <- <-.
  unfold gets in Hobj. injection Hobj as <- <-.
  unfold _init_main_block in Hfw.
  apply bind_Ok in Hfw as (fwd & h6 & _ & Hfw).
  apply bind_Ok in Hfw as (_ & h7 & _ & Hfw).
  unfold ret in Hfw. injection Hfw as <- <-.
  simpl. auto.
Qed.

Lemma target_is_guarded_objective_witness :
  exists g h',
    build_graph single_mode_built single_mode_valuation
                single_mode_feed empty_heap = (Ok g, h') /\
    target (built_objective g) = Fin (Q2Qc (45 # 2)) /\
    trainer g = Minimize (Ok (Fin (Q2Qc (45 # 2)))).
Proof.
  destruct (build_graph single_mode_built single_mode_valuation
                        single_mode_feed empty_heap) as [[g|e] h'] eqn:E;
    [|vm_compute in E; discriminate].
  exists g, h'. split; [reflexivity|].
  pose proof (target_is_guarded_objective _ _ _ _ _ _ E) as (Ht & Htr & Hc).
  assert (Hg : Ok g = fst (build_graph single_mode_built
                  single_mode_valuation single_mode_feed empty_heap))
    by (rewrite E; reflexivity).
  assert (Hv : target (built_objective g) = Fin (Q2Qc (45 # 2))).
  { vm_compute in Hg. injection Hg as ->. vm_compute. reflexivity. }
  split; [exact Hv|].
  rewrite Htr, Hc, Hv. reflexivity.
Defined.

(** ** C8: the interaction primitive *)

(** C8. [matmul_wrapper] returns the dense matrix product under the tag
    ['dense'], the sparse-times-dense product under the tag ['sparse'], and
    raises for every other tag, whatever the operands. *)
Theorem matmul_wrapper_dispatch (A B : pyobj) :
  matmul_wrapper A B "dense" = tf.matmul A B /\
  matmul_wrapper A B "sparse" = tf.sparse_tensor_dense_matmul A B /\
  (forall optype : string,
     optype <> "dense" -> optype <> "sparse" ->
     matmul_wrapper A B optype =
     Raise (NameError "Unknown input type in matmul_wrapper")).
Proof.
  split; [reflexivity|]. split; [reflexivity|].
  intros optype Hd Hs. unfold matmul_wrapper.
  destruct (decide (optype = "dense")); [contradiction|].
  destruct (decide (optype = "sparse")); [contradiction|].
  reflexivity.
Qed.

Lemma matmul_wrapper_dispatch_witness :
  "relational" <> "dense" /\ "relational" <> "sparse" /\
  matmul_wrapper (Dense [[f1]]) (Dense [[f1]]) "relational" =
  Raise (NameError "Unknown input type in matmul_wrapper").
Proof.
  split; [discriminate|]. split; [discriminate|].
  apply (matmul_wrapper_dispatch (Dense [[f1]]) (Dense [[f1]])); discriminate.
Defined.

(** ** C9: the precondition of [build_graph] *)

(** C9. While [n_feature_list] is unset, [build_graph] raises at its first
    statement and leaves the state as it found it: no variable is allocated,
    no attribute assigned, nothing printed.  That is the state [__init__]
    leaves the object in, so building before [set_num_features] fails. *)
Theorem build_graph_requires_feature_dims
    (self : SFMCore) (rho : valuation) (fd : feed_dict) (h : heap) :
  n_feature_list self = None ->
  build_graph self rho fd h = (Raise AssertionError, h).
Proof.
  intros Hnone. unfold build_graph. rewrite Hnone. reflexivity.
Qed.

Lemma build_graph_requires_feature_dims_witness :
  n_feature_list single_mode_model = None /\
  build_graph single_mode_model single_mode_valuation single_mode_feed empty_heap =
  (Raise AssertionError, empty_heap).
Proof.
  split; [reflexivity|].
  apply (build_graph_requires_feature_dims single_mode_model); reflexivity.
Defined.

(** ** C10: duplicate modes in a view *)

(** C10.  The loops over [set(modes)] go through the (view, mode) pairs of
    the specification, each once, however often a tuple lists a mode.
    Parameter initialization makes one attempt per pair: one bias variable per
    pair, no bias warning, and the warnings printed are those of the pairs,
    each once.  The loop of the main block goes through the tuple as it is
    written, and a mode listed again is assigned to its slot again: where the
    factor of every distinct mode of a view can be computed, the view's block
    is the product of these factors, one per distinct mode, projected on the
    view's column of [Phi], whatever the tuple repeats; and a block that
    completes has this product.  The regularization accumulator makes one
    pass over the pairs. *)
Theorem duplicate_modes_are_collapsed (self : SFMCore) (rho : valuation) :
  well_formed self ->
  NoDup (view_pairs self) /\
  (forall v m, (v, m) ∈ view_pairs self <->
     exists (k : nat) (modes : list Z),
       view_list self !! k = Some modes /\ v = Z.of_nat k + 1 /\ m ∈ modes) /\
  (forall h,
     for_ (enumerate (view_list self)) (fun '(i, modes) =>
       let v := i + 1 in
       for_ (py_set modes) (fun m =>
         create_view_bias self v m ;; create_view_embedding self v m)) h =
     for_ (view_pairs self) (fun vm =>
       create_view_bias self (fst vm) (snd vm) ;;
       create_view_embedding self (fst vm) (snd vm)) h) /\
  (forall h0, tf_variables h0 = ∅ ->
     exists h out, _init_learnable_params self h0 = (Ok tt, h) /\
       stdout h = (stdout h0 ++ out)%list /\
       out ≡ₚ warnings self (view_pairs self) /\
       forall v m, (v, m) ∈ view_pairs self ->
         getitem2 (Bias h) v (m - 1) = Ok (Some (bias_var self v m))) /\
  (forall (ph : placeholders) (h : heap) (cache : gmap Z matrix) (k : nat)
          (modes : list Z),
     view_list self !! k = Some modes ->
     NoDup (view_slots self modes) /\
     (forall m, m ∈ view_slots self modes <-> m ∈ modes) /\
     (forall fs,
        mapM (view_mode_factor self rho ph h cache (Z.of_nat k + 1))
             (view_slots self modes) = Ok fs ->
        view_block self rho ph h cache (Z.of_nat k) modes =
        rbind (tf.reduce_prod_pack fs) (fun p =>
        rbind (phi_column_matrix rho h (Z.of_nat k)) (fun phi =>
        rbind (matmul_wrapper (Dense p) (Dense phi) "dense") (fun c => Ok (p, c))))) /\
     (forall p c,
        view_block self rho ph h cache (Z.of_nat k) modes = Ok (p, c) ->
        exists fs,
          mapM (view_mode_factor self rho ph h cache (Z.of_nat k + 1))
               (view_slots self modes) = Ok fs /\
          tf.reduce_prod_pack fs = Ok p)) /\
  (forall (acc : option float32) (h : heap),
     foldM (fun acc '(i, modes) =>
              foldM (regular_view_mode self rho (i + 1)) (py_set modes) acc)
           (enumerate (view_list self)) acc h =
     foldM (fun acc vm => regular_view_mode self rho (fst vm) acc (snd vm))
           (view_pairs self) acc h) /\
  (forall h, slots_populated self h ->
     exists h', _init_regular self rho h = (Ok tt, h') /\
       regularization h' = fsum (regular_terms self rho h)).
Proof.
  intros Hwf. split; [apply view_pairs_NoDup|]. split; [apply view_pairs_elem|].
  split; [|split; [|split; [|split]]].
  - intros h.
    exact (nested_view_loop self
             (fun v m => create_view_bias self v m ;; create_view_embedding self v m) h).
  - intros h0 Hempty.
    destruct (init_learnable_params_post self Hwf h0 Hempty) as (h & Hrun & Hps).
    exists h, (warnings self (view_pairs self)). split; [exact Hrun|].
    split; [exact (ps_out _ _ _ _ _ Hps)|]. split; [reflexivity|].
    intros v m Hin. exact (params_state_bias self Hwf _ h0 h v m Hps Hin).
  - intros ph h cache k modes Hk.
    assert (Hrange : Forall (fun m => 1 <= m <= n_modes self) modes).
    { destruct Hwf as (_ & _ & Hmodes). rewrite list.Forall_forall in Hmodes.
      apply Hmodes. apply list_elem_of_lookup. eauto. }
    assert (Hslots : forall m, m ∈ view_slots self modes <-> m ∈ modes).
    { intros m. rewrite view_slots_elem. split; [tauto|]. intros Hm. split; [exact Hm|].
      rewrite list.Forall_forall in Hrange. auto. }
    split; [apply view_slots_NoDup|]. split; [exact Hslots|]. split.
    + intros fs Hfs. unfold view_block.
      rewrite (XW_list_after_nil self rho ph h cache (Z.of_nat k + 1)).
      rewrite view_mode_loop_completes; [|exact Hrange|].
      2:{ intros m Hm. apply Hslots in Hm.
          destruct (mapM_Ok_elem _ _ _ m Hfs Hm) as [y Hy].
          unfold factor_value. rewrite Hy. reflexivity. }
      cbn [rbind]. rewrite app_nil_l, XW_list_factors.
      rewrite <- (mapM_Ok_map _ (factor_value self rho ph h cache (Z.of_nat k + 1)) _ _
                    (fun x y Hxy => eq_sym (f_equal (fun r => match r with
                                                              | Ok s => s
                                                              | Raise _ => []
                                                              end) Hxy)) Hfs).
      reflexivity.
    + intros p c Hb.
      exact (view_block_factors self rho ph h cache _ modes p c Hrange Hb).
  - intros acc h. exact (nested_view_fold self (regular_view_mode self rho) acc h).
  - intros h Hpop. rewrite (init_regular_sum self rho h Hpop).
    eexists. split; reflexivity.
Qed.

(** The view [(1, 1, 2)] has the two pairs [(1, 1)] and [(1, 2)] and the two
    slots 1 and 2.  With the inputs 3 and 5, tables of 2 and the biases 1
    and 2, the factors are [3 * 2 + 1 = 7] and [5 * 2 + 2 = 12] and the product
    is [7 * 12 = 84]; with mode 1 taken twice it would be 588.  The build of
    the model has this product. *)
Lemma duplicate_modes_are_collapsed_witness :
  well_formed dup_model /\
  view_pairs dup_model = [(1, 1); (1, 2)] /\
  view_slots dup_model [1; 1; 2] = [1; 2] /\
  NoDup (view_pairs dup_model) /\
  (exists h, _init_learnable_params dup_model empty_heap = (Ok tt, h) /\ stdout h = [] /\
     let cache : gmap Z matrix := <[0 := [[of_Z 6]]]> (<[1 := [[of_Z 10]]]> ∅) in
     mapM (view_mode_factor dup_model single_mode_valuation dup_inputs h cache 1) [1; 2] =
       Ok [[[of_Z 7]]; [[of_Z 12]]] /\
     view_block dup_model single_mode_valuation dup_inputs h cache 0 [1; 1; 2] =
       Ok ([[of_Z 84]], [[of_Z 168]])) /\
  exists g h', build_graph dup_model single_mode_valuation dup_feed empty_heap = (Ok g, h') /\
    built_inputs g = dup_inputs /\
    prod_embedding (built_forward g) = [[[of_Z 84]]].
Proof.
  split; [exact dup_model_well_formed|]. split; [reflexivity|]. split; [reflexivity|].
  destruct (duplicate_modes_are_collapsed dup_model single_mode_valuation
              dup_model_well_formed) as (Hnd & _ & _ & Hinit & Hblock & _).
  split; [exact Hnd|]. split.
  - destruct (Hinit empty_heap eq_refl) as (h & out & Hrun & Hout & Hperm & _).
    exists h. split; [exact Hrun|]. split.
    { rewrite Hout. apply Permutation_nil_r in Hperm. rewrite Hperm. reflexivity. }
    intros cache.
    assert (Hfs : mapM (view_mode_factor dup_model single_mode_valuation dup_inputs h cache
                          (Z.of_nat 0 + 1)) (view_slots dup_model [1; 1; 2]) =
                  Ok [[[of_Z 7]]; [[of_Z 12]]]).
    { replace h with (snd (_init_learnable_params dup_model empty_heap))
        by (rewrite Hrun; reflexivity). by_computation. }
    split; [exact Hfs|].
    destruct (Hblock dup_inputs h cache 0%nat [1; 1; 2] eq_refl) as (_ & _ & Hprod & _).
    change 0 with (Z.of_nat 0). rewrite (Hprod _ Hfs).
    replace h with (snd (_init_learnable_params dup_model empty_heap))
      by (rewrite Hrun; reflexivity). by_computation.
  - destruct (build_graph dup_model single_mode_valuation dup_feed empty_heap)
      as [[g|e] h'] eqn:Hb; [|exfalso; vm_compute in Hb; discriminate Hb].
    exists g, h'. split; [reflexivity|].
    assert (Hg : fst (build_graph dup_model single_mode_valuation dup_feed empty_heap) = Ok g)
      by (rewrite Hb; reflexivity).
    clear Hb Hinit Hblock. vm_compute in Hg. injection Hg as <-. split; reflexivity.
Defined.

(** * Further properties of the code *)

(** ** X1: [__init__] *)

(** X1. [__init__] raises [ValueError] exactly when the view list names no mode
    at all: it is empty, or every tuple of it is.  Otherwise the object keeps
    the view list, [n_views] is the number of tuples, [n_modes] is the largest
    mode listed (some view lists it and no view lists a larger one),
    [n_feature_list] is unset and [isRelational] is false. *)
Theorem init_counts_views_and_modes
    (vl : list (list Z)) (cr vr : Z) (fo : bool) (ty : string)
    (lf : matrix -> vector -> matrix) (rt : string) (rg sc : float32) :
  (concat vl = [] ->
   exists msg, __init__ vl cr vr fo ty lf rt rg sc = Raise (ValueError msg)) /\
  (concat vl <> [] ->
   exists self, __init__ vl cr vr fo ty lf rt rg sc = Ok self /\
     view_list self = vl /\
     n_views self = Z.of_nat (length vl) /\
     (exists modes, modes ∈ vl /\ n_modes self ∈ modes) /\
     (forall modes m, modes ∈ vl -> m ∈ modes -> m <= n_modes self) /\
     n_feature_list self = None /\ isRelational self = false).
Proof.
  unfold __init__. split.
  - intros ->. eexists. reflexivity.
  - intros Hne. destruct (concat vl) as [|a l] eqn:Hc; [contradiction|].
    cbn [py_max rbind]. eexists. split; [reflexivity|]. cbn.
    split; [reflexivity|]. split; [reflexivity|]. split.
    + pose proof (fold_max_elem l a) as Hin. rewrite <- Hc in Hin.
      apply elem_of_concat in Hin as (modes & Hm & Hin). eauto.
    + split; [|split; reflexivity]. intros modes m Hmodes Hm.
      assert (Hin : m ∈ a :: l).
      { rewrite <- Hc. apply elem_of_concat. eauto. }
      destruct (fold_max_ge l a) as [Ha Hl].
      apply elem_of_cons in Hin as [->|Hin]; auto.
Qed.

(** The views [(1,2),(1,3)]: two views, three modes. *)
Lemma init_counts_views_and_modes_witness :
  concat [[1; 2]; [1; 3]] <> [] /\
  exists self, __init__ [[1; 2]; [1; 3]] 2 1 true "dense" (fun out _ => out) "L2" f1 f2 = Ok self /\
    n_views self = 2 /\ 3 <= n_modes self.
Proof.
  split; [discriminate|].
  destruct (init_counts_views_and_modes [[1; 2]; [1; 3]] 2 1 true "dense"
              (fun out _ => out) "L2" f1 f2) as [_ H].
  destruct H as (self & Hinit & _ & Hv & _ & Hmax & _); [discriminate|].
  exists self. split; [exact Hinit|]. split; [exact Hv|].
  apply (Hmax [1; 3]).
  - apply elem_of_cons. right. apply elem_of_cons. left. reflexivity.
  - apply elem_of_cons. right. apply elem_of_cons. left. reflexivity.
Defined.

(** ** X2: the shared parameters and the biases *)

(** X2. On a fresh graph and for a well-formed configuration,
    [_init_learnable_params] completes and allocates [Phi] as 'embedding_phi'
    of shape [[co_rank + view_rank, n_views]], the scalar [b], and for every
    [m] of [range(n_modes)] the shared table 'co_mode_<m+1>/embedding_init'
    of shape [[n_feature_list[m], co_rank]] in [W[0][m]] and the scale vector
    'co_mode_<m+1>/layer_norm_S' of shape [[co_rank + view_rank]] in [S[m]],
    all of them trainable.  Row 0 of [Bias] stays [None]; row [v] holds the
    bias 'view_<v>_mode_<m>/bias' of shape [[1, co_rank + view_rank]],
    trainable exactly when [isFullOrder], for the modes [m] that view [v]
    lists, and [None] for the other modes. *)
Theorem shared_parameters_are_allocated (self : SFMCore) (h : heap) :
  well_formed self -> tf_variables h = ∅ ->
  exists h', _init_learnable_params self h = (Ok tt, h') /\
    Phi h' = Some (Var "embedding_phi" [co_rank self + view_rank self; n_views self] true) /\
    b h' = Some (Var "b" [] true) /\
    (forall m, 0 <= m < n_modes self ->
       exists nf, feature_dim self m = Ok nf /\
         getitem2 (W h') 0 m =
           Ok (Some (Var ("co_mode_" ++ str (m + 1) ++ "/embedding_init")
                         [nf; co_rank self] true)) /\
         py_getitem (layer_norm_S h') m =
           Ok (Some (Var ("co_mode_" ++ str (m + 1) ++ "/layer_norm_S")
                         [co_rank self + view_rank self] true)) /\
         getitem2 (Bias h') 0 m = Ok None) /\
    (forall (k : nat) (modes : list Z) (m : Z),
       view_list self !! k = Some modes -> 1 <= m <= n_modes self ->
       getitem2 (Bias h') (Z.of_nat k + 1) (m - 1) =
       Ok (if decide (m ∈ modes)
           then Some (Var (("view_" ++ str (Z.of_nat k + 1) ++ "_mode_" ++ str m) ++ "/bias")
                          [1; co_rank self + view_rank self] (isFullOrder self))
           else None)).
Proof.
  intros Hwf Hempty.
  destruct (init_learnable_params_post self Hwf h Hempty) as (h' & Hrun & Hps).
  pose proof Hwf as ((nfl & Hnfl & Hlen) & Hnv & Hmodes).
  exists h'. split; [exact Hrun|].
  split; [exact (ps_Phi _ _ _ _ _ Hps)|]. split; [exact (ps_b _ _ _ _ _ Hps)|]. split.
  - intros m Hm.
    destruct (lookup_lt_is_Some_2 nfl (Z.to_nat m)) as [x Hx]; [lia|].
    exists x. split; [|split; [|split]].
    + unfold feature_dim. rewrite Hnfl. rewrite <- (Z2Nat.id m) by lia.
      apply py_getitem_nat. exact Hx.
    + rewrite (params_state_shared_table self Hwf _ _ h' m Hps) by (apply range_elem; lia).
      unfold co_var. rewrite Hnfl. simpl. rewrite Hx. reflexivity.
    + rewrite (ps_S _ _ _ _ _ Hps). unfold S_after.
      rewrite py_getitem_map_range by lia.
      rewrite decide_True by (apply range_elem; lia). reflexivity.
    + rewrite (ps_Bias _ _ _ _ _ Hps). unfold Bias_after.
      rewrite getitem2_table by lia. rewrite decide_False; [reflexivity|].
      intros Hin. apply (view_pairs_in_range self 0 (m + 1) Hwf) in Hin. lia.
  - intros k modes m Hk Hm.
    assert (Hkv : 0 <= Z.of_nat k + 1 < n_views self + 1).
    { apply lookup_lt_Some in Hk. lia. }
    rewrite (ps_Bias _ _ _ _ _ Hps). unfold Bias_after.
    rewrite getitem2_table by lia. replace (m - 1 + 1) with m by lia.
    destruct (decide (m ∈ modes)) as [Hin|Hn].
    + rewrite decide_True; [reflexivity|]. apply view_pairs_elem. exists k, modes. auto.
    + rewrite decide_False; [reflexivity|]. intros Hp.
      apply view_pairs_elem in Hp as (k' & modes' & Hk' & Heq & Hin).
      assert (k' = k) by lia. subst k'. rewrite Hk in Hk'. injection Hk' as <-. contradiction.
Qed.

(** The views [(1,2),(1,3)]: [Phi] has three rows and two columns, and view
    2 has no bias for mode 2. *)
Lemma shared_parameters_are_allocated_witness :
  well_formed two_view_model /\ tf_variables empty_heap = ∅ /\
  exists h', _init_learnable_params two_view_model empty_heap = (Ok tt, h') /\
    Phi h' = Some (Var "embedding_phi" [3; 2] true) /\
    getitem2 (Bias h') 2 1 = Ok None.
Proof.
  split; [exact two_view_model_well_formed|]. split; [reflexivity|].
  destruct (shared_parameters_are_allocated two_view_model empty_heap
              two_view_model_well_formed eq_refl) as (h' & Hrun & Hphi & _ & _ & Hbias).
  exists h'. split; [exact Hrun|]. split; [exact Hphi|].
  apply (Hbias 1%nat [1; 3] 2); [reflexivity|simpl; lia].
Defined.

(** ** X3: parameters are created once per graph *)

(** X3. [_init_learnable_params] cannot run twice on one graph.  After a call
    that completed, whatever the configuration, a second call raises
    [ValueError]: the variable store already holds 'embedding_phi'.  By then
    it has reset [W], [Bias] and [S] to [None] throughout, while the variable
    store and [Phi] are as the first call left them. *)
Theorem second_init_on_a_graph_is_refused (self : SFMCore) (h h1 : heap) :
  _init_learnable_params self h = (Ok tt, h1) ->
  exists msg h2,
    _init_learnable_params self h1 = (Raise (ValueError msg), h2) /\
    tf_variables h2 = tf_variables h1 /\ Phi h2 = Phi h1 /\
    W h2 = map (fun _ => py_repeat None (n_modes self)) (range (n_views self + 1)) /\
    Bias h2 = map (fun _ => py_repeat None (n_modes self)) (range (n_views self + 1)) /\
    layer_norm_S h2 = py_repeat None (n_modes self).
Proof.
  intros H.
  assert (Hphi : is_Some (tf_variables h1 !! "embedding_phi")).
  { unfold _init_learnable_params in H.
    apply bind_Ok in H as (_ & ha & _ & H).
    apply bind_Ok in H as (_ & hb & _ & H).
    apply bind_Ok in H as (_ & hc & _ & H).
    apply bind_Ok in H as (phi & hd & Hget & H).
    apply bind_Ok in H as (ue & he & He & H).
    apply bind_Ok in H as (uf & hf & Hf & H).
    assert (Ee : he = set_Phi (Some phi) hd) by (unfold modify in He; congruence).
    assert (Ef : hf = set_b (Some (Var "b" [] true)) he) by (unfold modify in Hf; congruence).
    subst hf he.
    assert (Hd : tf_variables hd !! "embedding_phi" = Some phi).
    { unfold tf.get_variable in Hget.
      destruct (tf_variables hc !! "embedding_phi"); [discriminate|].
      injection Hget as <- <-. cbn. apply lookup_insert_eq. }
    assert (Hgrow : tf_variables hd ⊆ tf_variables (snd (@Ok unit tt, h1))).
    { rewrite <- H.
      exact (keeps_param_loops self (set_b (Some (Var "b" [] true)) (set_Phi (Some phi) hd))). }
    exists phi. eapply lookup_weaken; [exact Hd|exact Hgrow]. }
  destruct Hphi as [phi Hphi].
  unfold _init_learnable_params.
  unfold bind at 1. unfold modify at 1.
  unfold bind at 1. unfold modify at 1.
  unfold bind at 1. unfold modify at 1.
  unfold bind at 1. unfold tf.get_variable at 1.
  cbn [tf_variables set_layer_norm_S set_Bias set_W]. rewrite Hphi.
  eexists _, _. split; [reflexivity|]. cbn. auto 6.
Qed.

(** The single-mode model, initialized twice. *)
Lemma second_init_on_a_graph_is_refused_witness :
  exists h1 msg h2,
    _init_learnable_params single_mode_built empty_heap = (Ok tt, h1) /\
    _init_learnable_params single_mode_built h1 = (Raise (ValueError msg), h2).
Proof.
  destruct (_init_learnable_params single_mode_built empty_heap) as [[[]|e] h1] eqn:E.
  - destruct (second_init_on_a_graph_is_refused _ _ _ E) as (msg & h2 & H2 & _).
    exists h1, msg, h2. split; [reflexivity|exact H2].
  - exfalso. vm_compute in E. discriminate E.
Defined.

(** ** X4: too few feature dimensions *)

(** X4. With fewer feature dimensions than modes, [build_graph] raises
    [IndexError]: the loop over the modes creates the shared tables of the
    modes that have a dimension and fails at the first one that has none.
    Nothing has been printed by then and no bias has been created. *)
Theorem build_graph_needs_a_dimension_per_mode
    (self : SFMCore) (rho : valuation) (fd : feed_dict) (h : heap) (nfl : list Z) :
  n_feature_list self = Some nfl ->
  Z.of_nat (length nfl) < n_modes self ->
  0 <= n_views self ->
  exists h', build_graph self rho fd h = (Raise IndexError, h') /\
    stdout h' = stdout h /\
    Bias h' = map (fun _ => py_repeat None (n_modes self)) (range (n_views self + 1)) /\
    forall m, 0 <= m < Z.of_nat (length nfl) ->
      getitem2 (W h') 0 m = Ok (Some (co_var self m)).
Proof.
  intros Hnfl Hlen Hnv. unfold build_graph. rewrite Hnfl.
  unfold bind at 1. unfold modify at 1. unfold bind at 1.
  match goal with |- context [_init_learnable_params self ?hh] => set (hs := hh) end.
  destruct (params_prelude self hs eq_refl) as (h1 & H1 & ->).
  destruct (range_split (n_modes self) (Z.of_nat (length nfl))) as [post Hsplit]; [lia|].
  destruct (for_prefix_inv (fun pre hh => params_state self pre [] hs hh)
              (range (Z.of_nat (length nfl))) (create_co_mode self)) with (h := h1)
    as (h2 & Hloop & H2).
  { intros pre m post' hh Hl HI.
    destruct (prefix_fresh _ _ _ _ (range_NoDup _) Hl) as [Hin Hfresh].
    apply range_elem in Hin.
    destruct (lookup_lt_is_Some_2 nfl (Z.to_nat m)) as [x Hx]; [lia|].
    apply (create_co_mode_round self nfl _ hh pre m x); auto; lia. }
  { exact H1. }
  assert (Hfail : create_co_mode self (Z.of_nat (length nfl)) h2 = (Raise IndexError, h2)).
  { unfold create_co_mode, bind, lift, feature_dim. rewrite Hnfl, py_getitem_past_end.
    reflexivity. }
  unfold bind at 1. rewrite Hsplit.
  rewrite (for_raises_at _ _ _ _ _ _ _ _ Hloop Hfail).
  exists h2. split; [reflexivity|]. destruct H2 as [HW HB HS HP Hb Hr Ho Hk].
  split; [rewrite Ho; cbn; unfold warnings; destruct (decide (view_rank self > 0)); cbn; apply app_nil_r|].
  split.
  - rewrite HB. unfold Bias_after, table. rewrite py_repeat_range.
    apply map_ext. intros v. apply map_ext. intros k.
    rewrite decide_False; [reflexivity|]. intros Hin. inversion Hin.
  - intros m Hm. rewrite HW. unfold W_after. rewrite getitem2_table by lia.
    rewrite decide_True; [reflexivity|]. split; [reflexivity|]. apply range_elem. lia.
Qed.

(** Three modes and one feature dimension. *)
Lemma build_graph_needs_a_dimension_per_mode_witness :
  n_modes two_view_model = 3 /\
  exists h', build_graph (set_num_features two_view_model [3]) single_mode_valuation
                         single_mode_feed empty_heap = (Raise IndexError, h').
Proof.
  split; [reflexivity|].
  destruct (build_graph_needs_a_dimension_per_mode
              (set_num_features two_view_model [3]) single_mode_valuation
              single_mode_feed empty_heap [3]) as (h' & H & _);
    [reflexivity|simpl; lia|simpl; lia|].
  exists h'. exact H.
Defined.

(** ** X5: an unknown input type *)



(** ** X6: building with view-specific factors *)

(** X6. With [view_rank > 0], [build_graph] never returns a graph for a
    well-formed configuration that lists a mode: the view-specific table of
    the (view, mode) pair is [None] after [_init_learnable_params], and the
    product of [_view_mode_embedding] with it raises. *)
Theorem no_graph_with_view_specific_factors
    (self : SFMCore) (rho : valuation) (fd : feed_dict) (h : heap) :
  well_formed self -> view_rank self > 0 ->
  (exists modes m, modes ∈ view_list self /\ m ∈ modes) ->
  exists e h', build_graph self rho fd h = (Raise e, h').
Proof.
  intros Hwf Hvr (modes & m & Hmodes & Hm).
  destruct (build_graph self rho fd h) as [[g|e] h'] eqn:Hb; [exfalso|eauto].
  destruct (build_graph_params self rho fd h Hwf) as (h2 & Hps & Heq).
  rewrite Heq in Hb. apply build_blocks_Ok in Hb as (ph & fw & h3 & _ & Hfw).
  apply init_main_block_Ok in Hfw as (cache & views & Hmain & _).
  apply main_outputs_Ok in Hmain as [Hviews _].
  apply list_elem_of_lookup in Hmodes as [k Hk].
  assert (Hin : (Z.of_nat k, modes) ∈ enumerate (view_list self)).
  { apply enumerate_elem. exists k. auto. }
  destruct (mapM_Ok_elem _ _ _ _ Hviews Hin) as ([p c] & Hblock).
  apply view_block_Ok in Hblock as (XW_list & phi & HXW & _).
  destruct (foldR_Ok_elem _ _ _ _ _ HXW Hm) as (l & l' & Hstep).
  unfold view_mode_step in Hstep. rewrite decide_True in Hstep by exact Hvr.
  apply rbind_Ok in Hstep as (l1 & Hstep & _).
  apply rbind_Ok in Hstep as (XW & Hemb & _).
  revert Hemb. apply view_mode_embedding_needs_table.
  apply (params_state_view_table self Hwf _ _ h2 _ m Hps).
  apply view_pairs_elem. exists k, modes. auto.
Qed.

(** The views [(1,2),(1,3)] with [view_rank = 1]. *)
Lemma no_graph_with_view_specific_factors_witness :
  view_rank two_view_model > 0 /\
  exists e h', build_graph two_view_model single_mode_valuation single_mode_feed
                           empty_heap = (Raise e, h').
Proof.
  split; [reflexivity|].
  apply no_graph_with_view_specific_factors;
    [exact two_view_model_well_formed|reflexivity|].
  exists [1; 2], 1. split; apply elem_of_cons; auto.
Defined.

(** ** X7: building without view-specific factors *)

(** X7. With [view_rank = 0], an input that is not relational and of type
    'dense' or 'sparse', and a well-formed configuration with at least one
    view, each view listing a mode, [build_graph] completes from any state.
    It prints nothing, the graph has one contribution per view, and the
    accumulated regularization is the sum of the norms of the tables it
    created. *)
Theorem build_completes_without_view_specific_factors
    (self : SFMCore) (rho : valuation) (fd : feed_dict) (h : heap) :
  well_formed self -> view_rank self = 0 ->
  view_list self <> [] -> Forall (fun modes => modes <> []) (view_list self) ->
  isRelational self = false ->
  input_type self = "dense" \/ input_type self = "sparse" ->
  exists g h', build_graph self rho fd h = (Ok g, h') /\
    stdout h' = stdout h /\
    regularization h' = fsum (regular_terms self rho h') /\
    length (view_contribution (built_forward g)) = length (view_list self).
Proof.
  intros Hwf Hvr0 Hviews Hne Hrel Hty.
  assert (Hvr : view_rank self <= 0) by lia.
  assert (Hn : 1 <= n_modes self).
  { destruct (view_list self) as [|modes vl] eqn:Hvl; [contradiction|].
    apply list.Forall_cons in Hne as [Hm _]. destruct modes as [|m modes]; [contradiction|].
    destruct Hwf as (_ & _ & Hmodes). rewrite Hvl in Hmodes.
    apply list.Forall_cons in Hmodes as [Hmodes _].
    apply list.Forall_cons in Hmodes as [Hmodes _]. lia. }
  destruct (build_graph_params self rho fd h Hwf) as (h2 & Hps & ->).
  unfold build_blocks. unfold bind at 1, lift.
  rewrite init_placeholders_plain by assumption.
  destruct (main_outputs_completes self rho fd _ h2 Hwf Hps Hrel Hty Hvr Hn Hne)
    as ([[cache views] out] & Hmain).
  pose proof (main_outputs_Ok _ _ _ _ _ _ _ Hmain) as [Hmap _].
  apply mapM_lookup in Hmap as [Hlen _].
  unfold bind at 1. unfold _init_main_block. unfold bind at 1. rewrite Hmain.
  unfold bind at 1.
  rewrite (init_regular_sum self rho h2)
    by (apply (slots_populated_after_init self _ h2 Hwf Hvr Hps)).
  unfold ret, bind, gets. eexists _, _. split; [reflexivity|].
  cbn. split; [|split].
  - rewrite (ps_out _ _ _ _ _ Hps). cbn. unfold warnings.
    rewrite decide_False by lia. apply app_nil_r.
  - reflexivity.
  - rewrite length_map, Hlen. apply enumerate_length.
Qed.

(** The single-mode model builds. *)
Lemma build_completes_without_view_specific_factors_witness :
  exists g h',
    build_graph single_mode_built single_mode_valuation single_mode_feed empty_heap =
    (Ok g, h') /\ stdout h' = [].
Proof.
  destruct (build_completes_without_view_specific_factors single_mode_built
              single_mode_valuation single_mode_feed empty_heap)
    as (g & h' & H & Hout & _);
    [exact single_mode_built_well_formed|reflexivity|discriminate
    |repeat constructor; discriminate|reflexivity|left; reflexivity|].
  exists g, h'. split; [exact H|exact Hout].
Defined.

(** ** X8: the modes the main block accepts *)

(** X8. Where [_init_main_block] completes, every view lists at least one mode
    and every mode listed lies between 1 and [n_modes].  A mode 0 or a
    negative mode, which the lists [Bias[v]] and [XW_list] would accept
    through Python's negative indexing, is stopped by the lookup in the dict
    [XW_cache]; a view without modes by the empty [tf.pack]. *)
Theorem main_block_checks_the_modes
    (self : SFMCore) (rho : valuation) (ph : placeholders) (h h' : heap) (fw : forward) :
  _init_main_block self rho ph h = (Ok fw, h') ->
  Forall (fun modes => modes <> [] /\ Forall (fun m => 1 <= m <= n_modes self) modes)
         (view_list self).
Proof.
  intros H. apply init_main_block_Ok in H as (cache & views & Hm & _).
  pose proof (main_outputs_Ok _ _ _ _ _ _ _ Hm) as [Hviews _].
  unfold main_outputs in Hm. apply rbind_Ok in Hm as (x0 & _ & Hm).
  apply rbind_Ok in Hm as (cache' & Hcache & Hm).
  apply rbind_Ok in Hm as (views' & _ & [= <- _ _]).
  apply list.Forall_forall. intros modes Hmodes.
  apply list_elem_of_lookup in Hmodes as [k Hk].
  assert (Hin : (Z.of_nat k, modes) ∈ enumerate (view_list self)).
  { apply enumerate_elem. exists k. auto. }
  destruct (mapM_Ok_elem _ _ _ _ Hviews Hin) as ([p c] & Hb).
  apply view_block_Ok in Hb as (XW_list & phi & HXW & Hp & _ & _).
  split.
  - intros ->. injection HXW as <-. rewrite omap_repeat_None in Hp. discriminate.
  - apply list.Forall_forall. intros m Hmode.
    destruct (foldR_Ok_elem _ _ _ _ _ HXW Hmode) as (l & l' & Hstep).
    apply view_mode_step_reads_cache in Hstep.
    destruct (cache_keys _ _ _ _ _ Hcache Hstep) as [Hr|Hr].
    + apply range_elem in Hr. lia.
    + rewrite lookup_empty in Hr. destruct Hr as [? Hr]. discriminate.
Qed.

(** The main block of the single-mode model completes. *)
Lemma main_block_checks_the_modes_witness :
  exists ph h fw h',
    _init_placeholders single_mode_built single_mode_feed = Ok ph /\
    _init_main_block single_mode_built single_mode_valuation ph h = (Ok fw, h') /\
    Forall (fun modes => modes <> [] /\ Forall (fun m => 1 <= m <= 1) modes) [[1]].
Proof.
  destruct (_init_placeholders single_mode_built single_mode_feed) as [ph|e] eqn:Eph;
    [|vm_compute in Eph; discriminate Eph].
  set (h := snd (_init_learnable_params single_mode_built empty_heap)).
  destruct (_init_main_block single_mode_built single_mode_valuation ph h)
    as [[fw|e] h'] eqn:Efw.
  - exists ph, h, fw, h'. split; [reflexivity|]. split; [exact Efw|].
    exact (main_block_checks_the_modes _ _ _ _ _ _ Efw).
  - exfalso. vm_compute in Eph. injection Eph as <-. vm_compute in Efw. discriminate Efw.
Defined.

(** ** X9: the order of the modes of a view *)

(** X9. The product embedding and the contribution of a view depend on which
    modes the view lists, not on the order in which it lists them nor on how
    often: if the block of the view completes for one listing, it completes
    with the same product and the same contribution for every listing of the
    same modes. *)
Theorem view_product_ignores_listing_order
    (self : SFMCore) (rho : valuation) (ph : placeholders) (h : heap)
    (cache : gmap Z matrix) (i : Z) (modes modes' : list Z) (p c : matrix) :
  Forall (fun m => 1 <= m <= n_modes self) modes ->
  (forall m, m ∈ modes <-> m ∈ modes') ->
  view_block self rho ph h cache i modes = Ok (p, c) ->
  view_block self rho ph h cache i modes' = Ok (p, c).
Proof.
  intros Hrange Heq Hb. pose proof Hb as Hb'.
  apply view_block_Ok in Hb' as (XW_list & phi & HXW & Hp & Hphi & Hmat).
  rewrite XW_list_after_nil with (rho := rho) (ph := ph) (h := h) (cache := cache) (v := i + 1) in HXW.
  apply view_mode_loop in HXW as [Hall ->]; [|exact Hrange].
  unfold view_block.
  rewrite XW_list_after_nil with (rho := rho) (ph := ph) (h := h) (cache := cache) (v := i + 1).
  rewrite view_mode_loop_completes.
  - rewrite (XW_list_after_ext self rho ph h cache (i + 1) ([] ++ modes') ([] ++ modes))
      by (intros m; simpl; symmetry; apply Heq).
    cbn [rbind]. rewrite Hp. cbn [rbind]. rewrite Hphi. cbn [rbind].
    unfold matmul_wrapper. rewrite decide_True by reflexivity. rewrite Hmat. reflexivity.
  - apply list.Forall_forall. intros m Hm. rewrite list.Forall_forall in Hrange.
    apply Hrange, Heq, Hm.
  - intros m Hm. apply Hall, Heq, Hm.
Qed.

(** The listings [(1, 1, 2)] and [(2, 1)]. *)
Lemma view_product_ignores_listing_order_witness :
  let h := snd (_init_learnable_params dup_model empty_heap) in
  let cache : gmap Z matrix := <[0 := [[of_Z 6]]]> (<[1 := [[of_Z 10]]]> ∅) in
  exists p c,
    view_block dup_model single_mode_valuation dup_inputs h cache 0 [1; 1; 2] = Ok (p, c) /\
    view_block dup_model single_mode_valuation dup_inputs h cache 0 [2; 1] = Ok (p, c).
Proof.
  intros h cache.
  destruct (view_block dup_model single_mode_valuation dup_inputs h cache 0 [1; 1; 2])
    as [[p c]|e] eqn:E; [|vm_compute in E; discriminate E].
  exists p, c. split; [reflexivity|].
  apply (view_product_ignores_listing_order _ _ _ _ _ _ [1; 1; 2] [2; 1]).
  - repeat constructor; simpl; lia.
  - intros m. rewrite !elem_of_cons, !elem_of_nil. tauto.
  - exact E.
Defined.

(** ** X10: relational input *)

(** X10. For a relational input of type 'dense', the embedding of a mode is the
    rows of [matmul(mode_matrices[m], W[v][m])] that [train_x[m]] names; this
    is the product of the named rows of the mode matrix with the table, which
    is what the non-relational branch computes when it is fed these rows.  An
    index outside the mode matrix fails both in the same way. *)
Theorem relational_embedding_gathers_rows
    (self : SFMCore) (rho : valuation) (ph : placeholders) (h : heap) (v m : Z)
    (mats : list pyobj) (M : matrix) (ids : list Z) (w : variable) :
  isRelational self = true -> input_type self = "dense" ->
  mode_matrices ph = Some mats -> py_getitem mats m = Ok (Dense M) ->
  py_getitem (train_x ph) m = Ok (Indices ids) ->
  getitem2 (W h) v m = Ok (Some w) ->
  _view_mode_embedding self rho ph h v m =
  rbind (tf.nn.gather M ids) (fun X =>
    matmul_wrapper (Dense X) (Dense (rho (var_name w))) "dense").
Proof.
  intros Hrel Hty Hmats HM Hids Hw. unfold _view_mode_embedding.
  rewrite Hrel, Hmats, HM. cbn [rbind]. rewrite Hw. cbn [rbind tensor_of].
  rewrite Hty. unfold matmul_wrapper. rewrite !decide_True by reflexivity.
  cbn [tf.matmul rbind]. rewrite Hids. cbn [rbind tf.nn.embedding_lookup].
  apply gather_map.
Qed.

(** A mode matrix with the rows [[3]] and [[5]], a batch that names the rows
    1, 0, 1, and a table holding [[2]]. *)
Lemma relational_embedding_gathers_rows_witness :
  let self := set_relational_input single_mode_built true in
  let h := snd (_init_learnable_params self empty_heap) in
  exists ph,
    _init_placeholders self relational_feed = Ok ph /\
    _view_mode_embedding self single_mode_valuation ph h 0 0 =
    Ok [[of_Z 10]; [of_Z 6]; [of_Z 10]].
Proof.
  intros self h. eexists. split; [reflexivity|].
  rewrite (relational_embedding_gathers_rows self single_mode_valuation _ h 0 0
             [Dense [[of_Z 3]; [of_Z 5]]] [[of_Z 3]; [of_Z 5]] [1; 0; 1]
             (Var "co_mode_1/embedding_init" [1; 1] true));
    reflexivity.
Defined.

(** ** X11: the range of the regularizer *)

(** X11. On a dense tensor [_regularizer_func] never raises and its value is
    never negative, whatever [reg_type]; if some entry of the tensor is not
    finite, the value is not finite either. *)
Theorem regularizer_is_never_negative (self : SFMCore) (m : matrix) :
  exists x, _regularizer_func self (Dense m) = Ok x /\
    nonneg x /\
    (forallb is_finite (entries m) = false -> is_finite x = false).
Proof.
  rewrite regularizer_func_dense. eexists. split; [reflexivity|].
  unfold norm. destruct (decide (reg_type self = "L1")).
  - unfold fsum. split.
    + apply fold_fadd_nonneg; [simpl; apply Qcle_refl|].
      apply list.Forall_forall. intros x Hx. apply list_elem_of_fmap in Hx as (y & -> & _).
      apply nonneg_fabs.
    + intros Hinf. rewrite fold_fadd_finite. simpl.
      rewrite forallb_map_finite by (intros x; apply nonneg_fabs). exact Hinf.
  - assert (Hs : nonneg (fsum (map (fun x => fmul x x) (entries m)))).
    { apply fold_fadd_nonneg; [simpl; apply Qcle_refl|].
      apply list.Forall_forall. intros x Hx. apply list_elem_of_fmap in Hx as (y & -> & _).
      apply nonneg_square. }
    destruct (nonneg_half _ Hs) as [Hn Hf]. split; [exact Hn|].
    intros Hinf. rewrite Hf. unfold fsum. rewrite fold_fadd_finite. simpl.
    rewrite forallb_map_finite by (intros x; apply nonneg_square). exact Hinf.
Qed.

(** A tensor with an infinite entry. *)
Lemma regularizer_is_never_negative_witness :
  exists x, _regularizer_func single_mode_built (Dense [[of_Z 1; PInf]]) = Ok x /\
    is_finite x = false.
Proof.
  destruct (regularizer_is_never_negative single_mode_built [[of_Z 1; PInf]])
    as (x & Hx & _ & Hinf).
  exists x. split; [exact Hx|]. apply Hinf. reflexivity.
Defined.

(** ** X12: what the guard stops *)

(** X12. If the mean loss, the regularization strength [reg] or the accumulated
    regularization is not finite, the tensor handed to the optimizer raises
    with the message 'NaN or Inf in target value'.  This is so also for
    [reg = 0]: the product of 0 and a regularization that is not finite is not
    a number, and so is the target. *)
Theorem guard_stops_what_is_not_finite (self : SFMCore) (fw : forward) (h : heap) :
  (is_finite (reduced_loss fw) && is_finite (reg self) && is_finite (regularization h) = false ->
   checked_target (_init_target self fw h) =
   Raise (InvalidArgumentError "NaN or Inf in target value")) /\
  (reg self = f0 -> is_finite (regularization h) = false ->
   target (_init_target self fw h) = NaN).
Proof.
  unfold _init_target, tf.verify_tensor_all_finite. cbn [checked_target target]. split.
  - destruct (reduced_loss fw) as [a| | |], (reg self) as [c| | |],
             (regularization h) as [d| | |]; cbn; intros H; try discriminate H;
      try reflexivity; unfold scale_inf; repeat case_decide; reflexivity.
  - intros -> Hinf.
    destruct (reduced_loss fw) as [a| | |], (regularization h) as [d| | |];
      try discriminate Hinf; reflexivity.
Qed.

(** A finite loss and an infinite regularization. *)
Lemma guard_stops_what_is_not_finite_witness :
  let fw := {| XW_cache := ∅; prod_embedding := []; view_contribution := [];
               outputs := []; loss := []; reduced_loss := f1 |} in
  checked_target (_init_target single_mode_built fw (set_regularization PInf empty_heap)) =
  Raise (InvalidArgumentError "NaN or Inf in target value").
Proof.
  intros fw.
  apply (guard_stops_what_is_not_finite single_mode_built fw
           (set_regularization PInf empty_heap)).
  reflexivity.
Defined.

(** ** X13: the mean loss of an empty batch *)

(** X13. The mean loss of an empty batch is not a number: where the main block
    completes with no per-example loss at all, [reduced_loss] is NaN, and the
    guarded target raises whatever the regularization. *)
Theorem empty_batch_has_no_mean_loss
    (self : SFMCore) (rho : valuation) (ph : placeholders) (h h' : heap) (fw : forward) :
  _init_main_block self rho ph h = (Ok fw, h') ->
  entries (loss fw) = [] ->
  reduced_loss fw = NaN /\
  forall h'' : heap,
    checked_target (_init_target self fw h'') =
    Raise (InvalidArgumentError "NaN or Inf in target value").
Proof.
  intros H Hnil.
  apply init_main_block_Ok in H as (cache & views & _ & _ & _ & _ & _ & Hmean).
  unfold tf.reduce_mean in Hmean. rewrite Hnil in Hmean.
  assert (Hnan : reduced_loss fw = NaN) by (rewrite Hmean; reflexivity).
  split; [exact Hnan|]. intros h''.
  unfold _init_target. cbn [checked_target]. rewrite Hnan. reflexivity.
Qed.

(** The single-mode model fed an empty batch. *)
Lemma empty_batch_has_no_mean_loss_witness :
  exists ph h fw h',
    _init_placeholders single_mode_built empty_batch_feed = Ok ph /\
    _init_main_block single_mode_built single_mode_valuation ph h = (Ok fw, h') /\
    entries (loss fw) = [] /\ reduced_loss fw = NaN.
Proof.
  destruct (_init_placeholders single_mode_built empty_batch_feed) as [ph|e] eqn:Eph;
    [|vm_compute in Eph; discriminate Eph].
  set (h := snd (_init_learnable_params single_mode_built empty_heap)).
  destruct (_init_main_block single_mode_built single_mode_valuation ph h)
    as [[fw|e] h'] eqn:Efw.
  - exists ph, h, fw, h'. split; [reflexivity|]. split; [exact Efw|].
    assert (Hempty : entries (loss fw) = []).
    { assert (Hfw : Ok fw = fst (_init_main_block single_mode_built single_mode_valuation ph h))
        by (rewrite Efw; reflexivity).
      vm_compute in Eph. injection Eph as <-. vm_compute in Hfw. injection Hfw as ->.
      reflexivity. }
    split; [exact Hempty|].
    exact (proj1 (empty_batch_has_no_mean_loss _ _ _ _ _ _ Efw Hempty)).
  - exfalso. vm_compute in Eph. injection Eph as <-. vm_compute in Efw. discriminate Efw.
Defined.

(** ** X14: the regularization of a fresh model *)



(** ** X15: building again *)



(** ** X16: the placeholders *)

(** X16. Where [_init_placeholders] completes, [train_x] has one entry per mode:
    the vector of row indices for a relational input, and otherwise the dense
    matrix for the input type 'dense' and the sparse tensor for every other
    input type.  For a relational input [mode_matrices] holds the mode matrix
    of every mode, dense or sparse by the input type; otherwise the attribute
    is not assigned and keeps the value it had, [None] on a new object and
    the list of an earlier relational build after one.  [train_y] is the
    label vector.  For the input type 'dense' the call completes only if every
    mode has a feature dimension. *)
Theorem placeholders_follow_the_input_kind
    (self : SFMCore) (fd : feed_dict) (ph : placeholders) :
  _init_placeholders self fd = Ok ph ->
  train_x ph = map (fun i => if isRelational self then Indices (feed_X_indices fd i)
                             else plain_input self fd i) (range (n_modes self)) /\
  mode_matrices ph = (if isRelational self
                      then Some (map (mode_matrix self fd) (range (n_modes self)))
                      else mode_matrices_attr self) /\
  train_y ph = feed_Y fd /\
  (input_type self = "dense" ->
   forall i, 0 <= i < n_modes self -> exists nf, feature_dim self i = Ok nf).
Proof.
  unfold _init_placeholders. intros H. apply rbind_Ok in H as (ps & Hps & [= <-]).
  cbn [train_x mode_matrices train_y].
  rewrite (mapM_Ok_map _ _ _ _ (placeholder_pair_Ok self fd) Hps).
  rewrite !map_map. cbn [fst snd]. split; [reflexivity|]. split.
  - destruct (isRelational self); reflexivity.
  - split; [reflexivity|]. intros Hd i Hi.
    destruct (mapM_Ok_elem _ _ _ i Hps) as [y Hy]; [apply range_elem; exact Hi|].
    unfold placeholder_pair in Hy. rewrite decide_True in Hy by exact Hd.
    destruct (isRelational self); apply rbind_Ok in Hy as (nf & Hnf & _); eauto.
Qed.

(** The single-mode model, first with a relational input and then, on the
    same object, with a plain one: the second call leaves the mode matrices
    of the first in place.  On a new object the attribute is [None]. *)
Lemma placeholders_follow_the_input_kind_witness :
  let rel := set_relational_input single_mode_built true in
  exists ph1 ph2 ph3,
    _init_placeholders rel relational_feed = Ok ph1 /\
    mode_matrices ph1 = Some [Dense [[of_Z 3]; [of_Z 5]]] /\
    _init_placeholders (set_relational_input (with_placeholders rel ph1) false)
                       single_mode_feed = Ok ph2 /\
    train_x ph2 = [Dense [[of_Z 3]; [of_Z 5]]] /\
    mode_matrices ph2 = Some [Dense [[of_Z 3]; [of_Z 5]]] /\
    _init_placeholders single_mode_built single_mode_feed = Ok ph3 /\
    mode_matrices ph3 = None.
Proof.
  intros rel.
  destruct (_init_placeholders rel relational_feed) as [ph1|e] eqn:E1;
    [|vm_compute in E1; discriminate E1].
  destruct (_init_placeholders (set_relational_input (with_placeholders rel ph1) false)
                               single_mode_feed) as [ph2|e] eqn:E2;
    [|vm_compute in E2; discriminate E2].
  destruct (_init_placeholders single_mode_built single_mode_feed) as [ph3|e] eqn:E3;
    [|vm_compute in E3; discriminate E3].
  exists ph1, ph2, ph3.
  destruct (placeholders_follow_the_input_kind _ _ _ E1) as (_ & Hm1 & _).
  destruct (placeholders_follow_the_input_kind _ _ _ E2) as (Hx2 & Hm2 & _).
  destruct (placeholders_follow_the_input_kind _ _ _ E3) as (_ & Hm3 & _).
  split; [reflexivity|]. split; [rewrite Hm1; reflexivity|].
  split; [exact E2|]. split; [rewrite Hx2; reflexivity|].
  split; [|split; [reflexivity|rewrite Hm3; reflexivity]].
  rewrite Hm2. cbn [isRelational set_relational_input mode_matrices_attr with_placeholders].
  rewrite Hm1. reflexivity.
Defined.
